(** * Lawns & Laundry: the client script [assets/js/script.js]

    A shallow embedding of the session store ([auth]), the one-time redirect,
    and the login, signup, quest-post and password-toggle handlers, followed
    by the properties the specification states about them.

    JavaScript strings are sequences of UTF-16 code units; they are modelled
    as [list N], so that [length], [trim] and [JSON.stringify] count and
    classify exactly what the engine does.  Browser storage is a finite map
    from strings to strings. *)

From stdpp Require Import gmap strings list fin_maps.
From Stdlib Require Import NArith Ascii String.

Local Open Scope N_scope.

(** ** Strings *)

Abbreviation jsstring := (list N).

(** A literal of the source, as code units (the literals of the script are
    all ASCII). *)
Definition js (s : string) : jsstring :=
  N_of_ascii <$> list_ascii_of_string s.

(** [!s] is true exactly for the empty string. *)
Definition truthy (s : jsstring) : bool :=
  match s with
  | [] => false
  | _ :: _ => true
  end.

(** ECMAScript [WhiteSpace] (TAB, VT, FF, ZWNBSP and the category Zs). *)
Definition WhiteSpace : list N :=
  [0x9; 0xB; 0xC; 0x20; 0xA0; 0x1680;
   0x2000; 0x2001; 0x2002; 0x2003; 0x2004; 0x2005; 0x2006; 0x2007; 0x2008;
   0x2009; 0x200A; 0x202F; 0x205F; 0x3000; 0xFEFF].

(** ECMAScript [LineTerminator]. *)
Definition LineTerminator : list N := [0xA; 0xD; 0x2028; 0x2029].

Definition isTrimmable (c : N) : bool :=
  bool_decide (c ∈ WhiteSpace ++ LineTerminator).

Fixpoint trimStart (s : jsstring) : jsstring :=
  match s with
  | [] => []
  | c :: s' => if isTrimmable c then trimStart s' else s
  end.

Definition trimEnd (s : jsstring) : jsstring :=
  reverse (trimStart (reverse s)).

(** [String.prototype.trim]. *)
Definition trim (s : jsstring) : jsstring := trimEnd (trimStart s).

Fixpoint startsWith (s pat : jsstring) : bool :=
  match pat, s with
  | [], _ => true
  | _ :: _, [] => false
  | p :: pat', c :: s' => bool_decide (c = p) && startsWith s' pat'
  end.

(** [String.prototype.includes]. *)
Fixpoint includes (s pat : jsstring) : bool :=
  startsWith s pat ||
  match s with
  | [] => false
  | _ :: s' => includes s' pat
  end.

(** [s.split(sep)] for a separator of one code unit: never empty. *)
Fixpoint split (sep : N) (s : jsstring) : list jsstring :=
  match s with
  | [] => [[]]
  | c :: s' =>
      if bool_decide (c = sep) then [] :: split sep s'
      else match split sep s' with
           | seg :: rest => (c :: seg) :: rest
           | [] => [[c]]
           end
  end.

(** [location.pathname.split("/").pop()]: the part after the last slash. *)
Definition lastSegment (pathname : jsstring) : jsstring :=
  default [] (last (split 0x2F pathname)).

(** ** JSON.stringify of a user record

    [QuoteJSONString] of ECMA-262: the two-character escapes of its table,
    [\uXXXX] (lowercase) for the other control characters and for lone
    surrogates, every other code unit as it is. *)

Definition hexDigit (n : N) : N :=
  if n <? 10 then 0x30 + n else 0x57 + n.

Definition UnicodeEscape (c : N) : jsstring :=
  js "\u" ++ [hexDigit (c / 4096 mod 16); hexDigit (c / 256 mod 16);
              hexDigit (c / 16 mod 16); hexDigit (c mod 16)].

Definition isLeadingSurrogate (c : N) : bool := (0xD800 <=? c) && (c <=? 0xDBFF).
Definition isTrailingSurrogate (c : N) : bool := (0xDC00 <=? c) && (c <=? 0xDFFF).

(** One code unit that is not part of a surrogate pair. *)
Definition quoteUnit (c : N) : jsstring :=
  if c =? 0x08 then js "\b"
  else if c =? 0x09 then js "\t"
  else if c =? 0x0A then js "\n"
  else if c =? 0x0C then js "\f"
  else if c =? 0x0D then js "\r"
  else if c =? 0x22 then [0x5C; 0x22]
  else if c =? 0x5C then [0x5C; 0x5C]
  else if (c <? 0x20) || isLeadingSurrogate c || isTrailingSurrogate c
       then UnicodeEscape c
  else [c].

Fixpoint quoteUnits (s : jsstring) : jsstring :=
  match s with
  | [] => []
  | c :: s' =>
      match s' with
      | d :: s'' =>
          if isLeadingSurrogate c && isTrailingSurrogate d
          then c :: d :: quoteUnits s''
          else quoteUnit c ++ quoteUnits s'
      | [] => quoteUnit c
      end
  end.

Definition QuoteJSONString (s : jsstring) : jsstring :=
  [0x22] ++ quoteUnits s ++ [0x22].

(** The object the login handler builds: [{ username }]. *)
Record User := { username : jsstring }.

(** [JSON.stringify({ username })]. *)
Definition JSON_stringify (user : User) : jsstring :=
  js "{" ++ QuoteJSONString (js "username") ++ js ":" ++
  QuoteJSONString (username user) ++ js "}".

(** ** The page and the browser around the script *)

(** A form control: its current value, the value [form.reset()] restores,
    and its [type] attribute. *)
Record Control := {
  value : jsstring;
  defaultValue : jsstring;
  type : jsstring
}.

(** The decorative [#successCheckmark] element and its inline display. *)
Record Checkmark := { display : jsstring }.

(** A paragraph made by [showMessage]; [msg_child] is an element inserted
    before its text. *)
Record Message := {
  msg_textContent : jsstring;
  msg_className : jsstring;
  msg_role : jsstring;
  msg_child : option Checkmark
}.

(** A [.pwd-toggle] button: its [data-for] attribute ([None] when the
    attribute is missing) and its label. *)
Record Toggle := {
  data_for : option jsstring;
  btn_textContent : jsstring
}.

(** Everything the script reads or writes.
    - [localStorage], [sessionStorage]: [None] when the browser refuses
      access to storage, in which case touching it throws;
    - [pathname]: [location.pathname];
    - [returnParam]: [new URLSearchParams(location.search).get("return")];
    - [href]: the last value assigned to [location.href] by the script,
      [None] while no navigation has been requested;
    - [inputs]: the controls of the page's form, by id;
    - [messages]: the elements standing in the document that a class
      selector can match, in document order (the paragraphs [showMessage]
      appended, and any the page came with);
    - [checkmark]: the [#successCheckmark] element while it stands in the
      document outside any message;
    - [timers]: the pending [setTimeout] callbacks, as (delay, target of the
      navigation they perform);
    - [toggles]: the [.pwd-toggle] buttons, in document order. *)
Record World := {
  localStorage : option (gmap jsstring jsstring);
  sessionStorage : option (gmap jsstring jsstring);
  pathname : jsstring;
  returnParam : option jsstring;
  href : option jsstring;
  inputs : gmap jsstring Control;
  messages : list Message;
  checkmark : option Checkmark;
  timers : list (N * jsstring);
  toggles : list Toggle
}.

Definition set_localStorage (v : option (gmap jsstring jsstring)) (w : World) : World :=
  {| localStorage := v; sessionStorage := sessionStorage w;
     pathname := pathname w; returnParam := returnParam w; href := href w;
     inputs := inputs w; messages := messages w; checkmark := checkmark w;
     timers := timers w; toggles := toggles w |}.

Definition set_sessionStorage (v : option (gmap jsstring jsstring)) (w : World) : World :=
  {| localStorage := localStorage w; sessionStorage := v;
     pathname := pathname w; returnParam := returnParam w; href := href w;
     inputs := inputs w; messages := messages w; checkmark := checkmark w;
     timers := timers w; toggles := toggles w |}.

Definition set_href (v : option jsstring) (w : World) : World :=
  {| localStorage := localStorage w; sessionStorage := sessionStorage w;
     pathname := pathname w; returnParam := returnParam w; href := v;
     inputs := inputs w; messages := messages w; checkmark := checkmark w;
     timers := timers w; toggles := toggles w |}.

Definition set_inputs (v : gmap jsstring Control) (w : World) : World :=
  {| localStorage := localStorage w; sessionStorage := sessionStorage w;
     pathname := pathname w; returnParam := returnParam w; href := href w;
     inputs := v; messages := messages w; checkmark := checkmark w;
     timers := timers w; toggles := toggles w |}.

Definition set_messages (v : list Message) (w : World) : World :=
  {| localStorage := localStorage w; sessionStorage := sessionStorage w;
     pathname := pathname w; returnParam := returnParam w; href := href w;
     inputs := inputs w; messages := v; checkmark := checkmark w;
     timers := timers w; toggles := toggles w |}.

Definition set_checkmark (v : option Checkmark) (w : World) : World :=
  {| localStorage := localStorage w; sessionStorage := sessionStorage w;
     pathname := pathname w; returnParam := returnParam w; href := href w;
     inputs := inputs w; messages := messages w; checkmark := v;
     timers := timers w; toggles := toggles w |}.

Definition set_timers (v : list (N * jsstring)) (w : World) : World :=
  {| localStorage := localStorage w; sessionStorage := sessionStorage w;
     pathname := pathname w; returnParam := returnParam w; href := href w;
     inputs := inputs w; messages := messages w; checkmark := checkmark w;
     timers := v; toggles := toggles w |}.

Definition set_toggles (v : list Toggle) (w : World) : World :=
  {| localStorage := localStorage w; sessionStorage := sessionStorage w;
     pathname := pathname w; returnParam := returnParam w; href := href w;
     inputs := inputs w; messages := messages w; checkmark := checkmark w;
     timers := timers w; toggles := v |}.

(** ** Computations of the script: state and exceptions *)

Inductive exn :=
  | SecurityError   (* storage access refused by the browser *)
  | TypeError.      (* a property of [null] was read *)

Inductive outcome (A : Type) :=
  | Return (a : A)
  | Throw (e : exn).
Arguments Return {A} a.
Arguments Throw {A} e.

(** A computation runs on a world and leaves a world, whether it returns or
    throws: what was written before an exception stays written. *)
Definition JS (A : Type) : Type := World -> outcome A * World.

Definition ret {A} (a : A) : JS A := fun w => (Return a, w).
Definition throw {A} (e : exn) : JS A := fun w => (Throw e, w).
Definition bind {A B} (m : JS A) (k : A -> JS B) : JS B :=
  fun w => match m w with
           | (Return a, w') => k a w'
           | (Throw e, w') => (Throw e, w')
           end.
Definition gets {A} (f : World -> A) : JS A := fun w => (Return (f w), w).
Definition modify (f : World -> World) : JS unit := fun w => (Return tt, f w).

Notation "x <- m ;; k" := (bind m (fun x => k))
  (at level 100, m at next level, right associativity).
Notation "m ;; k" := (bind m (fun _ => k))
  (at level 100, right associativity).

(** The final world of a computation, and whether it threw. *)
Definition exec {A} (m : JS A) (w : World) : World := snd (m w).
Definition result {A} (m : JS A) (w : World) : outcome A := fst (m w).

(** *** Storage *)

Definition localStorage_getItem (k : jsstring) : JS (option jsstring) :=
  fun w => match localStorage w with
           | Some m => (Return (m !! k), w)
           | None => (Throw SecurityError, w)
           end.

Definition localStorage_setItem (k v : jsstring) : JS unit :=
  fun w => match localStorage w with
           | Some m => (Return tt, set_localStorage (Some (<[k:=v]> m)) w)
           | None => (Throw SecurityError, w)
           end.

Definition localStorage_removeItem (k : jsstring) : JS unit :=
  fun w => match localStorage w with
           | Some m => (Return tt, set_localStorage (Some (delete k m)) w)
           | None => (Throw SecurityError, w)
           end.

Definition sessionStorage_getItem (k : jsstring) : JS (option jsstring) :=
  fun w => match sessionStorage w with
           | Some m => (Return (m !! k), w)
           | None => (Throw SecurityError, w)
           end.

Definition sessionStorage_setItem (k v : jsstring) : JS unit :=
  fun w => match sessionStorage w with
           | Some m => (Return tt, set_sessionStorage (Some (<[k:=v]> m)) w)
           | None => (Throw SecurityError, w)
           end.

Definition sessionStorage_removeItem (k : jsstring) : JS unit :=
  fun w => match sessionStorage w with
           | Some m => (Return tt, set_sessionStorage (Some (delete k m)) w)
           | None => (Throw SecurityError, w)
           end.

(** ** The session store: the [auth] object *)

Module auth.

Definition storageKey : jsstring := js "ll_auth_user".
Definition redirectKey : jsstring := js "ll_redirected_questview".

Definition login (user : User) : JS unit :=
  localStorage_setItem storageKey (JSON_stringify user).

Definition logout : JS unit :=
  localStorage_removeItem storageKey ;;
  sessionStorage_removeItem redirectKey.

Definition isLoggedIn : JS bool :=
  v <- localStorage_getItem storageKey ;;
  ret (match v with Some _ => true | None => false end).

Definition redirectToQuestOnce : JS unit :=
  loggedIn <- isLoggedIn ;;
  if negb loggedIn then ret tt
  else
    flag <- sessionStorage_getItem redirectKey ;;
    let alreadyRedirected := bool_decide (flag = Some (js "1")) in
    path <- gets pathname ;;
    let currentPage := lastSegment path in
    if alreadyRedirected
       || bool_decide (currentPage = js "questBoard.html")
       || bool_decide (currentPage = js "admin.html")
    then ret tt
    else
      sessionStorage_setItem redirectKey (js "1") ;;
      modify (set_href (Some (js "questBoard.html"))).

End auth.

(** ** Form helpers *)

(** [showMessage(formElement, message, type)]: a new paragraph with the text,
    the class [type] and [role="alert"], appended to the form. *)
Definition newMessage (message type : jsstring) : Message :=
  {| msg_textContent := message; msg_className := type;
     msg_role := js "alert"; msg_child := None |}.

Definition showMessage (message type : jsstring) : JS unit :=
  modify (fun w => set_messages (messages w ++ [newMessage message type]) w).

(** The tokens of a [class] attribute: the attribute is split at ASCII
    white space (tab, line feed, form feed, carriage return, space) and the
    empty pieces are dropped. *)
Definition isAsciiWhitespace (c : N) : bool :=
  (c =? 0x09) || (c =? 0x0A) || (c =? 0x0C) || (c =? 0x0D) || (c =? 0x20).

Fixpoint splitOn (sep : N -> bool) (s : jsstring) : list jsstring :=
  match s with
  | [] => [[]]
  | c :: s' =>
      if sep c then [] :: splitOn sep s'
      else match splitOn sep s' with
           | seg :: rest => (c :: seg) :: rest
           | [] => [[c]]
           end
  end.

Definition classTokens (className : jsstring) : list jsstring :=
  filter (fun t => t ≠ []) (splitOn isAsciiWhitespace className).

(** The class selector [.token]: the element's class list holds the token
    (compared as it is written, as in a document in standards mode). *)
Definition hasClass (token : jsstring) (m : Message) : bool :=
  bool_decide (token ∈ classTokens (msg_className m)).

(** The selector [.error, .success]. *)
Definition isMessage (m : Message) : bool :=
  hasClass (js "error") m || hasClass (js "success") m.

(** [clearMessages(formElement)].  The helper [$$] takes one argument, so the
    form passed second is dropped and the selector runs on the whole
    document: every matching element is removed, with what it contains. *)
Definition clearMessages : JS unit :=
  modify (fun w => set_messages (filter (fun m => isMessage m = false) (messages w)) w).

(** [$("#id").value]: reading [value] off a missing element throws. *)
Definition value_of (id : jsstring) : JS jsstring :=
  fun w => match inputs w !! id with
           | Some c => (Return (value c), w)
           | None => (Throw TypeError, w)
           end.

(** ** The login form: the submit listener of [setupLoginForm]

    [e.preventDefault()] only keeps the browser from submitting the form; the
    listeners below start after it. *)

Definition adminPath (path : jsstring) : jsstring :=
  if includes path (js "/pages/auth/") then js "../../admin/admin.html"
  else js "/admin/admin.html".

Definition questBoardPath (path : jsstring) : jsstring :=
  if includes path (js "/pages/auth/") then js "../quests/questBoard.html"
  else js "/pages/quests/questBoard.html".

(** [returnUrl || questBoardPath]: [null] and the empty string are falsy. *)
Definition orElse (returnUrl : option jsstring) (dflt : jsstring) : jsstring :=
  match returnUrl with
  | Some r => if truthy r then r else dflt
  | None => dflt
  end.

Definition setupLoginForm : JS unit :=
  clearMessages ;;
  u <- value_of (js "username") ;;
  let username := trim u in
  password <- value_of (js "password") ;;
  if negb (truthy username) || negb (truthy password) then
    showMessage (js "Please enter both username and password.") (js "error")
  else if bool_decide (username = js "admin")
          && bool_decide (password = js "admin123") then
    showMessage (js "Admin login successful! Redirecting...") (js "success") ;;
    auth.login {| username := username |} ;;
    path <- gets pathname ;;
    modify (set_href (Some (adminPath path)))
  else
    auth.login {| username := username |} ;;
    returnUrl <- gets returnParam ;;
    path <- gets pathname ;;
    modify (set_href (Some (orElse returnUrl (questBoardPath path)))).

(** ** The signup form: the submit listener of [setupSignupForm] *)

(** [setTimeout(() => { window.location.href = target }, delay)]. *)
Definition setTimeout_navigate (target : jsstring) (delay : N) : JS unit :=
  modify (fun w => set_timers (timers w ++ [(delay, target)]) w).

Definition setupSignupForm : JS unit :=
  clearMessages ;;
  n <- value_of (js "fullname") ;;
  let name := trim n in
  e <- value_of (js "email") ;;
  let email := trim e in
  password <- value_of (js "password") ;;
  confirmPassword <- value_of (js "confirm-password") ;;
  if negb (truthy name) || negb (truthy email) || negb (truthy password) then
    showMessage (js "All fields are required.") (js "error")
  else if (List.length password <? 6)%nat then
    showMessage (js "Password must be at least 6 characters.") (js "error")
  else if negb (bool_decide (password = confirmPassword)) then
    showMessage (js "Passwords do not match.") (js "error")
  else
    showMessage (js "Account created! Redirecting to login...") (js "success") ;;
    setTimeout_navigate (js "login.html") 1000.

(** ** The quest form: the submit listener of [setupQuestForm] *)

(** [form.reset()]: every control goes back to its default value. *)
Definition resetControl (c : Control) : Control :=
  {| value := defaultValue c; defaultValue := defaultValue c; type := type c |}.

Definition form_reset : JS unit :=
  modify (fun w => set_inputs (resetControl <$> inputs w) w).

(** [document.getElementById('successCheckmark')]: the element is found
    where it stands in the document, also inside a message. *)
Definition getCheckmark (w : World) : option Checkmark :=
  match checkmark w with
  | Some c => Some c
  | None => head (omap msg_child (messages w))
  end.

Definition withChild (ch : option Checkmark) (m : Message) : Message :=
  {| msg_textContent := msg_textContent m; msg_className := msg_className m;
     msg_role := msg_role m; msg_child := ch |}.

(** [checkmark.style.display = d], wherever the element stands. *)
Definition setCheckmarkDisplay (d : jsstring) (w : World) : World :=
  let restyle (_ : Checkmark) := {| display := d |} in
  set_checkmark (restyle <$> checkmark w)
    (set_messages ((fun m => withChild (restyle <$> msg_child m) m) <$> messages w) w).

(** [form.querySelector('.success')] and [insertBefore] on it: the first
    message of class [success] receives the element. *)
Fixpoint insertIntoSuccess (c : Checkmark) (ms : list Message) : list Message :=
  match ms with
  | [] => []
  | m :: ms' =>
      if hasClass (js "success") m
      then withChild (Some c) m :: ms'
      else m :: insertIntoSuccess c ms'
  end.

(** [messageElement.insertBefore(checkmark, messageElement.firstChild)]:
    the element leaves the place it had and becomes the message's first
    child; nothing happens when there is no such message. *)
Definition prependCheckmark (w : World) : World :=
  match getCheckmark w with
  | Some c =>
      if existsb (hasClass (js "success")) (messages w)
      then set_checkmark None
             (set_messages (insertIntoSuccess c (withChild None <$> messages w)) w)
      else w
  | None => w
  end.

Definition setupQuestForm : JS unit :=
  clearMessages ;;
  t <- value_of (js "questTitle") ;;
  let title := trim t in
  b <- value_of (js "questBudget") ;;
  let budget := trim b in
  d <- value_of (js "questDesc") ;;
  let description := trim d in
  if negb (truthy title) || negb (truthy budget) || negb (truthy description) then
    showMessage (js "Please complete all fields.") (js "error")
  else
    form_reset ;;
    cm <- gets getCheckmark ;;
    match cm with
    | Some _ =>
        modify (setCheckmarkDisplay (js "inline-block")) ;;
        showMessage (js "Quest submitted successfully!") (js "success") ;;
        modify prependCheckmark
    | None =>
        showMessage (js "Quest submitted successfully!") (js "success")
    end.

(** ** Password toggles: [setupPasswordToggles] *)

(** A click listener: the button it was added to and the input it closed
    over. *)
Record Listener := {
  btn : nat;
  passwordInput : jsstring
}.

(** [document.getElementById(btn.getAttribute("data-for"))]: a missing
    attribute reads [null], which is looked up as the id "null". *)
Definition inputId (t : Toggle) : jsstring := default (js "null") (data_for t).

(** [buttons.forEach(btn => ...)] from the [i]-th button on: a button gets
    its listener when its target exists. *)
Fixpoint addListeners (w : World) (i : nat) (buttons : list Toggle) : list Listener :=
  match buttons with
  | [] => []
  | t :: buttons' =>
      match inputs w !! inputId t with
      | Some _ => {| btn := i; passwordInput := inputId t |} :: addListeners w (S i) buttons'
      | None => addListeners w (S i) buttons'
      end
  end.

Definition setupPasswordToggles (w : World) : list Listener :=
  addListeners w 0 (toggles w).

Definition setType (ty : jsstring) (c : Control) : Control :=
  {| value := value c; defaultValue := defaultValue c; type := ty |}.

Definition setLabel (l : jsstring) (t : Toggle) : Toggle :=
  {| data_for := data_for t; btn_textContent := l |}.

(** The body of the click listener. *)
Definition onClick (l : Listener) (w : World) : World :=
  match inputs w !! passwordInput l with
  | Some c =>
      let isPassword := bool_decide (type c = js "password") in
      set_toggles
        (alter (setLabel (if isPassword then js "Hide" else js "Show")) (btn l) (toggles w))
        (set_inputs
           (<[passwordInput l := setType (if isPassword then js "text" else js "password") c]>
              (inputs w)) w)
  | None => w
  end.

(** A click on the [i]-th button runs the listeners added to it. *)
Definition click (ls : list Listener) (i : nat) (w : World) : World :=
  foldl (fun w l => if bool_decide (btn l = i) then onClick l w else w) w ls.

(** ** Page loads *)

(** The browser arrives on a page: its path is the current one and no
    navigation is pending. *)
Definition arrive (path : jsstring) (w : World) : World :=
  {| localStorage := localStorage w; sessionStorage := sessionStorage w;
     pathname := path; returnParam := returnParam w; href := None;
     inputs := inputs w; messages := messages w; checkmark := checkmark w;
     timers := timers w; toggles := toggles w |}.

(** What a load does to the session: [setupGlobalUI] ends with
    [auth.redirectToQuestOnce()]; before it the function only reads the
    session, to label the login button. *)
Definition pageLoad (path : jsstring) : JS unit :=
  modify (arrive path) ;;
  auth.redirectToQuestOnce.

(** What happens in a tab, as far as the session goes. *)
Inductive event :=
  | Visit (path : jsstring)
  | LogIn (user : User)
  | LogOut.

Definition step (e : event) : JS unit :=
  match e with
  | Visit path => pageLoad path
  | LogIn user => auth.login user
  | LogOut => auth.logout
  end.

(** Did this event send the browser to the quest board by itself? *)
Definition redirected (e : event) (w : World) : bool :=
  match e with
  | Visit _ => bool_decide (href (exec (step e) w) = Some (js "questBoard.html"))
  | _ => false
  end.

Fixpoint redirects (es : list event) (w : World) : nat :=
  match es with
  | [] => 0
  | e :: es' =>
      ((if redirected e w then 1 else 0) + redirects es' (exec (step e) w))%nat
  end.

(** ** Vocabulary of the statements *)

Definition user (name : jsstring) : jsstring := JSON_stringify {| username := name |}.

Definition cleared (w : World) : list Message :=
  filter (fun m => isMessage m = false) (messages w).

(** The form after [reset], the old messages gone. *)
Definition questReset (w : World) : World :=
  set_inputs (resetControl <$> inputs w) (set_messages (cleared w) w).

Definition set_returnParam (v : option jsstring) (w : World) : World :=
  {| localStorage := localStorage w; sessionStorage := sessionStorage w;
     pathname := pathname w; returnParam := v; href := href w;
     inputs := inputs w; messages := messages w; checkmark := checkmark w;
     timers := timers w; toggles := toggles w |}.

Definition isAdmin (username password : jsstring) : bool :=
  bool_decide (username = js "admin") && bool_decide (password = js "admin123").

Definition newType (c : Control) : jsstring :=
  if bool_decide (type c = js "password") then js "text" else js "password".

Definition newLabel (c : Control) : jsstring :=
  if bool_decide (type c = js "password") then js "Hide" else js "Show".

Definition questSuccess : Message :=
  newMessage (js "Quest submitted successfully!") (js "success").

(** The user fills the form in again as it was in [w0]. *)
Definition refill (w0 w : World) : World := set_inputs (inputs w0) w.

Definition excludedPage (page : jsstring) : Prop :=
  page = js "questBoard.html" \/ page = js "admin.html".

(** Storage holds the redirect-once flag. *)
Definition flagged (w : World) : Prop :=
  exists ss, sessionStorage w = Some ss /\ ss !! auth.redirectKey = Some (js "1").

Definition errorShown (w : World) : Prop :=
  exists m, m ∈ messages w /\ msg_className m = js "error".

Definition shows (text type : jsstring) (w w' : World) : Prop :=
  w' = set_messages (cleared w ++ [newMessage text type]) w.

(** Reading a quoted string back (the part of [JSON.parse] that undoes
    [QuoteJSONString]); the script never parses the stored value, so this
    serves only to show that the stored value determines the user. *)
Definition unhexDigit (d : N) : N :=
  if d <? 0x3A then d - 0x30 else d - 0x57.

Definition unescape (e : N) : N :=
  if e =? 0x62 then 0x08
  else if e =? 0x74 then 0x09
  else if e =? 0x6E then 0x0A
  else if e =? 0x66 then 0x0C
  else if e =? 0x72 then 0x0D
  else e.

Fixpoint unquoteUnits (s : jsstring) : jsstring :=
  match s with
  | [] => []
  | c :: rest =>
      if c =? 0x5C then
        match rest with
        | [] => []
        | e :: rest' =>
            if e =? 0x75 then
              match rest' with
              | h3 :: h2 :: h1 :: h0 :: rest'' =>
                  (unhexDigit h3 * 4096 + unhexDigit h2 * 256
                   + unhexDigit h1 * 16 + unhexDigit h0) :: unquoteUnits rest''
              | _ => []
              end
            else unescape e :: unquoteUnits rest'
        end
      else c :: unquoteUnits rest
  end.

(** ** Pages used as examples *)

(** A world for examples: storage available and empty, the login page of
    the site, nothing else on it. *)
Definition emptyWorld : World :=
  {| localStorage := Some ∅; sessionStorage := Some ∅;
     pathname := js "/pages/auth/login.html"; returnParam := None;
     href := None; inputs := ∅; messages := []; checkmark := None;
     timers := []; toggles := [] |}.

(** A logged-in tab on the landing page, before any redirect. *)
Definition loggedInWorld : World :=
  {| localStorage := Some {[ auth.storageKey := user (js "bob") ]};
     sessionStorage := Some ∅;
     pathname := js "/index.html"; returnParam := None;
     href := None; inputs := ∅; messages := []; checkmark := None;
     timers := []; toggles := [] |}.

Definition noStorage : World :=
  {| localStorage := None; sessionStorage := None;
     pathname := js "/index.html"; returnParam := None;
     href := None; inputs := ∅; messages := []; checkmark := None;
     timers := []; toggles := [] |}.

(** The login page, with both fields filled as given. *)
Definition loginPage (usernameValue passwordValue : jsstring)
    (returnUrl : option jsstring) : World :=
  {| localStorage := Some ∅; sessionStorage := Some ∅;
     pathname := js "/pages/auth/login.html"; returnParam := returnUrl;
     href := None;
     inputs := {[ js "username" := {| value := usernameValue; defaultValue := [];
                                      type := js "text" |};
                  js "password" := {| value := passwordValue; defaultValue := [];
                                      type := js "password" |} ]};
     messages := []; checkmark := None; timers := []; toggles := [] |}.

Definition signupPage (name email password confirmPassword : jsstring) : World :=
  {| localStorage := Some ∅; sessionStorage := Some ∅;
     pathname := js "/pages/auth/signup.html"; returnParam := None;
     href := None;
     inputs :=
       {[ js "fullname" := {| value := name; defaultValue := []; type := js "text" |};
          js "email" := {| value := email; defaultValue := []; type := js "email" |};
          js "password" := {| value := password; defaultValue := []; type := js "password" |};
          js "confirm-password" :=
            {| value := confirmPassword; defaultValue := []; type := js "password" |} ]};
     messages := []; checkmark := None; timers := []; toggles := [] |}.

(** The quest page: the three fields as given, with or without the
    checkmark element. *)
Definition questPage (title budget description : jsstring)
    (cm : option Checkmark) : World :=
  {| localStorage := Some ∅; sessionStorage := Some ∅;
     pathname := js "/pages/questgiver/postquest.html"; returnParam := None;
     href := None;
     inputs :=
       {[ js "questTitle" := {| value := title; defaultValue := []; type := js "text" |};
          js "questBudget" := {| value := budget; defaultValue := []; type := js "text" |};
          js "questDesc" :=
            {| value := description; defaultValue := []; type := js "textarea" |} ]};
     messages := []; checkmark := cm; timers := []; toggles := [] |}.

(** Two password fields, each with its own toggle, as on the signup page. *)
Definition togglePage : World :=
  {| localStorage := Some ∅; sessionStorage := Some ∅;
     pathname := js "/pages/auth/signup.html"; returnParam := None;
     href := None;
     inputs :=
       {[ js "password" := {| value := js "hunter2"; defaultValue := []; type := js "password" |};
          js "confirm-password" :=
            {| value := js "hunter2"; defaultValue := []; type := js "password" |} ]};
     messages := []; checkmark := None; timers := [];
     toggles := [ {| data_for := Some (js "password"); btn_textContent := js "Show" |};
                  {| data_for := Some (js "confirm-password"); btn_textContent := js "Show" |} ] |}.

(** A tab whose user logged out in another tab: local storage, which the
    tabs share, holds no user, and this tab's session storage still holds
    the flag of an earlier redirect. *)
Definition staleFlagWorld : World :=
  {| localStorage := Some ∅;
     sessionStorage := Some {[ auth.redirectKey := js "1" ]};
     pathname := js "/index.html"; returnParam := None;
     href := None; inputs := ∅; messages := []; checkmark := None;
     timers := []; toggles := [] |}.

(** A toggle whose label in the page is not "Show". *)
Definition labelledTogglePage : World :=
  set_toggles
    [ {| data_for := Some (js "password"); btn_textContent := js "Show password" |} ]
    togglePage.

(** One password field with two buttons. *)
Definition sharedFieldPage : World :=
  set_toggles
    [ {| data_for := Some (js "password"); btn_textContent := js "Show" |};
      {| data_for := Some (js "password"); btn_textContent := js "Show" |} ]
    togglePage.

(** ** The rest of the script

    What follows covers the code around the session store and the form
    listeners: the page set-up run on [DOMContentLoaded], the profile menu,
    the settings helper [applySetting], and the test button script. *)

(** The [routes] object. *)
Module routes.

Definition home : jsstring := js "/index.html".
Definition login : jsstring := js "/pages/auth/login.html".
Definition signup : jsstring := js "/pages/auth/signup.html".
Definition post : jsstring := js "/pages/questgiver/postquest.html".
Definition questview : jsstring := js "/pages/quests/questBoard.html".

End routes.

(** [String.prototype.endsWith]. *)
Definition endsWith (s suffix : jsstring) : bool :=
  startsWith (reverse s) (reverse suffix).

(** [a || b] on strings: the empty string is falsy. *)
Definition orString (a b : jsstring) : jsstring :=
  if truthy a then a else b.

(** *** State and exceptions over any state *)

Definition andThen {S A B : Type} (m : S -> outcome A * S)
    (k : A -> S -> outcome B * S) : S -> outcome B * S :=
  fun s => match m s with
           | (Return a, s') => k a s'
           | (Throw e, s') => (Throw e, s')
           end.

Notation "x <~ m ;; k" := (andThen m (fun x => k))
  (at level 100, m at next level, right associativity).

(** *** The page around the forms *)

(** A link of the navigation bar: its [href] attribute ([None] when the
    anchor has none) and its [aria-current] attribute. *)
Record NavLink := {
  nav_href : option jsstring;
  aria_current : option jsstring
}.

(** The listeners the set-up functions add. *)
Inductive Handler :=
  | LogoutClick        (* on [#login_link] *)
  | GuardClick         (* on [#postAQuest] *)
  | LoginSubmit        (* on [.login-form] *)
  | SignupSubmit       (* on [#signupForm] *)
  | QuestSubmit        (* on [#questForm] *)
  | ToggleClick (l : Listener)
  | AdminLogoutClick.  (* on [#adminLogout] *)

#[global] Instance Listener_eq_dec : EqDecision Listener.
Proof. solve_decision. Defined.

#[global] Instance Handler_eq_dec : EqDecision Handler.
Proof. solve_decision. Defined.

(** A page as the set-up functions see it.
    - [world]: storage, location and the form controls;
    - [navLinks]: [$$("nav a")], in document order;
    - [login_link]: the label of [#login_link], [None] when the page has no
      such element;
    - [postAQuest], [loginForm], [signupForm], [questForm], [adminLogout]:
      whether the page has [#postAQuest], [.login-form], [#signupForm],
      [#questForm], [#adminLogout];
    - [handlers]: the listeners added so far, oldest first. *)
Record Page := {
  world : World;
  navLinks : list NavLink;
  login_link : option jsstring;
  postAQuest : bool;
  loginForm : bool;
  signupForm : bool;
  questForm : bool;
  adminLogout : bool;
  handlers : list Handler
}.

Definition set_world (v : World) (p : Page) : Page :=
  {| world := v; navLinks := navLinks p; login_link := login_link p;
     postAQuest := postAQuest p; loginForm := loginForm p;
     signupForm := signupForm p; questForm := questForm p;
     adminLogout := adminLogout p; handlers := handlers p |}.

Definition set_navLinks (v : list NavLink) (p : Page) : Page :=
  {| world := world p; navLinks := v; login_link := login_link p;
     postAQuest := postAQuest p; loginForm := loginForm p;
     signupForm := signupForm p; questForm := questForm p;
     adminLogout := adminLogout p; handlers := handlers p |}.

Definition set_login_link (v : option jsstring) (p : Page) : Page :=
  {| world := world p; navLinks := navLinks p; login_link := v;
     postAQuest := postAQuest p; loginForm := loginForm p;
     signupForm := signupForm p; questForm := questForm p;
     adminLogout := adminLogout p; handlers := handlers p |}.

Definition set_handlers (v : list Handler) (p : Page) : Page :=
  {| world := world p; navLinks := navLinks p; login_link := login_link p;
     postAQuest := postAQuest p; loginForm := loginForm p;
     signupForm := signupForm p; questForm := questForm p;
     adminLogout := adminLogout p; handlers := v |}.

(** [element.addEventListener(...)]. *)
Definition addEventListener (h : Handler) (p : Page) : outcome unit * Page :=
  (Return tt, set_handlers (handlers p ++ [h]) p).

(** A computation of the session store, run on the page's world. *)
Definition onWorld {A} (m : JS A) (p : Page) : outcome A * Page :=
  match m (world p) with
  | (r, w') => (r, set_world w' p)
  end.

(** [link.setAttribute("aria-current", "page")]. *)
Definition markCurrent (l : NavLink) : NavLink :=
  {| nav_href := nav_href l; aria_current := Some (js "page") |}.

(** The [forEach] over the navigation links: [getAttribute("href")] of an
    anchor without [href] is [null], and [null.endsWith] throws; the links
    before it have been treated, the others are left. *)
Fixpoint highlight (currentPage : jsstring) (links : list NavLink)
    : outcome unit * list NavLink :=
  match links with
  | [] => (Return tt, [])
  | l :: links' =>
      match nav_href l with
      | None => (Throw TypeError, l :: links')
      | Some h =>
          let l' := if endsWith h currentPage then markCurrent l else l in
          match highlight currentPage links' with
          | (r, rest) => (r, l' :: rest)
          end
      end
  end.

Definition highlightNav (p : Page) : outcome unit * Page :=
  let currentPage := orString (lastSegment (pathname (world p))) routes.home in
  match highlight currentPage (navLinks p) with
  | (r, links) => (r, set_navLinks links p)
  end.

(** The login/logout button. *)
Definition setupLoginButton (p : Page) : outcome unit * Page :=
  match login_link p with
  | None => (Return tt, p)
  | Some _ =>
      (loggedIn <~ onWorld auth.isLoggedIn ;;
       if loggedIn : bool then
         fun p => addEventListener LogoutClick (set_login_link (Some (js "Logout")) p)
       else
         fun p => (Return tt, set_login_link (Some (js "Login")) p)) p
  end.

(** The guard on "Post a Quest". *)
Definition setupGuard (p : Page) : outcome unit * Page :=
  if postAQuest p then addEventListener GuardClick p else (Return tt, p).

Definition setupGlobalUI : Page -> outcome unit * Page :=
  _ <~ highlightNav ;;
  _ <~ setupLoginButton ;;
  _ <~ setupGuard ;;
  onWorld auth.redirectToQuestOnce.

(** [setupPasswordToggles(passwordToggles)] on the page: one listener per
    bound button. *)
Definition addToggleListeners (p : Page) : outcome unit * Page :=
  (Return tt,
   set_handlers (handlers p ++ (ToggleClick <$> setupPasswordToggles (world p))) p).

Definition when (b : bool) (m : Page -> outcome unit * Page) : Page -> outcome unit * Page :=
  if b then m else fun p => (Return tt, p).

Definition setupPageSpecificFeatures : Page -> outcome unit * Page :=
  fun p =>
    (_ <~ when (loginForm p) (addEventListener LoginSubmit) ;;
     _ <~ when (signupForm p) (addEventListener SignupSubmit) ;;
     _ <~ when (questForm p) (addEventListener QuestSubmit) ;;
     _ <~ when (0 <? List.length (toggles (world p)))%nat addToggleListeners ;;
     when (adminLogout p) (addEventListener AdminLogoutClick)) p.

(** The [DOMContentLoaded] listener. *)
Definition onDOMContentLoaded : Page -> outcome unit * Page :=
  _ <~ setupGlobalUI ;;
  setupPageSpecificFeatures.

(** *** Click listeners of the page *)

(** What a click listener leaves behind: whether it called
    [e.preventDefault()], how it ended, and the world. *)
Record Click := {
  defaultPrevented : bool;
  completion : outcome unit;
  after : World
}.

(** The listener on the "Logout" button. *)
Definition logoutClick (w : World) : Click :=
  match (auth.logout ;; modify (set_href (Some routes.home))) w with
  | (r, w') => {| defaultPrevented := true; completion := r; after := w' |}
  end.

(** The target of the guard: [`${routes.login}?return=${routes.post}`]. *)
Definition guardTarget : jsstring :=
  routes.login ++ js "?return=" ++ routes.post.

(** The listener on "Post a Quest". *)
Definition guardClick (w : World) : Click :=
  match auth.isLoggedIn w with
  | (Return true, w') =>
      {| defaultPrevented := false; completion := Return tt; after := w' |}
  | (Return false, w') =>
      {| defaultPrevented := true; completion := Return tt;
         after := set_href (Some guardTarget) w' |}
  | (Throw e, w') =>
      {| defaultPrevented := false; completion := Throw e; after := w' |}
  end.

(** The listener on [#adminLogout]. *)
Definition adminLogoutClick : JS unit :=
  auth.logout ;;
  modify (set_href (Some routes.home)).

(** A click on an element with no listener. *)
Definition noListener (w : World) : Click :=
  {| defaultPrevented := false; completion := Return tt; after := w |}.

(** A click on [#login_link] and on [#postAQuest], as set up on the page. *)
Definition clickLoginLink (p : Page) : Click :=
  if bool_decide (LogoutClick ∈ handlers p) then logoutClick (world p)
  else noListener (world p).

Definition clickPostAQuest (p : Page) : Click :=
  if bool_decide (GuardClick ∈ handlers p) then guardClick (world p)
  else noListener (world p).

(** *** The profile menu: [setupQuestViewCTA] *)

Inductive ProfileHandler :=
  | TriggerClick     (* on the profile button *)
  | DocumentClick    (* on the document *)
  | AccountClick
  | SettingsClick
  | SignoutClick.

#[global] Instance ProfileHandler_eq_dec : EqDecision ProfileHandler.
Proof. solve_decision. Defined.

(** A page with the profile menu.
    - [profileBtn], [profileMenu], [accountBtn], [settingsBtn],
      [signoutBtn]: whether the selector of that name finds an element;
    - [itemsInMenu]: whether the three item buttons stand inside the menu;
    - [menuOpen]: whether the menu's class list holds [open];
    - [profileHandlers]: the listeners added so far. *)
Record ProfilePage := {
  pp_world : World;
  profileBtn : bool;
  profileMenu : bool;
  accountBtn : bool;
  settingsBtn : bool;
  signoutBtn : bool;
  itemsInMenu : bool;
  menuOpen : bool;
  profileHandlers : list ProfileHandler
}.

Definition set_pp_world (v : World) (p : ProfilePage) : ProfilePage :=
  {| pp_world := v; profileBtn := profileBtn p; profileMenu := profileMenu p;
     accountBtn := accountBtn p; settingsBtn := settingsBtn p;
     signoutBtn := signoutBtn p; itemsInMenu := itemsInMenu p;
     menuOpen := menuOpen p; profileHandlers := profileHandlers p |}.

Definition set_menuOpen (v : bool) (p : ProfilePage) : ProfilePage :=
  {| pp_world := pp_world p; profileBtn := profileBtn p; profileMenu := profileMenu p;
     accountBtn := accountBtn p; settingsBtn := settingsBtn p;
     signoutBtn := signoutBtn p; itemsInMenu := itemsInMenu p;
     menuOpen := v; profileHandlers := profileHandlers p |}.

Definition set_profileHandlers (v : list ProfileHandler) (p : ProfilePage) : ProfilePage :=
  {| pp_world := pp_world p; profileBtn := profileBtn p; profileMenu := profileMenu p;
     accountBtn := accountBtn p; settingsBtn := settingsBtn p;
     signoutBtn := signoutBtn p; itemsInMenu := itemsInMenu p;
     menuOpen := menuOpen p; profileHandlers := v |}.

Definition setupQuestViewCTA (p : ProfilePage) : ProfilePage :=
  if negb (profileBtn p) || negb (profileMenu p) then p
  else
    set_profileHandlers
      (profileHandlers p ++ [TriggerClick; DocumentClick]
       ++ (if accountBtn p then [AccountClick] else [])
       ++ (if settingsBtn p then [SettingsClick] else [])
       ++ (if signoutBtn p then [SignoutClick] else []))
      p.

(** [closeMenu]. *)
Definition closeMenu (p : ProfilePage) : ProfilePage := set_menuOpen false p.

Definition accountPath (path : jsstring) : jsstring :=
  if includes path (js "/pages/") then js "../dashboard/accountSummary.html"
  else js "/pages/dashboard/accountSummary.html".

Definition settingsPath (path : jsstring) : jsstring :=
  if includes path (js "/pages/") then js "../dashboard/settings.html"
  else js "/pages/dashboard/settings.html".

Definition indexPath (path : jsstring) : jsstring :=
  if includes path (js "/pages/") then js "../../index.html"
  else js "/index.html".

(** The bodies of the listeners. *)
Definition onTrigger (p : ProfilePage) : ProfilePage :=
  set_menuOpen (negb (menuOpen p)) p.

(** [inMenu] is [profileMenu.contains(e.target)]; the target is not the
    profile button, whose own listener stops the propagation. *)
Definition onDocument (inMenu : bool) (p : ProfilePage) : ProfilePage :=
  if negb inMenu then closeMenu p else p.

Definition navigateTo (target : jsstring) (p : ProfilePage) : ProfilePage :=
  set_pp_world (set_href (Some target) (pp_world p)) p.

Definition onAccount (p : ProfilePage) : outcome unit * ProfilePage :=
  (Return tt, navigateTo (accountPath (pathname (pp_world p))) (closeMenu p)).

Definition onSettings (p : ProfilePage) : outcome unit * ProfilePage :=
  (Return tt, navigateTo (settingsPath (pathname (pp_world p))) (closeMenu p)).

Definition onSignout (p : ProfilePage) : outcome unit * ProfilePage :=
  let p1 := closeMenu p in
  match auth.logout (pp_world p1) with
  | (Return _, w') =>
      (Return tt, navigateTo (indexPath (pathname w')) (set_pp_world w' p1))
  | (Throw e, w') => (Throw e, set_pp_world w' p1)
  end.

(** Where a click lands. *)
Inductive Target :=
  | OnTrigger      (* the profile button, or something inside it *)
  | OnAccount
  | OnSettings
  | OnSignout
  | InsideMenu     (* inside the menu, on none of the items *)
  | Elsewhere.

(** The listener of an item, when it was added. *)
Definition runItem (h : ProfileHandler)
    (body : ProfilePage -> outcome unit * ProfilePage) (p : ProfilePage)
    : outcome unit * ProfilePage :=
  if bool_decide (h ∈ profileHandlers p) then body p else (Return tt, p).

(** The document's listener hears what bubbles up to it, also after a
    listener below it has thrown. *)
Definition thenDocument (inMenu : bool) (r : outcome unit * ProfilePage)
    : outcome unit * ProfilePage :=
  match r with
  | (o, p) =>
      (o, if bool_decide (DocumentClick ∈ profileHandlers p)
          then onDocument inMenu p else p)
  end.

(** A click, dispatched to the listeners on its way up.  The listener of
    the profile button stops the propagation, so the document does not hear
    a click on it. *)
Definition profileClick (t : Target) (p : ProfilePage) : outcome unit * ProfilePage :=
  match t with
  | OnTrigger =>
      if bool_decide (TriggerClick ∈ profileHandlers p)
      then (Return tt, onTrigger p)
      else (Return tt, p)
  | OnAccount => thenDocument (itemsInMenu p) (runItem AccountClick onAccount p)
  | OnSettings => thenDocument (itemsInMenu p) (runItem SettingsClick onSettings p)
  | OnSignout => thenDocument (itemsInMenu p) (runItem SignoutClick onSignout p)
  | InsideMenu => thenDocument true (Return tt, p)
  | Elsewhere => thenDocument false (Return tt, p)
  end.

(** *** The settings helper: [applySetting] *)

(** A notification paragraph: its text and its inline [display]. *)
Record Notification := {
  notif_textContent : jsstring;
  notif_display : jsstring
}.

(** The settings page: its input fields and its notification elements, by
    id. *)
Record SettingsPage := {
  fields : gmap jsstring Control;
  notifications : gmap jsstring Notification
}.

Definition setValue (v : jsstring) (c : Control) : Control :=
  {| value := v; defaultValue := defaultValue c; type := type c |}.

(** One branch of [applySetting]: reading [value] off a missing input
    throws; so does writing the text of a missing notification, before
    anything has changed. *)
Definition applyBranch (inputId notifId message : jsstring) (s : SettingsPage)
    : outcome unit * SettingsPage :=
  match fields s !! inputId with
  | None => (Throw TypeError, s)
  | Some c =>
      if bool_decide (trim (value c) = []) then (Return tt, s)
      else
        match notifications s !! notifId with
        | None => (Throw TypeError, s)
        | Some _ =>
            (Return tt,
             {| fields := <[inputId := setValue [] c]> (fields s);
                notifications :=
                  <[notifId := {| notif_textContent := message;
                                  notif_display := js "block" |}]>
                    (notifications s) |})
        end
  end.

Definition applySetting (type : jsstring) : SettingsPage -> outcome unit * SettingsPage :=
  _ <~ (if bool_decide (type = js "password")
        then applyBranch (js "new-password") (js "password-notification")
               (js "Password changed successfully!")
        else fun s => (Return tt, s)) ;;
  if bool_decide (type = js "email")
  then applyBranch (js "new-email") (js "email-notification")
         (js "Email updated successfully!")
  else fun s => (Return tt, s).

(** *** The test button script *)

(** The button: the tokens of its class list, in order, and its
    [aria-pressed] attribute. *)
Record TestButton := {
  classList : list jsstring;
  aria_pressed : option jsstring
}.

(** [classList.toggle(token)]: the token is removed when present and added
    at the end when absent; the result tells whether it is present now. *)
Definition classList_toggle (token : jsstring) (tokens : list jsstring)
    : bool * list jsstring :=
  if bool_decide (token ∈ tokens)
  then (false, filter (fun t => t ≠ token) tokens)
  else (true, tokens ++ [token]).

(** [String(b)]. *)
Definition String_of_bool (b : bool) : jsstring :=
  if b then js "true" else js "false".

(** The click listener. *)
Definition testBtnClick (b : TestButton) : TestButton :=
  match classList_toggle (js "red") (classList b) with
  | (isRed, tokens) =>
      {| classList := tokens; aria_pressed := Some (String_of_bool isRed) |}
  end.

(** The [DOMContentLoaded] listener of that script: [btn.addEventListener]
    on a page without [#testBtn] throws.  The result tells whether the
    click listener is in place. *)
Definition testBtnSetup (btn : option TestButton) : outcome bool :=
  match btn with
  | Some _ => Return true
  | None => Throw TypeError
  end.

(** *** Where a relative target leads

    The script assigns paths to [location.href]; the browser resolves them
    against the current page.  For a reference that is a plain path (no
    scheme, query or fragment, as all of the script's relative targets are)
    this is: drop the last segment of the base path, then walk the
    reference's segments, [..] going up one level (never above the root) and
    [.] staying. *)

(** [stack] holds the segments so far, last first. *)
Fixpoint removeDotSegments (stack segs : list jsstring) : list jsstring :=
  match segs with
  | [] => reverse stack
  | seg :: rest =>
      let isLast := match rest with [] => true | _ :: _ => false end in
      if bool_decide (seg = js "..") then
        if isLast then reverse ([] :: tail stack)
        else removeDotSegments (tail stack) rest
      else if bool_decide (seg = js ".") then
        if isLast then reverse ([] :: stack)
        else removeDotSegments stack rest
      else removeDotSegments (seg :: stack) rest
  end.

Fixpoint joinPath (segs : list jsstring) : jsstring :=
  match segs with
  | [] => []
  | seg :: rest => 0x2F :: seg ++ joinPath rest
  end.

(** The segments of a path that starts with a slash. *)
Definition segments (path : jsstring) : list jsstring :=
  tail (split 0x2F path).

Definition resolvePath (base ref : jsstring) : jsstring :=
  match ref with
  | [] => base
  | c :: ref' =>
      if bool_decide (c = 0x2F)
      then joinPath (removeDotSegments [] (split 0x2F ref'))
      else joinPath (removeDotSegments (reverse (removelast (segments base)))
                       (split 0x2F ref))
  end.

(** *** Counting in a run of events *)

Definition isLogOut (e : event) : bool :=
  match e with
  | LogOut => true
  | _ => false
  end.

Fixpoint logouts (es : list event) : nat :=
  match es with
  | [] => 0
  | e :: es' => ((if isLogOut e then 1 else 0) + logouts es')%nat
  end.

(** *** Vocabulary for the page set-up *)

(** What [highlight] does to one link. *)
Definition markIf (currentPage : jsstring) (l : NavLink) : NavLink :=
  match nav_href l with
  | Some h => if endsWith h currentPage then markCurrent l else l
  | None => l
  end.

(** The page the script compares the navigation links with. *)
Definition currentPageOf (p : Page) : jsstring :=
  orString (lastSegment (pathname (world p))) routes.home.

(** Is a user stored? *)
Definition stored (ls : gmap jsstring jsstring) : bool :=
  match ls !! auth.storageKey with
  | Some _ => true
  | None => false
  end.

(** The page after the login button has been set up, and after the guard
    has. *)
Definition buttonStage (ls : gmap jsstring jsstring) (p : Page) : Page :=
  match login_link p with
  | None => p
  | Some _ =>
      if stored ls
      then set_handlers (handlers p ++ [LogoutClick]) (set_login_link (Some (js "Logout")) p)
      else set_login_link (Some (js "Login")) p
  end.

Definition guardStage (p : Page) : Page :=
  if postAQuest p then set_handlers (handlers p ++ [GuardClick]) p else p.

(** A listener of a form or of a widget on it: what
    [setupPageSpecificFeatures] adds. *)
Definition isFeature (h : Handler) : bool :=
  match h with
  | LogoutClick | GuardClick => false
  | _ => true
  end.

(** Example pages with the shared navigation. *)
Definition examplePage (w : World) : Page :=
  {| world := w;
     navLinks := [ {| nav_href := Some (js "/index.html"); aria_current := None |};
                   {| nav_href := Some (js "/services.html"); aria_current := None |};
                   {| nav_href := Some (js "/pages/quests/questBoard.html");
                      aria_current := None |} ];
     login_link := Some (js "Login");
     postAQuest := true;
     loginForm := true; signupForm := false; questForm := false;
     adminLogout := false;
     handlers := [] |}.

Definition brokenNavPage (w : World) : Page :=
  {| world := w;
     navLinks := [ {| nav_href := Some (js "/index.html"); aria_current := None |};
                   {| nav_href := None; aria_current := None |} ];
     login_link := Some (js "Login");
     postAQuest := true;
     loginForm := true; signupForm := false; questForm := false;
     adminLogout := false;
     handlers := [] |}.

(** The listeners [setupPageSpecificFeatures] adds on a page, in order. *)
Definition features (p : Page) : list Handler :=
  (if loginForm p then [LoginSubmit] else [])
  ++ (if signupForm p then [SignupSubmit] else [])
  ++ (if questForm p then [QuestSubmit] else [])
  ++ (ToggleClick <$> setupPasswordToggles (world p))
  ++ (if adminLogout p then [AdminLogoutClick] else []).

(** The world after a sign-out, but for the destination. *)
Definition signedOut (ls ss : gmap jsstring jsstring) (w : World) : World :=
  set_sessionStorage (Some (delete auth.redirectKey ss))
    (set_localStorage (Some (delete auth.storageKey ls)) w).

(** How many messages of class [error] or [success] the document shows. *)
Definition shownCount (w : World) : nat :=
  List.length (filter (fun m => isMessage m = true) (messages w)).

(** A quest page with the whole profile menu, before the script runs. *)
Definition profileExample (w : World) (open : bool) : ProfilePage :=
  {| pp_world := w; profileBtn := true; profileMenu := true;
     accountBtn := true; settingsBtn := true; signoutBtn := true;
     itemsInMenu := true; menuOpen := open; profileHandlers := [] |}.

(** The same page without the menu element. *)
Definition profileWithoutMenu (w : World) : ProfilePage :=
  {| pp_world := w; profileBtn := true; profileMenu := false;
     accountBtn := true; settingsBtn := true; signoutBtn := true;
     itemsInMenu := false; menuOpen := false; profileHandlers := [] |}.

(** The elements and the message of each kind of setting. *)
Definition settingOf (type : jsstring) : option (jsstring * jsstring * jsstring) :=
  if bool_decide (type = js "password")
  then Some (js "new-password", js "password-notification",
             js "Password changed successfully!")
  else if bool_decide (type = js "email")
  then Some (js "new-email", js "email-notification", js "Email updated successfully!")
  else None.

(** The settings page after a setting has been applied. *)
Definition applied (inputId notifId message : jsstring) (c : Control)
    (s : SettingsPage) : SettingsPage :=
  {| fields := <[inputId := setValue [] c]> (fields s);
     notifications :=
       <[notifId := {| notif_textContent := message; notif_display := js "block" |}]>
         (notifications s) |}.

Definition settingsExample (password email : jsstring) : SettingsPage :=
  {| fields :=
       {[ js "new-password" := {| value := password; defaultValue := [];
                                  type := js "password" |};
          js "new-email" := {| value := email; defaultValue := [];
                               type := js "email" |} ]};
     notifications :=
       {[ js "password-notification" :=
            {| notif_textContent := []; notif_display := js "none" |};
          js "email-notification" :=
            {| notif_textContent := []; notif_display := js "none" |} ]} |}.

(** A path segment holds no slash. *)
Definition plain (seg : jsstring) : Prop := 0x2F ∉ seg.

(** The page the browser goes to: what was assigned to [location.href],
    resolved against the current page. *)
Definition destination (w : World) : option jsstring :=
  match href w with
  | Some ref => Some (resolvePath (pathname w) ref)
  | None => None
  end.

(** * Properties *)

(** ** The string functions on examples *)

Example trim_ex : trim (js "  admin ") = js "admin".
Proof. reflexivity. Qed.

Example lastSegment_ex :
  lastSegment (js "/pages/auth/login.html") = js "login.html".
Proof. reflexivity. Qed.

Example includes_ex :
  includes (js "/pages/auth/login.html") (js "/pages/auth/") = true.
Proof. reflexivity. Qed.

Example JSON_stringify_ex :
  JSON_stringify {| username := js "bob" |} =
  js "{" ++ [0x22] ++ js "username" ++ [0x22] ++ js ":" ++
  [0x22] ++ js "bob" ++ [0x22] ++ js "}".
Proof. reflexivity. Qed.

(** ** Running computations *)

Ltac run :=
  unfold exec, result, auth.redirectToQuestOnce, auth.isLoggedIn, auth.login,
    auth.logout, localStorage_getItem, localStorage_setItem,
    localStorage_removeItem, sessionStorage_getItem, sessionStorage_setItem,
    sessionStorage_removeItem, showMessage, clearMessages, value_of,
    setTimeout_navigate, form_reset, bind, ret, throw, gets, modify;
  simpl.

Lemma World_eta (w : World) :
  {| localStorage := localStorage w; sessionStorage := sessionStorage w;
     pathname := pathname w; returnParam := returnParam w; href := href w;
     inputs := inputs w; messages := messages w; checkmark := checkmark w;
     timers := timers w; toggles := toggles w |} = w.
Proof. by destruct w. Qed.

(** ** Strings *)

Lemma truthy_nonempty (s : jsstring) : truthy s = true <-> s ≠ [].
Proof. destruct s; simpl; split; congruence. Qed.

Lemma truthy_empty (s : jsstring) : truthy s = false <-> s = [].
Proof. destruct s; simpl; split; congruence. Qed.

Lemma trimStart_blank (s : jsstring) :
  Forall (fun c => isTrimmable c = true) s -> trimStart s = [].
Proof.
  induction 1 as [|c s Hc _ IH]; simpl; [done|]. by rewrite Hc.
Qed.

(** A string of white space and line terminators trims to nothing. *)
Lemma trim_blank (s : jsstring) :
  Forall (fun c => isTrimmable c = true) s -> trim s = [].
Proof.
  intros H. unfold trim, trimEnd. by rewrite (trimStart_blank s H).
Qed.

Lemma trim_empty : trim [] = [].
Proof. reflexivity. Qed.

(** ** The stored user record *)

Lemma unhexDigit_hexDigit (d : N) : d < 16 -> unhexDigit (hexDigit d) = d.
Proof.
  intros Hd. unfold hexDigit, unhexDigit.
  destruct (N.ltb_spec d 10).
  - destruct (N.ltb_spec (0x30 + d) 0x3A); lia.
  - destruct (N.ltb_spec (0x57 + d) 0x3A); lia.
Qed.

Lemma hex4 (c : N) :
  c < 65536 ->
  unhexDigit (hexDigit (c / 4096 mod 16)) * 4096
  + unhexDigit (hexDigit (c / 256 mod 16)) * 256
  + unhexDigit (hexDigit (c / 16 mod 16)) * 16
  + unhexDigit (hexDigit (c mod 16)) = c.
Proof.
  intros Hc.
  rewrite !unhexDigit_hexDigit by (apply N.mod_lt; lia).
  pose proof (N.div_mod c 16 ltac:(lia)) as H0.
  pose proof (N.div_mod (c / 16) 16 ltac:(lia)) as H1.
  pose proof (N.div_mod (c / 16 / 16) 16 ltac:(lia)) as H2.
  rewrite N.Div0.div_div in H1, H2. rewrite N.Div0.div_div in H2.
  change (16 * 16) with 256 in *. change (256 * 16) with 4096 in *.
  assert (H3 : c / 4096 < 16) by (apply N.Div0.div_lt_upper_bound; lia).
  rewrite (N.mod_small (c / 4096) 16 H3) in *.
  lia.
Qed.

Lemma unquote_quoteUnit (c : N) (rest : jsstring) :
  unquoteUnits (quoteUnit c ++ rest) = c :: unquoteUnits rest.
Proof.
  unfold quoteUnit.
  repeat match goal with
         | |- context [if ?c =? ?k then _ else _] =>
             destruct (N.eqb_spec c k) as [->|?]; [reflexivity|]
         end.
  destruct (_ || _ || _) eqn:Hesc.
  - assert (Hc : c < 65536).
    { unfold isLeadingSurrogate, isTrailingSurrogate in Hesc.
      apply orb_true_iff in Hesc as [Hesc|Hesc];
        [apply orb_true_iff in Hesc as [Hesc|Hesc]|].
      - apply N.ltb_lt in Hesc. lia.
      - apply andb_true_iff in Hesc as [_ Hesc]. apply N.leb_le in Hesc. lia.
      - apply andb_true_iff in Hesc as [_ Hesc]. apply N.leb_le in Hesc. lia. }
    unfold UnicodeEscape. cbn [app js fmap list_fmap list_ascii_of_string].
    change (unquoteUnits (?a :: ?b :: ?h3 :: ?h2 :: ?h1 :: ?h0 :: rest))
      with ((unhexDigit h3 * 4096 + unhexDigit h2 * 256
             + unhexDigit h1 * 16 + unhexDigit h0) :: unquoteUnits rest).
    by rewrite (hex4 c Hc).
  - cbn [app unquoteUnits].
    destruct (N.eqb_spec c 0x5C) as [->|_]; [done|reflexivity].
Qed.

Lemma quoteUnits_pair (c d : N) (s : jsstring) :
  quoteUnits (c :: d :: s) =
    if isLeadingSurrogate c && isTrailingSurrogate d
    then c :: d :: quoteUnits s
    else quoteUnit c ++ quoteUnits (d :: s).
Proof. reflexivity. Qed.

Lemma surrogate_not_backslash (c : N) :
  isLeadingSurrogate c || isTrailingSurrogate c = true -> (c =? 0x5C) = false.
Proof.
  unfold isLeadingSurrogate, isTrailingSurrogate. intros H.
  apply N.eqb_neq. intros ->. vm_compute in H. discriminate H.
Qed.

Lemma unquote_quoteUnits_bounded (n : nat) (s : jsstring) :
  (List.length s <= n)%nat -> unquoteUnits (quoteUnits s) = s.
Proof.
  revert s. induction n as [|n IH]; intros s Hn.
  { destruct s; [done|]. cbn in Hn. lia. }
  destruct s as [|c [|d s]]; [done| |].
  - change (quoteUnits [c]) with (quoteUnit c).
    rewrite <- (app_nil_r (quoteUnit c)). by rewrite unquote_quoteUnit.
  - rewrite quoteUnits_pair.
    destruct (isLeadingSurrogate c && isTrailingSurrogate d) eqn:Hpair.
    + apply andb_true_iff in Hpair as [Hc Hd].
      cbn [unquoteUnits].
      rewrite (surrogate_not_backslash c) by (by rewrite Hc).
      rewrite (surrogate_not_backslash d) by (by rewrite Hd, orb_true_r).
      rewrite IH; [done|]. cbn in Hn. lia.
    + rewrite unquote_quoteUnit, IH; [done|]. cbn in Hn |- *. lia.
Qed.

Lemma quoteUnits_inj (s1 s2 : jsstring) :
  quoteUnits s1 = quoteUnits s2 -> s1 = s2.
Proof.
  intros H.
  rewrite <- (unquote_quoteUnits_bounded (List.length s1) s1 (le_n _)).
  rewrite <- (unquote_quoteUnits_bounded (List.length s2) s2 (le_n _)).
  by rewrite H.
Qed.

(** The value stored by [login] determines the user: two records with the
    same [JSON.stringify] have the same username. *)
Theorem JSON_stringify_inj (u1 u2 : User) :
  JSON_stringify u1 = JSON_stringify u2 -> u1 = u2.
Proof.
  destruct u1 as [s1], u2 as [s2]. unfold JSON_stringify, QuoteJSONString.
  cbn [username]. intros H.
  do 3 apply app_inv_head in H. apply app_inv_tail in H.
  apply app_inv_head in H. apply app_inv_tail in H.
  f_equal. by apply quoteUnits_inj.
Qed.

Lemma JSON_stringify_inj_witness :
  {| username := js "bob" |} = {| username := js "bob" |}.
Proof. apply (JSON_stringify_inj _ _). reflexivity. Defined.

(** ** The session store *)

Section SessionStore.

Variable w : World.
Variables ls ss : gmap jsstring jsstring.
Hypothesis Hls : localStorage w = Some ls.
Hypothesis Hss : sessionStorage w = Some ss.

Lemma login_exec (u : User) :
  auth.login u w =
  (Return tt, set_localStorage (Some (<[auth.storageKey := JSON_stringify u]> ls)) w).
Proof. run. by rewrite Hls. Qed.

Lemma logout_exec :
  auth.logout w =
  (Return tt,
   set_sessionStorage (Some (delete auth.redirectKey ss))
     (set_localStorage (Some (delete auth.storageKey ls)) w)).
Proof. run. rewrite Hls. simpl. by rewrite Hss. Qed.

Lemma isLoggedIn_exec :
  auth.isLoggedIn w =
  (Return (match ls !! auth.storageKey with Some _ => true | None => false end), w).
Proof. run. by rewrite Hls. Qed.

Lemma redirectToQuestOnce_exec :
  auth.redirectToQuestOnce w =
  (Return tt,
   match ls !! auth.storageKey with
   | None => w
   | Some _ =>
       if bool_decide (ss !! auth.redirectKey = Some (js "1"))
          || bool_decide (lastSegment (pathname w) = js "questBoard.html")
          || bool_decide (lastSegment (pathname w) = js "admin.html")
       then w
       else set_href (Some (js "questBoard.html"))
              (set_sessionStorage (Some (<[auth.redirectKey := js "1"]> ss)) w)
   end).
Proof.
  run. rewrite Hls. simpl.
  destruct (ls !! auth.storageKey); simpl; [|done].
  rewrite Hss. simpl.
  destruct (_ || _ || _); simpl; [done|]. by rewrite Hss.
Qed.

End SessionStore.

(** C7, as stated, fails: with no user stored, so that no session exists,
    [logout()] is not a no-op when the tab still holds the redirect flag (the
    user logged out in another tab): it removes the flag. *)
Lemma logout_clears_stale_flag :
  result auth.isLoggedIn staleFlagWorld = Return false
  /\ sessionStorage staleFlagWorld = Some {[ auth.redirectKey := js "1" ]}
  /\ sessionStorage (exec auth.logout staleFlagWorld) = Some ∅
  /\ exec auth.logout staleFlagWorld ≠ staleFlagWorld.
Proof.
  split; [reflexivity|]. split; [reflexivity|]. split; [reflexivity|].
  intros H.
  apply (f_equal (fun w => sessionStorage w ≫= (.!! auth.redirectKey))) in H.
  discriminate H.
Qed.

(** C7, amended.  With storage available, in every state and for every user
    record [u]: [isLoggedIn()] returns true right after [login(u)] and false
    right after [logout()]; [logout()] removes the stored user and the
    redirect-once flag and touches nothing else; doing it twice is doing it
    once; and it changes nothing exactly when neither the user nor the flag
    is stored. *)
Theorem logout_login_isLoggedIn (w : World) (u : User)
    (ls ss : gmap jsstring jsstring) :
  localStorage w = Some ls ->
  sessionStorage w = Some ss ->
  result auth.isLoggedIn (exec (auth.login u) w) = Return true
  /\ result auth.isLoggedIn (exec auth.logout w) = Return false
  /\ auth.logout w =
       (Return tt,
        set_sessionStorage (Some (delete auth.redirectKey ss))
          (set_localStorage (Some (delete auth.storageKey ls)) w))
  /\ localStorage (exec auth.logout w) = Some (delete auth.storageKey ls)
  /\ sessionStorage (exec auth.logout w) = Some (delete auth.redirectKey ss)
  /\ exec auth.logout (exec auth.logout w) = exec auth.logout w
  /\ (exec auth.logout w = w
      <-> ls !! auth.storageKey = None /\ ss !! auth.redirectKey = None).
Proof.
  intros Hls Hss.
  pose proof (logout_exec w ls ss Hls Hss) as Hout.
  pose proof (login_exec w ls Hls u) as Hin.
  unfold exec, result. rewrite Hin, Hout. cbn [fst snd].
  split.
  { erewrite isLoggedIn_exec by reflexivity.
    cbn [fst]. by rewrite lookup_insert_eq. }
  split.
  { erewrite isLoggedIn_exec by reflexivity.
    cbn [fst]. by rewrite lookup_delete_eq. }
  split; [done|]. split; [done|]. split; [done|]. split.
  { erewrite logout_exec by reflexivity.
    cbn [snd]. unfold set_sessionStorage, set_localStorage. cbn.
    by rewrite !delete_delete_eq. }
  split.
  - intros H. split.
    + apply (f_equal localStorage) in H. cbn in H. rewrite Hls in H.
      injection H as H. rewrite <- H. apply lookup_delete_eq.
    + apply (f_equal sessionStorage) in H. cbn in H. rewrite Hss in H.
      injection H as H. rewrite <- H. apply lookup_delete_eq.
  - intros [Hl Hs]. unfold set_sessionStorage, set_localStorage. cbn.
    rewrite (delete_id _ _ Hl), (delete_id _ _ Hs), <- Hls, <- Hss.
    apply World_eta.
Qed.

Lemma logout_login_isLoggedIn_witness :
  result auth.isLoggedIn (exec (auth.login {| username := js "ann" |}) loggedInWorld)
    = Return true
  /\ result auth.isLoggedIn (exec auth.logout loggedInWorld) = Return false
  /\ localStorage (exec auth.logout loggedInWorld)
     = Some (delete auth.storageKey {[ auth.storageKey := user (js "bob") ]})
  /\ exec auth.logout (exec auth.logout loggedInWorld) = exec auth.logout loggedInWorld.
Proof.
  destruct (logout_login_isLoggedIn loggedInWorld {| username := js "ann" |}
              {[ auth.storageKey := user (js "bob") ]} ∅
              eq_refl eq_refl) as (H1 & H2 & _ & H4 & _ & H6 & _).
  split; [exact H1|]. split; [exact H2|]. split; [exact H4|exact H6].
Defined.

(** ** The one-time redirect *)

Lemma excluded_test (page : jsstring) :
  bool_decide (page = js "questBoard.html") || bool_decide (page = js "admin.html") = false
  <-> ~ excludedPage page.
Proof.
  unfold excludedPage. rewrite orb_false_iff, !bool_decide_eq_false. tauto.
Qed.

(** A load either leaves the world as it arrived, or sets the flag and
    assigns [questBoard.html]. *)
Lemma pageLoad_cases (path : jsstring) (w : World) :
  exec (pageLoad path) w = arrive path w
  \/ exists ss, sessionStorage w = Some ss
       /\ ss !! auth.redirectKey ≠ Some (js "1")
       /\ exec (pageLoad path) w =
            set_href (Some (js "questBoard.html"))
              (set_sessionStorage (Some (<[auth.redirectKey := js "1"]> ss))
                 (arrive path w)).
Proof.
  unfold pageLoad. run.
  destruct (localStorage w) as [ls|]; simpl; [|by left].
  destruct (ls !! auth.storageKey); simpl; [|by left].
  destruct (sessionStorage w) as [ss|] eqn:Hss; simpl; [|by left].
  destruct (bool_decide (ss !! auth.redirectKey = Some (js "1"))) eqn:Hflag;
    simpl; [by left|].
  destruct (_ || _); simpl; [by left|].
  right. exists ss. apply bool_decide_eq_false in Hflag. by rewrite Hss.
Qed.

Lemma pageLoad_flagged (path : jsstring) (w : World) :
  flagged w -> exec (pageLoad path) w = arrive path w.
Proof.
  intros (ss & Hss & Hflag).
  destruct (pageLoad_cases path w) as [H|(ss' & Hss' & Hne & _)]; [done|].
  congruence.
Qed.

Lemma redirected_flagged (e : event) (w : World) :
  redirected e w = true -> flagged (exec (step e) w).
Proof.
  destruct e as [path| |]; simpl; [|done..].
  intros H. apply bool_decide_eq_true in H.
  destruct (pageLoad_cases path w) as [Heq|(ss & Hss & _ & Heq)];
    rewrite Heq in *; [done|].
  eexists. split; [reflexivity|]. apply lookup_insert_eq.
Qed.

Lemma step_flagged (e : event) (w : World) :
  e ≠ LogOut -> flagged w -> flagged (exec (step e) w) /\ redirected e w = false.
Proof.
  intros He Hw. destruct e as [path|u|]; [| |done]; simpl.
  - rewrite (pageLoad_flagged path w Hw). split; [exact Hw|].
    by apply bool_decide_eq_false.
  - split; [|done]. destruct Hw as (ss & Hss & Hflag). run.
    destruct (localStorage w); simpl; by exists ss.
Qed.

Lemma redirects_flagged (es : list event) (w : World) :
  LogOut ∉ es -> flagged w -> redirects es w = 0%nat.
Proof.
  revert w. induction es as [|e es IH]; intros w Hes Hw; [done|].
  apply not_elem_of_cons in Hes as [He Hes].
  destruct (step_flagged e w) as [Hw' Hno]; [done..|].
  simpl. rewrite Hno. by rewrite (IH _ Hes Hw').
Qed.

Lemma redirects_le_1 (es : list event) (w : World) :
  LogOut ∉ es -> (redirects es w <= 1)%nat.
Proof.
  revert w. induction es as [|e es IH]; intros w Hes; simpl; [lia|].
  apply not_elem_of_cons in Hes as [He Hes].
  destruct (redirected e w) eqn:Hr.
  - rewrite (redirects_flagged es _ Hes (redirected_flagged e w Hr)). lia.
  - specialize (IH (exec (step e) w) Hes). lia.
Qed.

(** X30.  When the redirect fires.  With storage available,
    [redirectToQuestOnce] sets the session flag and assigns the relative
    reference [questBoard.html] to the location exactly when a user is
    stored, the flag is not yet ["1"] and the file name of the path is
    neither [questBoard.html] nor [admin.html]; in every other state it
    changes nothing.  Hence of two successive loads of pages with other file
    names in a logged-in session the first fires the redirect and the second
    does not, and over any run of page loads and logins without a logout the
    redirect fires at most once.  Where the reference leads is not part of
    this statement. *)
Theorem redirectToQuestOnce_once :
  (forall (w : World) (ls ss : gmap jsstring jsstring),
      localStorage w = Some ls -> sessionStorage w = Some ss ->
      (is_Some (ls !! auth.storageKey) ->
       ss !! auth.redirectKey ≠ Some (js "1") ->
       ~ excludedPage (lastSegment (pathname w)) ->
       auth.redirectToQuestOnce w =
         (Return tt,
          set_href (Some (js "questBoard.html"))
            (set_sessionStorage (Some (<[auth.redirectKey := js "1"]> ss)) w)))
      /\ (~ (is_Some (ls !! auth.storageKey)
             /\ ss !! auth.redirectKey ≠ Some (js "1")
             /\ ~ excludedPage (lastSegment (pathname w))) ->
          auth.redirectToQuestOnce w = (Return tt, w)))
  /\ (forall (w : World) (ls ss : gmap jsstring jsstring) (p1 p2 : jsstring),
         localStorage w = Some ls -> sessionStorage w = Some ss ->
         is_Some (ls !! auth.storageKey) ->
         ss !! auth.redirectKey ≠ Some (js "1") ->
         ~ excludedPage (lastSegment p1) -> ~ excludedPage (lastSegment p2) ->
         let w1 := exec (pageLoad p1) w in
         let w2 := exec (pageLoad p2) w1 in
         href w1 = Some (js "questBoard.html")
         /\ sessionStorage w1 = Some (<[auth.redirectKey := js "1"]> ss)
         /\ href w2 = None
         /\ sessionStorage w2 = sessionStorage w1
         /\ redirects [Visit p1; Visit p2] w = 1%nat)
  /\ (forall (es : list event) (w : World),
         LogOut ∉ es -> (redirects es w <= 1)%nat).
Proof.
  split; [|split].
  - intros w ls ss Hls Hss.
    rewrite (redirectToQuestOnce_exec w ls ss Hls Hss). split.
    + intros [u Hu] Hflag Hpage. rewrite Hu.
      apply (proj2 (bool_decide_eq_false _)) in Hflag.
      apply (proj2 (excluded_test _)) in Hpage.
      rewrite <- orb_assoc, Hflag, Hpage. done.
    + intros Hnot. destruct (ls !! auth.storageKey) as [u|]; [|done].
      destruct (_ || _ || _) eqn:Hc; [done|]. exfalso. apply Hnot.
      rewrite <- orb_assoc in Hc. apply orb_false_iff in Hc as [Hflag Hpage].
      apply bool_decide_eq_false in Hflag.
      apply (proj1 (excluded_test _)) in Hpage. eauto.
  - intros w ls ss p1 p2 Hls Hss [u Hu] Hflag Hp1 Hp2 w1 w2.
    assert (Hw1 : w1 = set_href (Some (js "questBoard.html"))
                    (set_sessionStorage (Some (<[auth.redirectKey := js "1"]> ss))
                       (arrive p1 w))).
    { subst w1. unfold pageLoad, exec, bind, modify. cbn [fst snd].
      rewrite (redirectToQuestOnce_exec (arrive p1 w) ls ss Hls Hss).
      cbn [snd pathname arrive]. rewrite Hu.
      apply (proj2 (bool_decide_eq_false _)) in Hflag.
      apply (proj2 (excluded_test _)) in Hp1.
      by rewrite <- orb_assoc, Hflag, Hp1. }
    assert (Hf1 : flagged w1).
    { rewrite Hw1. eexists. split; [reflexivity|]. apply lookup_insert_eq. }
    assert (Hw2 : w2 = arrive p2 w1) by (apply pageLoad_flagged, Hf1).
    assert (Hr1 : redirected (Visit p1) w = true).
    { apply bool_decide_eq_true.
      change (href w1 = Some (js "questBoard.html")). by rewrite Hw1. }
    assert (Hr2 : redirected (Visit p2) w1 = false).
    { apply bool_decide_eq_false.
      change (href w2 ≠ Some (js "questBoard.html")). by rewrite Hw2. }
    split; [by rewrite Hw1|]. split; [by rewrite Hw1|].
    split; [by rewrite Hw2|]. split; [by rewrite Hw2|].
    cbn [redirects]. change (exec (step (Visit p1)) w) with w1.
    by rewrite Hr1, Hr2.
  - apply redirects_le_1.
Qed.

Lemma redirectToQuestOnce_once_witness :
  let w1 := exec (pageLoad (js "/index.html")) loggedInWorld in
  let w2 := exec (pageLoad (js "/services.html")) w1 in
  href w1 = Some (js "questBoard.html")
  /\ sessionStorage w1 = Some (<[auth.redirectKey := js "1"]> ∅)
  /\ href w2 = None
  /\ sessionStorage w2 = sessionStorage w1
  /\ redirects [Visit (js "/index.html"); Visit (js "/services.html")] loggedInWorld = 1%nat.
Proof.
  destruct redirectToQuestOnce_once as (_ & H & _).
  apply (H loggedInWorld {[ auth.storageKey := user (js "bob") ]} ∅).
  - reflexivity.
  - reflexivity.
  - rewrite lookup_singleton_eq. by eexists.
  - by rewrite lookup_empty.
  - intros [E|E]; vm_compute in E; discriminate E.
  - intros [E|E]; vm_compute in E; discriminate E.
Defined.

(** C3, on the code.  The redirect does not lead to the quest board.  In a
    logged-in tab without the flag, the load of [/index.html] sets the flag
    and assigns the bare file name [questBoard.html], which the browser
    resolves beside the current page: to [/questBoard.html], not to
    [routes.questview], where the login listener sends the same user from
    the login page.  The flag being set, the next load does not redirect
    either.  And a page of the admin area whose file is not [admin.html],
    [/pages/admin/users.html], is redirected from, to
    [/pages/admin/questBoard.html]. *)
Theorem redirect_misses_quest_board :
  let w1 := exec (pageLoad (js "/index.html")) loggedInWorld in
  let w2 := exec (pageLoad (js "/pages/admin/users.html")) loggedInWorld in
  flagged w1
  /\ href w1 = Some (js "questBoard.html")
  /\ destination w1 = Some (js "/questBoard.html")
  /\ destination w1 ≠ Some routes.questview
  /\ destination (exec (pageLoad (js "/services.html")) w1) = None
  /\ flagged w2
  /\ destination w2 = Some (js "/pages/admin/questBoard.html")
  /\ destination (exec setupLoginForm (loginPage (js "bob") (js "pw") None))
     = Some routes.questview.
Proof.
  intros w1 w2.
  assert (Hflag : forall w : World,
             sessionStorage w = Some {[ auth.redirectKey := js "1" ]} -> flagged w).
  { intros w H. eexists. split; [exact H|]. apply lookup_singleton_eq. }
  split; [by apply Hflag|]. split; [reflexivity|]. split; [reflexivity|].
  split; [discriminate|]. split; [reflexivity|].
  split; [by apply Hflag|]. split; reflexivity.
Qed.

(** ** Storage the browser refuses *)

(** C4, as stated, fails: with storage refused, [isLoggedIn()] does not
    answer "no" but throws, and so do the other three operations. *)
Lemma unavailable_storage_throws :
  result auth.isLoggedIn noStorage = Throw SecurityError
  /\ result (auth.login {| username := js "bob" |}) noStorage = Throw SecurityError
  /\ result auth.logout noStorage = Throw SecurityError
  /\ result auth.redirectToQuestOnce noStorage = Throw SecurityError
  /\ result auth.isLoggedIn noStorage ≠ Return false.
Proof. repeat split; try reflexivity. discriminate. Qed.

(** C4, amended.  While the browser refuses access to local storage, each of
    [login], [logout], [isLoggedIn] and [redirectToQuestOnce] throws the
    storage error at its first access: none catches it, none answers "not
    logged in", and none writes anything or navigates. *)
Theorem unavailable_storage_propagates (w : World) (u : User) :
  localStorage w = None ->
  auth.login u w = (Throw SecurityError, w)
  /\ auth.logout w = (Throw SecurityError, w)
  /\ auth.isLoggedIn w = (Throw SecurityError, w)
  /\ auth.redirectToQuestOnce w = (Throw SecurityError, w).
Proof. intros H. run. by rewrite H. Qed.

Lemma unavailable_storage_propagates_witness :
  auth.login {| username := js "bob" |} noStorage = (Throw SecurityError, noStorage)
  /\ auth.logout noStorage = (Throw SecurityError, noStorage)
  /\ auth.isLoggedIn noStorage = (Throw SecurityError, noStorage)
  /\ auth.redirectToQuestOnce noStorage = (Throw SecurityError, noStorage).
Proof. apply (unavailable_storage_propagates noStorage); reflexivity. Defined.

(** ** The login form *)

Section Login.

Variable w : World.
Variables cu cp : Control.
Hypothesis Hu : inputs w !! js "username" = Some cu.
Hypothesis Hp : inputs w !! js "password" = Some cp.

Let username := trim (value cu).
Let password := value cp.

(** The rejection: nothing but the message changes. *)
Lemma login_rejected :
  username = [] \/ password = [] ->
  setupLoginForm w =
  (Return tt,
   set_messages
     (cleared w ++ [newMessage (js "Please enter both username and password.") (js "error")])
     w).
Proof.
  intros Hempty. unfold setupLoginForm. run. rewrite Hu. simpl. rewrite Hp. simpl.
  fold username password.
  destruct Hempty as [-> | ->]; [done|]. by rewrite orb_true_r.
Qed.

Variable ls : gmap jsstring jsstring.
Hypothesis Hls : localStorage w = Some ls.

Lemma login_admin :
  username = js "admin" -> password = js "admin123" ->
  setupLoginForm w =
  (Return tt,
   set_href (Some (adminPath (pathname w)))
     (set_localStorage (Some (<[auth.storageKey := user (js "admin")]> ls))
        (set_messages
           (cleared w ++ [newMessage (js "Admin login successful! Redirecting...") (js "success")])
           w))).
Proof.
  intros Hname Hpass. unfold setupLoginForm. run. rewrite Hu. simpl. rewrite Hp. simpl.
  fold username password. rewrite Hname, Hpass. simpl. by rewrite Hls.
Qed.

Lemma login_accepted :
  username ≠ [] -> password ≠ [] -> isAdmin username password = false ->
  setupLoginForm w =
  (Return tt,
   set_href (Some (orElse (returnParam w) (questBoardPath (pathname w))))
     (set_localStorage (Some (<[auth.storageKey := user username]> ls))
        (set_messages (cleared w) w))).
Proof.
  intros Hname Hpass Hadmin. unfold setupLoginForm. run.
  rewrite Hu. simpl. rewrite Hp. simpl. fold username password.
  apply truthy_nonempty in Hname, Hpass. rewrite Hname, Hpass. simpl.
  unfold isAdmin in Hadmin. rewrite Hadmin. simpl. by rewrite Hls.
Qed.

End Login.

Lemma loginPage_username (u p : jsstring) (r : option jsstring) :
  inputs (loginPage u p r) !! js "username"
  = Some {| value := u; defaultValue := []; type := js "text" |}.
Proof. unfold loginPage; simpl. by rewrite lookup_insert_eq. Qed.

Lemma loginPage_password (u p : jsstring) (r : option jsstring) :
  inputs (loginPage u p r) !! js "password"
  = Some {| value := p; defaultValue := []; type := js "password" |}.
Proof.
  unfold loginPage; simpl. rewrite lookup_insert_ne by (vm_compute; discriminate).
  by rewrite lookup_singleton_eq.
Qed.




(** C2.  With storage available, a submission whose (trimmed) username is
    [admin] and whose password is [admin123] shows the success message,
    stores the session and navigates to the admin page; the destination is
    the same whatever the [return] parameter holds. *)
Theorem login_admin_destination (w : World) (cu cp : Control)
    (ls : gmap jsstring jsstring) :
  inputs w !! js "username" = Some cu ->
  inputs w !! js "password" = Some cp ->
  localStorage w = Some ls ->
  trim (value cu) = js "admin" ->
  value cp = js "admin123" ->
  let w' := exec setupLoginForm w in
  result setupLoginForm w = Return tt
  /\ localStorage w' = Some (<[auth.storageKey := user (js "admin")]> ls)
  /\ result auth.isLoggedIn w' = Return true
  /\ messages w' =
       cleared w ++ [newMessage (js "Admin login successful! Redirecting...") (js "success")]
  /\ href w' = Some (adminPath (pathname w))
  /\ lastSegment (adminPath (pathname w)) = js "admin.html"
  /\ (forall r : option jsstring,
         href (exec setupLoginForm (set_returnParam r w)) = Some (adminPath (pathname w))).
Proof.
  intros Hu Hp Hls Hname Hpass w'. subst w'. unfold exec, result.
  rewrite (login_admin w cu cp Hu Hp ls Hls Hname Hpass). cbn [fst snd].
  split; [done|]. split; [done|]. split.
  { erewrite isLoggedIn_exec by reflexivity. cbn [fst]. by rewrite lookup_insert_eq. }
  split; [done|]. split; [done|]. split.
  { unfold adminPath. by destruct (includes _ _). }
  intros r.
  by rewrite (login_admin (set_returnParam r w) cu cp Hu Hp ls Hls Hname Hpass).
Qed.

Lemma login_admin_destination_witness :
  let w := loginPage (js "admin") (js "admin123")
             (Some (js "/pages/questgiver/postquest.html")) in
  localStorage (exec setupLoginForm w)
    = Some (<[auth.storageKey := user (js "admin")]> ∅)
  /\ href (exec setupLoginForm w) = Some (js "../../admin/admin.html").
Proof.
  intros w.
  destruct (login_admin_destination w _ _ ∅ (loginPage_username _ _ _)
              (loginPage_password _ _ _) eq_refl eq_refl eq_refl)
    as (_ & H2 & _ & _ & H5 & _).
  split; [exact H2 | exact H5].
Defined.

Lemma cleared_no_message (w : World) (m : Message) :
  m ∈ cleared w -> isMessage m = false.
Proof. unfold cleared. rewrite list_elem_of_filter. tauto. Qed.

Lemma hasClass_error (m : Message) :
  msg_className m = js "error" -> hasClass (js "error") m = true.
Proof. intros E. unfold hasClass. by rewrite E. Qed.

Lemma hasClass_success (m : Message) :
  msg_className m = js "success" -> hasClass (js "success") m = true.
Proof. intros E. unfold hasClass. by rewrite E. Qed.

Lemma cleared_no_error (w : World) (m : Message) :
  m ∈ cleared w -> msg_className m ≠ js "error".
Proof.
  intros H%cleared_no_message E. unfold isMessage in H.
  apply orb_false_iff in H as [H _]. by rewrite (hasClass_error m E) in H.
Qed.

Lemma login_reject_effects (w : World) (cu cp : Control) :
  inputs w !! js "username" = Some cu ->
  inputs w !! js "password" = Some cp ->
  trim (value cu) = [] \/ value cp = [] ->
  errorShown (exec setupLoginForm w)
  /\ localStorage (exec setupLoginForm w) = localStorage w
  /\ sessionStorage (exec setupLoginForm w) = sessionStorage w
  /\ href (exec setupLoginForm w) = href w.
Proof.
  intros Hu Hp Hempty. unfold exec.
  rewrite (login_rejected w cu cp Hu Hp Hempty). cbn [snd].
  split; [|done].
  exists (newMessage (js "Please enter both username and password.") (js "error")).
  split; [|reflexivity]. cbn. apply elem_of_app. right. by left.
Qed.

Lemma login_accept_effects (w : World) (cu cp : Control)
    (ls : gmap jsstring jsstring) :
  inputs w !! js "username" = Some cu ->
  inputs w !! js "password" = Some cp ->
  localStorage w = Some ls ->
  trim (value cu) ≠ [] -> value cp ≠ [] ->
  result setupLoginForm w = Return tt
  /\ ~ errorShown (exec setupLoginForm w)
  /\ result auth.isLoggedIn (exec setupLoginForm w) = Return true
  /\ is_Some (href (exec setupLoginForm w)).
Proof.
  intros Hu Hp Hls Hname Hpass. unfold exec, result.
  destruct (isAdmin (trim (value cu)) (value cp)) eqn:Hadmin.
  - unfold isAdmin in Hadmin. apply andb_true_iff in Hadmin as [E1 E2].
    apply bool_decide_eq_true in E1, E2.
    rewrite (login_admin w cu cp Hu Hp ls Hls E1 E2). cbn [fst snd].
    split; [done|]. split.
    { intros (m & Hm & Hc). cbn in Hm. apply elem_of_app in Hm as [Hm|Hm].
      - by apply (cleared_no_error w m).
      - apply list_elem_of_singleton in Hm. subst m. vm_compute in Hc. discriminate Hc. }
    split; [|by eexists].
    erewrite isLoggedIn_exec by reflexivity. cbn [fst]. by rewrite lookup_insert_eq.
  - rewrite (login_accepted w cu cp Hu Hp ls Hls Hname Hpass Hadmin). cbn [fst snd].
    split; [done|]. split.
    { intros (m & Hm & Hc). cbn in Hm. by apply (cleared_no_error w m). }
    split; [|by eexists].
    erewrite isLoggedIn_exec by reflexivity. cbn [fst]. by rewrite lookup_insert_eq.
Qed.

(** C6.  A submission whose username (after trimming) or password is empty
    shows the error message and stops: the handler returns normally and the
    world differs from the one before only in its messages, so neither
    store is written and no navigation is requested.  Emptiness is the only
    ground for rejection: with storage available, any other submission
    stores a session, requests a navigation and shows no error. *)
Theorem login_rejects_only_empty (w : World) (cu cp : Control) :
  inputs w !! js "username" = Some cu ->
  inputs w !! js "password" = Some cp ->
  (trim (value cu) = [] \/ value cp = [] ->
   setupLoginForm w =
     (Return tt,
      set_messages
        (cleared w ++ [newMessage (js "Please enter both username and password.") (js "error")])
        w)
   /\ errorShown (exec setupLoginForm w)
   /\ localStorage (exec setupLoginForm w) = localStorage w
   /\ sessionStorage (exec setupLoginForm w) = sessionStorage w
   /\ href (exec setupLoginForm w) = href w)
  /\ (value cu = [] -> trim (value cu) = [])
  /\ (forall ls : gmap jsstring jsstring,
         localStorage w = Some ls ->
         trim (value cu) ≠ [] -> value cp ≠ [] ->
         result setupLoginForm w = Return tt
         /\ ~ errorShown (exec setupLoginForm w)
         /\ result auth.isLoggedIn (exec setupLoginForm w) = Return true
         /\ is_Some (href (exec setupLoginForm w))).
Proof.
  intros Hu Hp. split; [|split].
  - intros Hempty. split; [by apply (login_rejected w cu cp)|].
    by apply (login_reject_effects w cu cp).
  - by intros ->.
  - intros ls. by apply (login_accept_effects w cu cp).
Qed.

Lemma login_rejects_only_empty_witness :
  let w := loginPage (js "bob") [] None in
  errorShown (exec setupLoginForm w)
  /\ localStorage (exec setupLoginForm w) = localStorage w
  /\ sessionStorage (exec setupLoginForm w) = sessionStorage w
  /\ href (exec setupLoginForm w) = href w.
Proof.
  intros w.
  destruct (login_rejects_only_empty w _ _ (loginPage_username _ _ _)
              (loginPage_password _ _ _)) as (H & _).
  destruct H as (_ & H); [by right | exact H].
Defined.

(** C10.  The handler trims the username and leaves the password as typed:
    a username of white space only is rejected as empty; on success the
    name stored is the trimmed one; a password of white space only counts as
    filled in, and the login goes through. *)
Theorem login_trims_username_only (w : World) (cu cp : Control)
    (ls : gmap jsstring jsstring) :
  inputs w !! js "username" = Some cu ->
  inputs w !! js "password" = Some cp ->
  localStorage w = Some ls ->
  (Forall (fun c => isTrimmable c = true) (value cu) ->
   errorShown (exec setupLoginForm w)
   /\ localStorage (exec setupLoginForm w) = localStorage w
   /\ href (exec setupLoginForm w) = href w)
  /\ (trim (value cu) ≠ [] -> value cp ≠ [] ->
      localStorage (exec setupLoginForm w)
      = Some (<[auth.storageKey := user (trim (value cu))]> ls))
  /\ (trim (value cu) ≠ [] -> value cp ≠ [] ->
      Forall (fun c => isTrimmable c = true) (value cp) ->
      ~ errorShown (exec setupLoginForm w)
      /\ result auth.isLoggedIn (exec setupLoginForm w) = Return true
      /\ href (exec setupLoginForm w)
         = Some (orElse (returnParam w) (questBoardPath (pathname w)))).
Proof.
  intros Hu Hp Hls.
  split; [|split].
  - intros Hblank.
    destruct (login_reject_effects w cu cp Hu Hp) as (H1 & H2 & _ & H3); [|done].
    left. by apply trim_blank.
  - intros Hname Hpass. unfold exec.
    destruct (isAdmin (trim (value cu)) (value cp)) eqn:Hadmin.
    + unfold isAdmin in Hadmin. apply andb_true_iff in Hadmin as [E1 E2].
      apply bool_decide_eq_true in E1, E2.
      rewrite (login_admin w cu cp Hu Hp ls Hls E1 E2). cbn [snd]. by rewrite E1.
    + by rewrite (login_accepted w cu cp Hu Hp ls Hls Hname Hpass Hadmin).
  - intros Hname Hpass Hblank.
    destruct (login_accept_effects w cu cp ls Hu Hp Hls Hname Hpass) as (_ & H1 & H2 & _).
    split; [done|]. split; [done|].
    assert (Hadmin : isAdmin (trim (value cu)) (value cp) = false).
    { unfold isAdmin. apply andb_false_iff. right. apply bool_decide_eq_false.
      intros E. rewrite E in Hblank. apply Forall_cons in Hblank as [Hc _].
      vm_compute in Hc. discriminate Hc. }
    unfold exec.
    by rewrite (login_accepted w cu cp Hu Hp ls Hls Hname Hpass Hadmin).
Qed.

Lemma login_trims_username_only_witness :
  let w := loginPage (js "  bob ") (js "   ") None in
  localStorage (exec setupLoginForm w)
    = Some (<[auth.storageKey := user (js "bob")]> ∅)
  /\ result auth.isLoggedIn (exec setupLoginForm w) = Return true
  /\ href (exec setupLoginForm w) = Some (js "../quests/questBoard.html").
Proof.
  intros w.
  destruct (login_trims_username_only w _ _ ∅ (loginPage_username _ _ _)
              (loginPage_password _ _ _) eq_refl) as (_ & H2 & H3).
  assert (Hname : trim (js "  bob ") ≠ []) by (vm_compute; discriminate).
  assert (Hpass : js "   " ≠ []) by (vm_compute; discriminate).
  split; [exact (H2 Hname Hpass)|].
  destruct (H3 Hname Hpass) as (_ & H4 & H5).
  - repeat constructor.
  - split; [exact H4 | exact H5].
Defined.

(** ** The signup form *)

Section Signup.

Variable w : World.
Variables cn ce cp cc : Control.
Hypothesis Hn : inputs w !! js "fullname" = Some cn.
Hypothesis He : inputs w !! js "email" = Some ce.
Hypothesis Hp : inputs w !! js "password" = Some cp.
Hypothesis Hc : inputs w !! js "confirm-password" = Some cc.

(** The handler, with the four reads done. *)
Lemma signup_exec :
  setupSignupForm w =
  (Return tt,
   if negb (truthy (trim (value cn))) || negb (truthy (trim (value ce)))
      || negb (truthy (value cp))
   then set_messages (cleared w ++ [newMessage (js "All fields are required.") (js "error")]) w
   else if (List.length (value cp) <? 6)%nat
   then set_messages
          (cleared w ++ [newMessage (js "Password must be at least 6 characters.") (js "error")]) w
   else if negb (bool_decide (value cp = value cc))
   then set_messages (cleared w ++ [newMessage (js "Passwords do not match.") (js "error")]) w
   else set_timers (timers w ++ [(1000, js "login.html")])
          (set_messages
             (cleared w ++ [newMessage (js "Account created! Redirecting to login...") (js "success")])
             w)).
Proof.
  unfold setupSignupForm. run.
  rewrite Hn. simpl. rewrite He. simpl. rewrite Hp. simpl. rewrite Hc. simpl.
  destruct (_ || _ || _); [done|].
  destruct (_ <? _)%nat; [done|].
  by destruct (negb _).
Qed.

End Signup.

Lemma long_truthy (s : jsstring) : (6 <= List.length s)%nat -> truthy s = true.
Proof. destruct s; simpl; [lia|done]. Qed.

(** C5.  The signup handler checks, in this order and stopping at the first
    failure: some of name, email (both trimmed) and password empty; the
    password shorter than 6 code units; the password different from its
    confirmation.  Each failure shows its own single message, whatever the
    later checks would say.  So a password of length 5 gets the length
    error, one of length 6 does not, and a confirmation that differs is
    refused even when the three fields pass the other checks.  When all
    three checks pass, the success message is shown and the navigation to
    the login page is scheduled. *)
Theorem signup_validation_order (w : World) (cn ce cp cc : Control) :
  inputs w !! js "fullname" = Some cn ->
  inputs w !! js "email" = Some ce ->
  inputs w !! js "password" = Some cp ->
  inputs w !! js "confirm-password" = Some cc ->
  let name := trim (value cn) in
  let email := trim (value ce) in
  let password := value cp in
  let confirmPassword := value cc in
  let w' := exec setupSignupForm w in
  result setupSignupForm w = Return tt
  /\ (name = [] \/ email = [] \/ password = [] ->
      shows (js "All fields are required.") (js "error") w w')
  /\ (name ≠ [] -> email ≠ [] -> password ≠ [] ->
      (List.length password < 6)%nat ->
      shows (js "Password must be at least 6 characters.") (js "error") w w')
  /\ (name ≠ [] -> email ≠ [] -> (6 <= List.length password)%nat ->
      password ≠ confirmPassword ->
      shows (js "Passwords do not match.") (js "error") w w')
  /\ (name ≠ [] -> email ≠ [] -> (6 <= List.length password)%nat ->
      password = confirmPassword ->
      w' = set_timers (timers w ++ [(1000, js "login.html")])
             (set_messages
                (cleared w ++ [newMessage (js "Account created! Redirecting to login...") (js "success")])
                w))
  /\ (name ≠ [] -> email ≠ [] -> List.length password = 5%nat ->
      shows (js "Password must be at least 6 characters.") (js "error") w w')
  /\ (name ≠ [] -> email ≠ [] -> List.length password = 6%nat ->
      ~ shows (js "Password must be at least 6 characters.") (js "error") w w').
Proof.
  intros Hn He Hp Hc name email password confirmPassword w'.
  subst w'. unfold exec, result, shows.
  rewrite (signup_exec w cn ce cp cc Hn He Hp Hc). cbn [fst snd].
  fold name email password confirmPassword.
  assert (Hshort : forall P : World -> Prop,
             name ≠ [] -> email ≠ [] -> password ≠ [] ->
             (List.length password < 6)%nat ->
             P (set_messages
                  (cleared w ++ [newMessage (js "Password must be at least 6 characters.") (js "error")]) w) ->
             P (if negb (truthy name) || negb (truthy email) || negb (truthy password)
                then set_messages (cleared w ++ [newMessage (js "All fields are required.") (js "error")]) w
                else if (List.length password <? 6)%nat
                then set_messages
                       (cleared w ++ [newMessage (js "Password must be at least 6 characters.") (js "error")]) w
                else if negb (bool_decide (password = confirmPassword))
                then set_messages (cleared w ++ [newMessage (js "Passwords do not match.") (js "error")]) w
                else set_timers (timers w ++ [(1000, js "login.html")])
                       (set_messages
                          (cleared w ++ [newMessage (js "Account created! Redirecting to login...") (js "success")])
                          w))).
  { intros P H1%truthy_nonempty H2%truthy_nonempty H3%truthy_nonempty H4%Nat.ltb_lt.
    by rewrite H1, H2, H3, H4. }
  split; [done|]. split.
  { intros [-> | [-> | ->]]; simpl; [done| |];
      rewrite ?orb_true_r; done. }
  split.
  { intros H1 H2 H3 H4. by apply Hshort. }
  split.
  { intros H1%truthy_nonempty H2%truthy_nonempty H3 H4.
    rewrite H1, H2, (long_truthy _ H3). simpl.
    apply Nat.ltb_ge in H3. rewrite H3.
    by rewrite (bool_decide_eq_false_2 _ H4). }
  split.
  { intros H1%truthy_nonempty H2%truthy_nonempty H3 H4.
    rewrite H1, H2, (long_truthy _ H3). simpl.
    apply Nat.ltb_ge in H3. rewrite H3.
    by rewrite (bool_decide_eq_true_2 _ H4). }
  split.
  { intros H1 H2 H3. apply Hshort; [done..| |lia|done].
    intros E. by rewrite E in H3. }
  intros H1%truthy_nonempty H2%truthy_nonempty H3.
  assert (H6 : (6 <= List.length password)%nat) by lia.
  rewrite H1, H2, (long_truthy _ H6). simpl.
  apply Nat.ltb_ge in H6. rewrite H6.
  destruct (bool_decide (password = confirmPassword)); cbn [negb];
    intros E; apply (f_equal messages) in E;
    cbn [messages set_messages set_timers] in E;
    apply app_inv_head in E; vm_compute in E; discriminate E.
Qed.

Lemma signup_validation_order_witness :
  let w := signupPage (js "Ann") (js "ann@example.org") (js "123456") (js "654321") in
  shows (js "Passwords do not match.") (js "error") w (exec setupSignupForm w)
  /\ ~ shows (js "Password must be at least 6 characters.") (js "error") w
         (exec setupSignupForm w).
Proof.
  intros w.
  destruct (signup_validation_order w _ _ _ _ eq_refl eq_refl eq_refl eq_refl)
    as (_ & _ & _ & H3 & _ & _ & H6).
  split.
  - apply H3; [vm_compute; discriminate..|vm_compute; lia|vm_compute; discriminate].
  - apply H6; [vm_compute; discriminate..|reflexivity].
Defined.

(** ** The quest form *)

Lemma head_child_restyled (d : jsstring) (ms tl : list Message) (c : Checkmark) :
  head (omap msg_child ms) = Some c ->
  head (omap msg_child
          (((fun m => withChild ((fun _ => {| display := d |}) <$> msg_child m) m) <$> ms) ++ tl))
  = Some {| display := d |}.
Proof.
  induction ms as [|m ms IH]; [done|].
  intros H. rewrite fmap_cons. cbn in H |- *.
  destruct (msg_child m) eqn:E; cbn in H |- *; [done|]. by apply IH.
Qed.

Lemma getCheckmark_restyled (d : jsstring) (w : World) (m : Message) (c : Checkmark) :
  getCheckmark w = Some c ->
  getCheckmark (set_messages (messages (setCheckmarkDisplay d w) ++ [m])
                  (setCheckmarkDisplay d w))
  = Some {| display := d |}.
Proof.
  unfold getCheckmark, setCheckmarkDisplay. cbn [checkmark messages set_messages set_checkmark].
  destruct (checkmark w); [done|]. cbn [fmap option_fmap option_map].
  apply head_child_restyled.
Qed.

Lemma insertIntoSuccess_last (c : Checkmark) (ms : list Message) (m : Message) :
  (forall m', m' ∈ ms -> hasClass (js "success") m' = false) ->
  hasClass (js "success") m = true ->
  insertIntoSuccess c (ms ++ [m]) = ms ++ [withChild (Some c) m].
Proof.
  intros Hms Hm. induction ms as [|m0 ms IH]; cbn [app insertIntoSuccess].
  - by rewrite Hm.
  - rewrite (Hms m0) by (by left).
    f_equal. apply IH. intros m' Hm'. apply Hms. by right.
Qed.

Lemma cleared_no_success (w : World) (m : Message) :
  m ∈ cleared w -> hasClass (js "success") m = false.
Proof.
  intros H%cleared_no_message. unfold isMessage in H.
  by apply orb_false_iff in H as [_ H].
Qed.

Section Quest.

Variable w : World.
Variables ct cb cd : Control.
Hypothesis Ht : inputs w !! js "questTitle" = Some ct.
Hypothesis Hb : inputs w !! js "questBudget" = Some cb.
Hypothesis Hd : inputs w !! js "questDesc" = Some cd.

Let title := trim (value ct).
Let budget := trim (value cb).
Let description := trim (value cd).

Lemma quest_exec :
  setupQuestForm w =
  (Return tt,
   if negb (truthy title) || negb (truthy budget) || negb (truthy description)
   then set_messages (cleared w ++ [newMessage (js "Please complete all fields.") (js "error")]) w
   else match getCheckmark (questReset w) with
        | Some _ =>
            let w1 := setCheckmarkDisplay (js "inline-block") (questReset w) in
            prependCheckmark (set_messages (messages w1 ++ [questSuccess]) w1)
        | None => set_messages (cleared w ++ [questSuccess]) (questReset w)
        end).
Proof.
  unfold setupQuestForm. run.
  rewrite Ht. simpl. rewrite Hb. simpl. rewrite Hd. simpl.
  fold title budget description.
  destruct (_ || _ || _); [done|]. simpl.
  fold (cleared w). fold (questReset w).
  by destruct (getCheckmark (questReset w)).
Qed.

(** A blank field: one error, and no control is touched. *)
Lemma quest_blank :
  title = [] \/ budget = [] \/ description = [] ->
  setupQuestForm w =
    (Return tt,
     set_messages (cleared w ++ [newMessage (js "Please complete all fields.") (js "error")]) w)
  /\ inputs (exec setupQuestForm w) = inputs w.
Proof.
  intros Hblank. unfold exec. rewrite quest_exec.
  assert (negb (truthy title) || negb (truthy budget) || negb (truthy description) = true)
    as ->; [|done].
  destruct Hblank as [-> | [-> | ->]]; simpl; rewrite ?orb_true_r; done.
Qed.

(** All three filled in: every control is back at its default, a message
    of class [success] is the last one shown, and neither store is
    written. *)
Lemma quest_filled :
  title ≠ [] -> budget ≠ [] -> description ≠ [] ->
  result setupQuestForm w = Return tt
  /\ inputs (exec setupQuestForm w) = resetControl <$> inputs w
  /\ (forall id c, inputs (exec setupQuestForm w) !! id = Some c ->
      value c = defaultValue c)
  /\ (exists ch, last (messages (exec setupQuestForm w)) = Some (withChild ch questSuccess))
  /\ localStorage (exec setupQuestForm w) = localStorage w
  /\ sessionStorage (exec setupQuestForm w) = sessionStorage w.
Proof.
  intros H1%truthy_nonempty H2%truthy_nonempty H3%truthy_nonempty.
  unfold exec, result. rewrite quest_exec. rewrite H1, H2, H3. cbn [fst snd negb orb].
  split; [done|].
  assert (Hreset : forall (m : gmap jsstring Control) id c,
             (resetControl <$> m) !! id = Some c -> value c = defaultValue c).
  { intros m id c. rewrite lookup_fmap. destruct (m !! id); [|done].
    cbn. by intros [= <-]. }
  destruct (getCheckmark (questReset w)) as [c|] eqn:Hcm.
  - cbv zeta.
    set (w1 := setCheckmarkDisplay (js "inline-block") (questReset w)).
    set (w2 := set_messages (messages w1 ++ [questSuccess]) w1).
    assert (Hc2 : getCheckmark w2 = Some {| display := js "inline-block" |})
      by apply (getCheckmark_restyled _ _ _ _ Hcm).
    assert (Hex : existsb (hasClass (js "success")) (messages w2) = true).
    { subst w2. cbn [messages set_messages]. rewrite existsb_app.
      cbn. by rewrite orb_true_r. }
    unfold prependCheckmark. rewrite Hc2, Hex.
    split; [done|]. split; [apply Hreset|]. split; [|done].
    subst w2 w1. unfold setCheckmarkDisplay, questReset.
    cbn [messages set_messages set_checkmark set_inputs].
    rewrite fmap_app, fmap_cons, fmap_nil.
    rewrite insertIntoSuccess_last.
    + rewrite last_snoc. by eexists.
    + intros m Hm. apply list_elem_of_fmap in Hm as (m1 & -> & Hm1).
      apply list_elem_of_fmap in Hm1 as (m2 & -> & Hm2).
      unfold hasClass. cbn [withChild msg_className]. by apply (cleared_no_success w).
    + reflexivity.
  - split; [done|]. split; [apply Hreset|]. split; [|done].
    cbn. rewrite last_snoc. by exists None.
Qed.

End Quest.

Lemma quest_blank_witness :
  let w := questPage (js "Mow the lawn") (js "  ") (js "Front and back") None in
  inputs (exec setupQuestForm w) = inputs w.
Proof.
  intros w.
  apply (quest_blank w _ _ _ eq_refl eq_refl eq_refl).
  right; left. reflexivity.
Defined.

Lemma quest_filled_witness :
  let w := questPage (js "Mow the lawn") (js "20") (js "Front and back") None in
  inputs (exec setupQuestForm w) = resetControl <$> inputs w
  /\ localStorage (exec setupQuestForm w) = localStorage w.
Proof.
  intros w.
  destruct (quest_filled w _ _ _ eq_refl eq_refl eq_refl) as (_ & H & _ & _ & H' & _);
    [vm_compute; discriminate..|].
  split; [exact H | exact H'].
Defined.

Lemma cleared_after_success (w : World) :
  filter (fun m => isMessage m = false) (cleared w ++ [questSuccess]) = cleared w.
Proof.
  rewrite filter_app. unfold cleared at 1. rewrite list_filter_filter_l by tauto.
  fold (cleared w). rewrite filter_cons_False by (vm_compute; discriminate).
  by rewrite filter_nil, app_nil_r.
Qed.

(** On a page without the checkmark element, posting the same quest again
    ends exactly as the first time. *)
Lemma quest_resubmission_plain (w : World) (ct cb cd : Control) :
  inputs w !! js "questTitle" = Some ct ->
  inputs w !! js "questBudget" = Some cb ->
  inputs w !! js "questDesc" = Some cd ->
  trim (value ct) ≠ [] -> trim (value cb) ≠ [] -> trim (value cd) ≠ [] ->
  getCheckmark (questReset w) = None ->
  exec setupQuestForm (refill w (exec setupQuestForm w)) = exec setupQuestForm w.
Proof.
  intros Ht Hb Hd H1%truthy_nonempty H2%truthy_nonempty H3%truthy_nonempty Hcm.
  assert (Hw1 : exec setupQuestForm w = set_messages (cleared w ++ [questSuccess]) (questReset w)).
  { unfold exec. rewrite (quest_exec w ct cb cd Ht Hb Hd), H1, H2, H3.
    cbn [snd negb orb]. by rewrite Hcm. }
  rewrite Hw1. unfold exec.
  rewrite (quest_exec (refill w (set_messages (cleared w ++ [questSuccess]) (questReset w)))
             ct cb cd Ht Hb Hd), H1, H2, H3.
  cbn [snd negb orb].
  assert (Hreset : questReset (refill w (set_messages (cleared w ++ [questSuccess]) (questReset w)))
                   = questReset w).
  { unfold questReset, refill, cleared.
    cbn [messages inputs set_inputs set_messages].
    fold (cleared w). by rewrite cleared_after_success. }
  rewrite Hreset, Hcm. unfold cleared at 1, refill.
  cbn [messages set_inputs set_messages]. fold (cleared w).
  by rewrite cleared_after_success.
Qed.

Lemma quest_resubmission_plain_witness :
  let w := questPage (js "Mow the lawn") (js "20") (js "Front and back") None in
  exec setupQuestForm (refill w (exec setupQuestForm w)) = exec setupQuestForm w.
Proof.
  intros w.
  apply (quest_resubmission_plain w _ _ _ eq_refl eq_refl eq_refl);
    [vm_compute; discriminate..|reflexivity].
Defined.

(** C8, where the code departs from it.  On a page that has the checkmark
    element, the first successful submission shows the success message with
    the checkmark inside it; [clearMessages] of the next submission removes
    that message with the checkmark in it, so the same quest posted again
    gets the bare message, and the checkmark is no longer in the document. *)
Theorem quest_resubmission_loses_checkmark :
  let w := questPage (js "Mow the lawn") (js "20") (js "Front and back")
             (Some {| display := js "none" |}) in
  let w1 := exec setupQuestForm w in
  let w2 := exec setupQuestForm (refill w w1) in
  messages w1 = [withChild (Some {| display := js "inline-block" |}) questSuccess]
  /\ messages w2 = [questSuccess]
  /\ getCheckmark w2 = None
  /\ messages w2 ≠ messages w1.
Proof. vm_compute. repeat split. discriminate. Qed.

(** ** Password toggles *)

Lemma onClick_bound (l : Listener) (w : World) (c : Control) :
  inputs w !! passwordInput l = Some c ->
  onClick l w =
    set_toggles (alter (setLabel (newLabel c)) (btn l) (toggles w))
      (set_inputs (<[passwordInput l := setType (newType c) c]> (inputs w)) w).
Proof. intros H. unfold onClick, newLabel, newType. by rewrite H. Qed.

Lemma onClick_unbound (l : Listener) (w : World) :
  inputs w !! passwordInput l = None -> onClick l w = w.
Proof. intros H. unfold onClick. by rewrite H. Qed.

Lemma click_cons (l : Listener) (ls : list Listener) (i : nat) (w : World) :
  click (l :: ls) i w = click ls i (if bool_decide (btn l = i) then onClick l w else w).
Proof. reflexivity. Qed.

(** Listeners of later buttons do not hear a click on an earlier one. *)
Lemma click_skip (w0 : World) (ts : list Toggle) (k i : nat) (w : World) :
  (i < k)%nat -> click (addListeners w0 k ts) i w = w.
Proof.
  revert k. induction ts as [|t ts IH]; intros k Hik; [done|].
  cbn [addListeners]. destruct (inputs w0 !! inputId t).
  - rewrite click_cons. cbn [btn].
    rewrite bool_decide_eq_false_2 by lia. apply IH. lia.
  - apply IH. lia.
Qed.

(** A click runs the one listener of the button, if it got one. *)
Lemma click_addListeners (w0 : World) (ts : list Toggle) (k i : nat)
    (t : Toggle) (w : World) :
  ts !! i = Some t ->
  click (addListeners w0 k ts) (k + i) w =
    match inputs w0 !! inputId t with
    | Some _ => onClick {| btn := (k + i)%nat; passwordInput := inputId t |} w
    | None => w
    end.
Proof.
  revert k i. induction ts as [|t0 ts IH]; intros k i Hi; [done|].
  destruct i as [|i]; cbn [addListeners].
  - injection Hi as ->. rewrite Nat.add_0_r.
    destruct (inputs w0 !! inputId t).
    + rewrite click_cons. cbn [btn]. rewrite bool_decide_eq_true_2 by done.
      apply click_skip. lia.
    + apply click_skip. lia.
  - replace (k + S i)%nat with (S k + i)%nat by lia.
    destruct (inputs w0 !! inputId t0).
    + rewrite click_cons. cbn [btn]. rewrite bool_decide_eq_false_2 by lia.
      by apply IH.
    + by apply IH.
Qed.

Lemma click_setup (w0 : World) (i : nat) (t : Toggle) (c0 : Control) (w : World) :
  toggles w0 !! i = Some t ->
  inputs w0 !! inputId t = Some c0 ->
  click (setupPasswordToggles w0) i w =
    onClick {| btn := i; passwordInput := inputId t |} w.
Proof.
  intros Ht Hc. unfold setupPasswordToggles.
  change i with (0 + i)%nat at 1.
  rewrite (click_addListeners w0 (toggles w0) 0 i t w Ht). by rewrite Hc.
Qed.

Lemma click_setup_unbound (w0 : World) (i : nat) (t : Toggle) (w : World) :
  toggles w0 !! i = Some t ->
  inputs w0 !! inputId t = None ->
  click (setupPasswordToggles w0) i w = w.
Proof.
  intros Ht Hc. unfold setupPasswordToggles.
  change i with (0 + i)%nat at 1.
  rewrite (click_addListeners w0 (toggles w0) 0 i t w Ht). by rewrite Hc.
Qed.

Lemma setType_back (c : Control) (ty : jsstring) :
  setType (type c) (setType ty c) = c.
Proof. by destruct c. Qed.

Lemma alter_setLabel_back (ts : list Toggle) (i : nat) (t : Toggle) (l : jsstring) :
  ts !! i = Some t ->
  alter (setLabel (btn_textContent t)) i (alter (setLabel l) i ts) = ts.
Proof.
  intros Ht. rewrite list_alter_alter_eq.
  rewrite (list_alter_ext _ (fun x => x) ts ts i); [by apply list_alter_id| |done].
  intros x Hx. assert (x = t) as -> by congruence. by destruct t.
Qed.

(** Clicks on two buttons with different targets commute. *)
Lemma onClick_commute (l1 l2 : Listener) (w : World) :
  btn l1 ≠ btn l2 -> passwordInput l1 ≠ passwordInput l2 ->
  onClick l1 (onClick l2 w) = onClick l2 (onClick l1 w).
Proof.
  intros Hbtn Hid.
  destruct (inputs w !! passwordInput l1) as [c1|] eqn:H1;
    destruct (inputs w !! passwordInput l2) as [c2|] eqn:H2.
  - rewrite (onClick_bound l2 w c2 H2), (onClick_bound l1 w c1 H1).
    rewrite (onClick_bound l1 _ c1), (onClick_bound l2 _ c2);
      cbn [inputs set_toggles set_inputs];
      [|by rewrite lookup_insert_ne|by rewrite lookup_insert_ne].
    unfold set_toggles, set_inputs. cbn.
    rewrite (list_alter_alter_ne _ _ _ _ _ Hbtn).
    by rewrite (insert_insert_ne _ _ _ _ _ Hid).
  - rewrite (onClick_unbound l2 w H2), (onClick_bound l1 w c1 H1).
    rewrite onClick_unbound; [done|].
    cbn [inputs set_toggles set_inputs]. by rewrite lookup_insert_ne.
  - rewrite (onClick_unbound l1 w H1), (onClick_bound l2 w c2 H2).
    rewrite onClick_unbound; [done|].
    cbn [inputs set_toggles set_inputs]. by rewrite lookup_insert_ne.
  - by rewrite (onClick_unbound l2 w H2), (onClick_unbound l1 w H1), (onClick_unbound l2 w H2).
Qed.

(** C9, as stated, fails twice.  A toggle whose label in the page is not
    "Show" does not get its label back: two clicks restore the field and
    leave the label "Show".  And two toggles naming one field do not work
    independently: a click on the second changes what the next click on the
    first does, and after a click on each the field is masked while the
    first still reads "Hide". *)
Lemma password_toggle_not_restored :
  (let w := labelledTogglePage in
   let ls := setupPasswordToggles w in
   inputs (click ls 0 (click ls 0 w)) = inputs w
   /\ toggles w !! 0%nat
      = Some {| data_for := Some (js "password"); btn_textContent := js "Show password" |}
   /\ toggles (click ls 0 (click ls 0 w)) !! 0%nat
      = Some {| data_for := Some (js "password"); btn_textContent := js "Show" |}
   /\ click ls 0 (click ls 0 w) ≠ w)
  /\ (let w := sharedFieldPage in
      let ls := setupPasswordToggles w in
      type <$> inputs (click ls 0 w) !! js "password" = Some (js "text")
      /\ type <$> inputs (click ls 0 (click ls 1 w)) !! js "password"
         = Some (js "password")
      /\ type <$> inputs (click ls 1 (click ls 0 w)) !! js "password"
         = Some (js "password")
      /\ btn_textContent <$> toggles (click ls 1 (click ls 0 w)) !! 0%nat
         = Some (js "Hide")).
Proof.
  split.
  - intros w ls. split; [reflexivity|]. split; [reflexivity|]. split; [reflexivity|].
    intros H. apply (f_equal (fun w => btn_textContent <$> toggles w !! 0%nat)) in H.
    discriminate H.
  - intros w ls. repeat split; reflexivity.
Qed.

(** C9, amended.  For a toggle whose target field exists and is masked: one click
    makes the field a text field and the label "Hide"; a second click makes
    it a password field again and the label "Show", so that when the label
    was "Show" to begin with the two clicks leave the page exactly as it
    was.  What a click does is read off the field's [type] alone, whatever
    the label says.  A click changes no other toggle and no other field,
    and clicks on toggles with different targets commute. *)
Theorem password_toggle (w : World) (i : nat) (t : Toggle) (c : Control) :
  toggles w !! i = Some t ->
  inputs w !! inputId t = Some c ->
  type c = js "password" ->
  let ls := setupPasswordToggles w in
  let w1 := click ls i w in
  let w2 := click ls i w1 in
  inputs w1 !! inputId t = Some (setType (js "text") c)
  /\ toggles w1 !! i = Some (setLabel (js "Hide") t)
  /\ inputs w2 !! inputId t = Some c
  /\ toggles w2 !! i = Some (setLabel (js "Show") t)
  /\ (btn_textContent t = js "Show" -> w2 = w)
  /\ (forall (w' : World) (c' : Control),
         inputs w' !! inputId t = Some c' ->
         click ls i w' =
           set_toggles (alter (setLabel (newLabel c')) i (toggles w'))
             (set_inputs (<[inputId t := setType (newType c') c']> (inputs w')) w'))
  /\ (forall (j : nat) (tj : Toggle),
         j ≠ i -> toggles w !! j = Some tj -> inputId tj ≠ inputId t ->
         toggles w1 !! j = Some tj
         /\ inputs w1 !! inputId tj = inputs w !! inputId tj
         /\ forall w' : World, click ls i (click ls j w') = click ls j (click ls i w')).
Proof.
  intros Ht Hc Hty ls w1 w2.
  assert (Hclick : forall w', click ls i w' = onClick {| btn := i; passwordInput := inputId t |} w')
    by (intros w'; apply (click_setup w i t c w' Ht Hc)).
  assert (Hw1 : w1 = set_toggles (alter (setLabel (js "Hide")) i (toggles w))
                       (set_inputs (<[inputId t := setType (js "text") c]> (inputs w)) w)).
  { unfold w1.
    rewrite Hclick, (onClick_bound {| btn := i; passwordInput := inputId t |} w c Hc).
    unfold newLabel, newType. by rewrite Hty. }
  assert (Hw2 : w2 = set_toggles (alter (setLabel (js "Show")) i (toggles w1))
                       (set_inputs (<[inputId t := c]> (inputs w1)) w1)).
  { unfold w2. rewrite Hclick.
    rewrite (onClick_bound {| btn := i; passwordInput := inputId t |} w1
               (setType (js "text") c))
      by (rewrite Hw1; apply lookup_insert_eq).
    cbn [btn passwordInput]. unfold newLabel, newType. cbn [type setType].
    rewrite bool_decide_eq_false_2 by (vm_compute; discriminate).
    by rewrite <- Hty, setType_back. }
  split; [rewrite Hw1; apply lookup_insert_eq|].
  split; [rewrite Hw1; cbn; by rewrite list_lookup_alter_eq, Ht|].
  split; [rewrite Hw2; apply lookup_insert_eq|].
  split.
  { rewrite Hw2, Hw1. cbn. by rewrite !list_lookup_alter_eq, Ht. }
  split.
  { intros Hlabel. rewrite Hw2, Hw1, <- Hlabel. unfold set_toggles, set_inputs.
    cbn [localStorage sessionStorage pathname returnParam href inputs messages
         checkmark timers toggles].
    rewrite insert_insert_eq, (insert_id _ _ _ Hc).
    rewrite (alter_setLabel_back _ _ _ _ Ht).
    apply World_eta. }
  split.
  { intros w' c' Hc'.
    by rewrite Hclick,
      (onClick_bound {| btn := i; passwordInput := inputId t |} w' c' Hc'). }
  intros j tj Hj Htj Hid. split; [|split].
  - rewrite Hw1. cbn. by rewrite list_lookup_alter_ne.
  - rewrite Hw1. cbn. by rewrite lookup_insert_ne.
  - intros w'. rewrite !Hclick.
    destruct (inputs w !! inputId tj) as [cj|] eqn:Hcj.
    + rewrite !(click_setup w j tj cj _ Htj Hcj).
      apply onClick_commute; cbn; congruence.
    + by rewrite !(click_setup_unbound w j tj _ Htj Hcj).
Qed.

Lemma password_toggle_witness :
  let ls := setupPasswordToggles togglePage in
  toggles (click ls 0 togglePage) !! 0%nat
    = Some {| data_for := Some (js "password"); btn_textContent := js "Hide" |}
  /\ click ls 0 (click ls 0 togglePage) = togglePage.
Proof.
  intros ls.
  destruct (password_toggle togglePage 0
              {| data_for := Some (js "password"); btn_textContent := js "Show" |}
              {| value := js "hunter2"; defaultValue := []; type := js "password" |}
              eq_refl eq_refl eq_refl) as (_ & H2 & _ & _ & H5 & _).
  split; [exact H2 | exact (H5 eq_refl)].
Defined.

(** * The rest of the script *)

(** ** Strings, continued *)

Lemma startsWith_spec (s pat : jsstring) :
  startsWith s pat = true <-> exists rest, s = pat ++ rest.
Proof.
  revert s. induction pat as [|p pat IH]; intros s.
  - split; [by exists s|by destruct s].
  - destruct s as [|c s]; cbn [startsWith].
    + split; [done|]. by intros [rest H].
    + rewrite andb_true_iff, bool_decide_eq_true, IH. split.
      * intros [-> [rest ->]]. by exists rest.
      * intros [rest H]. cbn in H. injection H as -> ->. split; [done|]. by exists rest.
Qed.

Lemma endsWith_spec (s suffix : jsstring) :
  endsWith s suffix = true <-> exists front, s = front ++ suffix.
Proof.
  unfold endsWith. rewrite startsWith_spec. split.
  - intros [rest H]. exists (reverse rest).
    apply (f_equal reverse) in H. rewrite reverse_involutive in H.
    by rewrite H, reverse_app, reverse_involutive.
  - intros [front ->]. exists (reverse front). by rewrite reverse_app.
Qed.

Lemma includes_spec (s pat : jsstring) :
  includes s pat = true <-> exists front rest, s = front ++ pat ++ rest.
Proof.
  induction s as [|c s IH]; cbn [includes].
  - rewrite orb_false_r, startsWith_spec. split.
    + intros [rest H]. by exists [], rest.
    + intros (front & rest & H). destruct front; [by exists rest|done].
  - rewrite orb_true_iff, startsWith_spec, IH. split.
    + intros [[rest H]|(front & rest & H)].
      * by exists [], rest.
      * exists (c :: front), rest. by rewrite H.
    + intros (front & rest & H). destruct front as [|c' front].
      * left. by exists rest.
      * right. cbn in H. injection H as -> ->. by exists front, rest.
Qed.

Lemma split_no_sep (sep : N) (s : jsstring) :
  sep ∉ s -> split sep s = [s].
Proof.
  induction s as [|c s IH]; intros H; [done|].
  apply not_elem_of_cons in H as [Hc Hs]. cbn [split].
  rewrite bool_decide_eq_false_2 by congruence. by rewrite (IH Hs).
Qed.

Lemma split_nonempty (sep : N) (s : jsstring) : split sep s ≠ [].
Proof.
  destruct s as [|c s]; cbn; [done|].
  destruct (bool_decide _); [done|]. by destruct (split sep s).
Qed.

(** Splitting around a separator: the parts before it, then the parts
    after it. *)
Lemma split_app_sep (sep : N) (s1 s2 : jsstring) :
  split sep (s1 ++ sep :: s2) = split sep s1 ++ split sep s2.
Proof.
  induction s1 as [|c s1 IH].
  - cbn. by rewrite bool_decide_eq_true_2.
  - cbn [app split]. rewrite IH. destruct (bool_decide (c = sep)); [done|].
    destruct (split sep s1) eqn:E; [by apply split_nonempty in E|done].
Qed.

Lemma last_split_app (sep : N) (s1 s2 : jsstring) :
  last (split sep (s1 ++ sep :: s2)) = last (split sep s2).
Proof.
  rewrite split_app_sep, last_app.
  destruct (last (split sep s2)) eqn:E; [done|].
  apply last_None in E. by apply split_nonempty in E.
Qed.

(** The current page is the file name: what follows the last slash. *)
Lemma lastSegment_file (dir name : jsstring) :
  0x2F ∉ name -> lastSegment (dir ++ 0x2F :: name) = name.
Proof.
  intros H. unfold lastSegment.
  by rewrite last_split_app, (split_no_sep _ _ H).
Qed.

Lemma last_split_no_sep (sep : N) (s seg : jsstring) :
  last (split sep s) = Some seg -> sep ∉ seg.
Proof.
  revert seg. induction s as [|c s IH]; intros seg; cbn [split].
  - intros [= <-]. apply not_elem_of_nil.
  - destruct (bool_decide (c = sep)) eqn:Hc.
    + destruct (split sep s) eqn:E; [by apply split_nonempty in E|].
      cbn. apply IH.
    + destruct (split sep s) as [|seg0 [|seg1 rest]] eqn:E.
      * by apply split_nonempty in E.
      * cbn. intros [= <-]. apply not_elem_of_cons. split.
        -- apply bool_decide_eq_false in Hc. congruence.
        -- by apply IH.
      * cbn. intros H. apply IH. by cbn.
Qed.

(** *** Trimming *)

Lemma trimStart_head (s r : jsstring) (c : N) :
  trimStart s = c :: r -> isTrimmable c = false.
Proof.
  induction s as [|c0 s IH]; cbn [trimStart]; [done|].
  destruct (isTrimmable c0) eqn:E; [exact IH|]. by intros [= <- _].
Qed.

Lemma trimStart_keep (s : jsstring) (c : N) :
  isTrimmable c = false -> trimStart (c :: s) = c :: s.
Proof. intros H. cbn [trimStart]. by rewrite H. Qed.

Lemma trimStart_idem (s : jsstring) : trimStart (trimStart s) = trimStart s.
Proof.
  destruct (trimStart s) as [|c r] eqn:E; [done|].
  by rewrite (trimStart_keep r c (trimStart_head s r c E)).
Qed.

Lemma trimStart_snoc (s : jsstring) (c : N) :
  isTrimmable c = false -> exists r, trimStart (s ++ [c]) = r ++ [c].
Proof.
  intros H. induction s as [|c0 s IH].
  - exists []. cbn [app]. by rewrite (trimStart_keep [] c H).
  - cbn [app trimStart]. destruct (isTrimmable c0); [exact IH|]. by exists (c0 :: s).
Qed.

Lemma trimEnd_head (s : jsstring) (c : N) :
  isTrimmable c = false -> exists r, trimEnd (c :: s) = c :: r.
Proof.
  intros H. unfold trimEnd. rewrite reverse_cons.
  destruct (trimStart_snoc (reverse s) c H) as [r ->].
  exists (reverse r). by rewrite reverse_app.
Qed.

Lemma trimEnd_last (s : jsstring) (c : N) :
  last (trimEnd s) = Some c -> isTrimmable c = false.
Proof.
  unfold trimEnd. intros H. apply last_Some in H as [front H].
  apply (f_equal reverse) in H. rewrite reverse_involutive, reverse_app in H.
  by apply trimStart_head in H.
Qed.

Lemma trimEnd_idem (s : jsstring) : trimEnd (trimEnd s) = trimEnd s.
Proof. unfold trimEnd. by rewrite reverse_involutive, trimStart_idem. Qed.

Lemma trim_head (s : jsstring) (c : N) :
  head (trim s) = Some c -> isTrimmable c = false.
Proof.
  unfold trim. destruct (trimStart s) as [|c0 r] eqn:E; [done|].
  pose proof (trimStart_head s r c0 E) as Hc0.
  destruct (trimEnd_head r c0 Hc0) as [r' ->]. by intros [= <-].
Qed.

Lemma trim_last (s : jsstring) (c : N) :
  last (trim s) = Some c -> isTrimmable c = false.
Proof. apply trimEnd_last. Qed.

Lemma trim_idem (s : jsstring) : trim (trim s) = trim s.
Proof.
  unfold trim. destruct (trimStart s) as [|c0 r] eqn:E; [done|].
  pose proof (trimStart_head s r c0 E) as Hc0.
  destruct (trimEnd_head r c0 Hc0) as [r' Hr'].
  rewrite Hr', (trimStart_keep r' c0 Hc0), <- Hr'. apply trimEnd_idem.
Qed.

(** X5.  The name a successful login records is in trimmed form: it is not
    empty, trimming it again changes nothing, and neither its first nor its
    last code unit is white space.  The stored record depends on the
    username field only through its trimmed value, so two entries that
    differ in surrounding white space log in as the same user. *)
Theorem login_records_trimmed_name (w : World) (cu cp : Control)
    (ls : gmap jsstring jsstring) :
  inputs w !! js "username" = Some cu ->
  inputs w !! js "password" = Some cp ->
  localStorage w = Some ls ->
  trim (value cu) ≠ [] -> value cp ≠ [] ->
  exists name,
    localStorage (exec setupLoginForm w) = Some (<[auth.storageKey := user name]> ls)
    /\ name ≠ []
    /\ trim name = name
    /\ (forall c, head name = Some c -> isTrimmable c = false)
    /\ (forall c, last name = Some c -> isTrimmable c = false)
    /\ (forall (w2 : World) (cu2 : Control),
           inputs w2 !! js "username" = Some cu2 ->
           inputs w2 !! js "password" = Some cp ->
           localStorage w2 = Some ls ->
           trim (value cu2) = trim (value cu) ->
           localStorage (exec setupLoginForm w2) = localStorage (exec setupLoginForm w)).
Proof.
  intros Hu Hp Hls Hname Hpass.
  assert (Hstore : forall (w' : World) (cu' : Control),
             inputs w' !! js "username" = Some cu' ->
             inputs w' !! js "password" = Some cp ->
             localStorage w' = Some ls ->
             trim (value cu') = trim (value cu) ->
             localStorage (exec setupLoginForm w')
             = Some (<[auth.storageKey := user (trim (value cu))]> ls)).
  { intros w' cu' Hu' Hp' Hls' Heq. unfold exec.
    destruct (isAdmin (trim (value cu')) (value cp)) eqn:Hadmin.
    - unfold isAdmin in Hadmin. apply andb_true_iff in Hadmin as [E1 E2].
      apply bool_decide_eq_true in E1, E2.
      rewrite (login_admin w' cu' cp Hu' Hp' ls Hls' E1 E2). cbn [snd].
      by rewrite <- Heq, E1.
    - rewrite (login_accepted w' cu' cp Hu' Hp' ls Hls')
        by first [done | by rewrite Heq].
      cbn [snd]. by rewrite Heq. }
  exists (trim (value cu)).
  split; [by apply (Hstore w cu)|]. split; [done|].
  split; [apply trim_idem|]. split; [apply trim_head|]. split; [apply trim_last|].
  intros w2 cu2 Hu2 Hp2 Hls2 Heq.
  rewrite (Hstore w2 cu2 Hu2 Hp2 Hls2 Heq). symmetry. by apply (Hstore w cu).
Qed.

Lemma login_records_trimmed_name_witness :
  exists name,
    localStorage (exec setupLoginForm (loginPage (js "  bob ") (js "pw") None))
      = Some (<[auth.storageKey := user name]> ∅)
    /\ name ≠ [] /\ trim name = name.
Proof.
  destruct (login_records_trimmed_name (loginPage (js "  bob ") (js "pw") None) _ _ ∅
              (loginPage_username _ _ _) (loginPage_password _ _ _) eq_refl)
    as (name & H1 & H2 & H3 & _); [vm_compute; discriminate..|].
  exists name. split; [exact H1|]. split; [exact H2 | exact H3].
Defined.

(** ** The redirect over a session's life *)

Lemma pageLoad_fires (w : World) (ls ss : gmap jsstring jsstring) (path : jsstring) :
  localStorage w = Some ls -> sessionStorage w = Some ss ->
  is_Some (ls !! auth.storageKey) ->
  ss !! auth.redirectKey ≠ Some (js "1") ->
  ~ excludedPage (lastSegment path) ->
  exec (pageLoad path) w =
    set_href (Some (js "questBoard.html"))
      (set_sessionStorage (Some (<[auth.redirectKey := js "1"]> ss)) (arrive path w)).
Proof.
  intros Hls Hss [u Hu] Hflag Hpage.
  unfold pageLoad, exec, bind, modify. cbn [fst snd].
  rewrite (redirectToQuestOnce_exec (arrive path w) ls ss Hls Hss).
  cbn [snd pathname arrive]. rewrite Hu.
  apply (proj2 (bool_decide_eq_false _)) in Hflag.
  apply (proj2 (excluded_test _)) in Hpage.
  by rewrite <- orb_assoc, Hflag, Hpage.
Qed.

Lemma pageLoad_excluded (w : World) (path : jsstring) :
  excludedPage (lastSegment path) -> exec (pageLoad path) w = arrive path w.
Proof.
  intros Hpage.
  destruct (pageLoad_cases path w) as [H|(ss & Hss & Hflag & H)]; [done|].
  exfalso. revert H. unfold pageLoad. run.
  destruct (localStorage w) as [ls|]; simpl.
  2:{ intros H. apply (f_equal href) in H. discriminate H. }
  destruct (ls !! auth.storageKey); simpl.
  2:{ intros H. apply (f_equal href) in H. discriminate H. }
  rewrite Hss. simpl.
  assert (bool_decide (lastSegment path = js "questBoard.html")
          || bool_decide (lastSegment path = js "admin.html") = true) as Hex.
  { destruct Hpage as [E|E]; rewrite E; [done|]. apply orb_true_r. }
  rewrite <- orb_assoc, Hex, orb_true_r. simpl.
  intros H. apply (f_equal href) in H. discriminate H.
Qed.

Lemma redirects_bound (es : list event) (w : World) :
  (redirects es w <= 1 + logouts es)%nat
  /\ (flagged w -> redirects es w <= logouts es)%nat.
Proof.
  revert w. induction es as [|e es IH]; intros w; [cbn; split; lia|].
  cbn [redirects logouts].
  destruct (IH (exec (step e) w)) as [IH1 IH2].
  destruct (isLogOut e) eqn:Hout.
  - destruct e; try discriminate Hout. cbn [redirected]. split; lia.
  - assert (He : e ≠ LogOut) by (by intros ->).
    split.
    + destruct (redirected e w) eqn:Hr; [|lia].
      specialize (IH2 (redirected_flagged e w Hr)). lia.
    + intros Hw. destruct (step_flagged e w He Hw) as [Hw' ->].
      specialize (IH2 Hw'). lia.
Qed.

(** X6.  Over any run of page loads, logins and logouts, from any state,
    the automatic redirect fires at most once more than there are logouts;
    and the bound is reached: in a logged-in tab, a redirect, a logout and a
    new login are followed by a second redirect on the next page that is
    not exempt. *)
Theorem redirects_per_lifecycle :
  (forall (es : list event) (w : World),
      (redirects es w <= 1 + logouts es)%nat)
  /\ (forall (w : World) (ls ss : gmap jsstring jsstring) (u : User) (p1 p2 : jsstring),
         localStorage w = Some ls -> sessionStorage w = Some ss ->
         is_Some (ls !! auth.storageKey) ->
         ss !! auth.redirectKey ≠ Some (js "1") ->
         ~ excludedPage (lastSegment p1) -> ~ excludedPage (lastSegment p2) ->
         redirects [Visit p1; LogOut; LogIn u; Visit p2] w = 2%nat).
Proof.
  split; [intros es w; apply redirects_bound|].
  intros w ls ss u p1 p2 Hls Hss Hu Hflag Hp1 Hp2.
  pose proof (pageLoad_fires w ls ss p1 Hls Hss Hu Hflag Hp1) as H1.
  set (w1 := exec (pageLoad p1) w) in *.
  assert (Hls1 : localStorage w1 = Some ls) by (by rewrite H1).
  assert (Hss1 : sessionStorage w1 = Some (<[auth.redirectKey := js "1"]> ss))
    by (by rewrite H1).
  pose proof (logout_exec w1 _ _ Hls1 Hss1) as H2.
  set (w2 := set_sessionStorage
               (Some (delete auth.redirectKey (<[auth.redirectKey := js "1"]> ss)))
               (set_localStorage (Some (delete auth.storageKey ls)) w1)) in *.
  pose proof (login_exec w2 (delete auth.storageKey ls) eq_refl u) as H3.
  set (w3 := set_localStorage
               (Some (<[auth.storageKey := JSON_stringify u]> (delete auth.storageKey ls)))
               w2) in *.
  assert (H4 : exec (pageLoad p2) w3 =
               set_href (Some (js "questBoard.html"))
                 (set_sessionStorage
                    (Some (<[auth.redirectKey := js "1"]>
                             (delete auth.redirectKey (<[auth.redirectKey := js "1"]> ss))))
                    (arrive p2 w3))).
  { apply (pageLoad_fires w3 (<[auth.storageKey := JSON_stringify u]> (delete auth.storageKey ls))).
    - reflexivity.
    - reflexivity.
    - rewrite lookup_insert_eq. by eexists.
    - by rewrite lookup_delete_eq.
    - done. }
  cbn [redirects redirected step].
  change (exec (pageLoad p1) w) with w1.
  assert (E2 : exec auth.logout w1 = w2) by (unfold exec; by rewrite H2).
  rewrite E2.
  assert (E3 : exec (auth.login u) w2 = w3) by (unfold exec; by rewrite H3).
  rewrite E3, H4.
  rewrite (bool_decide_eq_true_2 (href w1 = _)) by (by rewrite H1).
  by rewrite bool_decide_eq_true_2.
Qed.

Lemma redirects_per_lifecycle_witness :
  redirects [Visit (js "/index.html"); LogOut; LogIn {| username := js "ann" |};
             Visit (js "/services.html")] loggedInWorld = 2%nat.
Proof.
  destruct redirects_per_lifecycle as [_ H].
  apply (H loggedInWorld {[ auth.storageKey := user (js "bob") ]} ∅).
  - reflexivity.
  - reflexivity.
  - rewrite lookup_singleton_eq. by eexists.
  - by rewrite lookup_empty.
  - intros [E|E]; vm_compute in E; discriminate E.
  - intros [E|E]; vm_compute in E; discriminate E.
Defined.

(** The world a successful login leaves: the session stored, a destination
    requested, session storage as it was. *)
Lemma login_world_after (w : World) (cu cp : Control) (ls : gmap jsstring jsstring) :
  inputs w !! js "username" = Some cu ->
  inputs w !! js "password" = Some cp ->
  localStorage w = Some ls ->
  trim (value cu) ≠ [] -> value cp ≠ [] ->
  exists ms,
    exec setupLoginForm w =
      set_href
        (Some (if isAdmin (trim (value cu)) (value cp)
               then adminPath (pathname w)
               else orElse (returnParam w) (questBoardPath (pathname w))))
        (set_localStorage (Some (<[auth.storageKey := user (trim (value cu))]> ls))
           (set_messages ms w)).
Proof.
  intros Hu Hp Hls Hname Hpass. unfold exec.
  destruct (isAdmin (trim (value cu)) (value cp)) eqn:Hadmin.
  - unfold isAdmin in Hadmin. apply andb_true_iff in Hadmin as [E1 E2].
    apply bool_decide_eq_true in E1, E2.
    rewrite (login_admin w cu cp Hu Hp ls Hls E1 E2). cbn [snd]. rewrite E1.
    by eexists.
  - rewrite (login_accepted w cu cp Hu Hp ls Hls Hname Hpass Hadmin). cbn [snd].
    by eexists.
Qed.

Lemma landing_excluded (path : jsstring) :
  excludedPage (lastSegment (questBoardPath path))
  /\ excludedPage (lastSegment (adminPath path)).
Proof.
  unfold questBoardPath, adminPath, excludedPage.
  destruct (includes path (js "/pages/auth/")); split; (by left) || (by right).
Qed.

(** X7.  Landing on the quest board or on [admin.html] does not use up the
    redirect.  After a login that goes to its default destination (the
    admin page for the admin pair, the quest board when there is no return
    target), that destination is exempt: its load neither sets the flag nor
    navigates, and the first later load of a page [p] that is not exempt
    fires the redirect: it assigns the relative reference
    [questBoard.html], which sends the browser to the file of that name
    beside [p]. *)
Theorem landing_keeps_redirect_pending (w : World) (cu cp : Control)
    (ls ss : gmap jsstring jsstring) (p : jsstring) :
  inputs w !! js "username" = Some cu ->
  inputs w !! js "password" = Some cp ->
  localStorage w = Some ls -> sessionStorage w = Some ss ->
  ss !! auth.redirectKey ≠ Some (js "1") ->
  trim (value cu) ≠ [] -> value cp ≠ [] ->
  isAdmin (trim (value cu)) (value cp) = true
    \/ returnParam w = None \/ returnParam w = Some [] ->
  ~ excludedPage (lastSegment p) ->
  exists dest,
    href (exec setupLoginForm w) = Some dest
    /\ excludedPage (lastSegment dest)
    /\ forall board, lastSegment board = lastSegment dest ->
         let w2 := exec (pageLoad board) (exec setupLoginForm w) in
         href w2 = None
         /\ sessionStorage w2 = Some ss
         /\ href (exec (pageLoad p) w2) = Some (js "questBoard.html")
         /\ destination (exec (pageLoad p) w2)
            = Some (resolvePath p (js "questBoard.html")).
Proof.
  intros Hu Hp Hls Hss Hflag Hname Hpass Hdest Hp'.
  destruct (login_world_after w cu cp ls Hu Hp Hls Hname Hpass) as [ms Hw1].
  set (dest := if isAdmin (trim (value cu)) (value cp)
               then adminPath (pathname w)
               else orElse (returnParam w) (questBoardPath (pathname w))) in *.
  assert (Hex : excludedPage (lastSegment dest)).
  { subst dest. destruct (isAdmin _ _).
    - apply landing_excluded.
    - destruct Hdest as [H|[H|H]]; [done| |]; rewrite H; apply landing_excluded. }
  exists dest. split; [by rewrite Hw1|]. split; [done|].
  intros board Hboard w2.
  assert (Hw2 : w2 = arrive board (exec setupLoginForm w)).
  { apply pageLoad_excluded. by rewrite Hboard. }
  split; [by rewrite Hw2|]. split; [by rewrite Hw2, Hw1|].
  rewrite (pageLoad_fires w2 (<[auth.storageKey := user (trim (value cu))]> ls) ss p).
  - split; reflexivity.
  - by rewrite Hw2, Hw1.
  - by rewrite Hw2, Hw1.
  - rewrite lookup_insert_eq. by eexists.
  - done.
  - done.
Qed.

Lemma landing_keeps_redirect_pending_witness :
  exists dest,
    href (exec setupLoginForm (loginPage (js "bob") (js "pw") None)) = Some dest
    /\ excludedPage (lastSegment dest)
    /\ forall board, lastSegment board = lastSegment dest ->
         let w2 := exec (pageLoad board)
                     (exec setupLoginForm (loginPage (js "bob") (js "pw") None)) in
         href w2 = None
         /\ sessionStorage w2 = Some ∅
         /\ href (exec (pageLoad (js "/index.html")) w2) = Some (js "questBoard.html")
         /\ destination (exec (pageLoad (js "/index.html")) w2)
            = Some (resolvePath (js "/index.html") (js "questBoard.html")).
Proof.
  apply (landing_keeps_redirect_pending (loginPage (js "bob") (js "pw") None) _ _ ∅ ∅
           (js "/index.html") (loginPage_username _ _ _) (loginPage_password _ _ _)
           eq_refl eq_refl).
  - by rewrite lookup_empty.
  - vm_compute. discriminate.
  - vm_compute. discriminate.
  - right; left. reflexivity.
  - intros [E|E]; vm_compute in E; discriminate E.
Defined.

(** X8.  The return target does not hold the user.  After a login that
    goes to a non-empty [return] target whose file is not exempt (the guard
    sends [routes.post]), the load of that very page finds a session and no
    flag, and fires the redirect: it sets the flag and assigns the relative
    reference [questBoard.html], which sends the browser away from the page
    asked for, to the file of that name beside it. *)
Theorem return_target_is_redirected (w : World) (cu cp : Control)
    (ls ss : gmap jsstring jsstring) (r : jsstring) :
  inputs w !! js "username" = Some cu ->
  inputs w !! js "password" = Some cp ->
  localStorage w = Some ls -> sessionStorage w = Some ss ->
  ss !! auth.redirectKey ≠ Some (js "1") ->
  trim (value cu) ≠ [] -> value cp ≠ [] ->
  isAdmin (trim (value cu)) (value cp) = false ->
  returnParam w = Some r -> r ≠ [] ->
  ~ excludedPage (lastSegment r) ->
  href (exec setupLoginForm w) = Some r
  /\ forall path, lastSegment path = lastSegment r ->
       href (exec (pageLoad path) (exec setupLoginForm w)) = Some (js "questBoard.html")
       /\ sessionStorage (exec (pageLoad path) (exec setupLoginForm w))
          = Some (<[auth.redirectKey := js "1"]> ss)
       /\ destination (exec (pageLoad path) (exec setupLoginForm w))
          = Some (resolvePath path (js "questBoard.html")).
Proof.
  intros Hu Hp Hls Hss Hflag Hname Hpass Hadmin Hr Hne Hex.
  destruct (login_world_after w cu cp ls Hu Hp Hls Hname Hpass) as [ms Hw1].
  rewrite Hadmin, Hr in Hw1. cbn [orElse] in Hw1.
  apply truthy_nonempty in Hne. rewrite Hne in Hw1.
  split; [by rewrite Hw1|].
  intros path Hpath.
  rewrite (pageLoad_fires (exec setupLoginForm w)
             (<[auth.storageKey := user (trim (value cu))]> ls) ss path).
  - repeat split; reflexivity.
  - by rewrite Hw1.
  - by rewrite Hw1.
  - rewrite lookup_insert_eq. by eexists.
  - done.
  - by rewrite Hpath.
Qed.

Lemma return_target_is_redirected_witness :
  let w := loginPage (js "bob") (js "pw") (Some routes.post) in
  href (exec setupLoginForm w) = Some routes.post
  /\ href (exec (pageLoad routes.post) (exec setupLoginForm w))
     = Some (js "questBoard.html")
  /\ destination (exec (pageLoad routes.post) (exec setupLoginForm w))
     = Some (js "/pages/questgiver/questBoard.html").
Proof.
  intros w.
  destruct (return_target_is_redirected w _ _ ∅ ∅ routes.post
              (loginPage_username _ _ _) (loginPage_password _ _ _) eq_refl eq_refl)
    as [H1 H2].
  - by rewrite lookup_empty.
  - vm_compute. discriminate.
  - vm_compute. discriminate.
  - reflexivity.
  - reflexivity.
  - vm_compute. discriminate.
  - intros [E|E]; vm_compute in E; discriminate E.
  - split; [exact H1|]. destruct (H2 routes.post eq_refl) as (H3 & _ & H4).
    split; [exact H3|exact H4].
Defined.

(** X9.  Whether a page is exempt from the redirect depends on its file
    name alone: the current page is what follows the last slash of the
    path, so [admin.html] and [questBoard.html] are exempt in every
    directory, and any other file name is redirected from, in a logged-in
    tab whose flag is not set. *)
Theorem exemption_by_file_name (dir name : jsstring) :
  0x2F ∉ name ->
  lastSegment (dir ++ 0x2F :: name) = name
  /\ (excludedPage name ->
      forall w : World,
        exec (pageLoad (dir ++ 0x2F :: name)) w = arrive (dir ++ 0x2F :: name) w)
  /\ (~ excludedPage name ->
      forall (w : World) (ls ss : gmap jsstring jsstring),
        localStorage w = Some ls -> sessionStorage w = Some ss ->
        is_Some (ls !! auth.storageKey) ->
        ss !! auth.redirectKey ≠ Some (js "1") ->
        href (exec (pageLoad (dir ++ 0x2F :: name)) w) = Some (js "questBoard.html")).
Proof.
  intros Hname. pose proof (lastSegment_file dir name Hname) as Hlast.
  split; [done|]. split.
  - intros Hex w. apply pageLoad_excluded. by rewrite Hlast.
  - intros Hex w ls ss Hls Hss Hu Hflag.
    rewrite (pageLoad_fires w ls ss _ Hls Hss Hu Hflag); [done|]. by rewrite Hlast.
Qed.

Lemma exemption_by_file_name_witness :
  lastSegment (js "/pages/admin" ++ 0x2F :: js "admin.html") = js "admin.html"
  /\ forall w : World,
       exec (pageLoad (js "/pages/admin" ++ 0x2F :: js "admin.html")) w
       = arrive (js "/pages/admin" ++ 0x2F :: js "admin.html") w.
Proof.
  destruct (exemption_by_file_name (js "/pages/admin") (js "admin.html"))
    as (H1 & H2 & _).
  - vm_compute. intros H. apply list_elem_of_In in H. cbn in H. intuition discriminate.
  - split; [exact H1|]. apply H2. by right.
Defined.

(** ** The page set-up *)

Lemma highlight_ok (cur : jsstring) (links : list NavLink) :
  Forall (fun l => is_Some (nav_href l)) links ->
  highlight cur links = (Return tt, markIf cur <$> links).
Proof.
  induction 1 as [|l links [h Hh] _ IH]; [done|].
  cbn [highlight fmap list_fmap]. rewrite Hh, IH. unfold markIf. by rewrite Hh.
Qed.

Lemma highlight_missing (cur : jsstring) (links : list NavLink) :
  Exists (fun l => nav_href l = None) links ->
  fst (highlight cur links) = Throw TypeError.
Proof.
  induction links as [|l links IH]; intros H; [by apply Exists_nil in H|].
  cbn [highlight]. destruct (nav_href l) as [h|] eqn:Hh; [|done].
  apply Exists_cons in H as [H|H]; [congruence|].
  specialize (IH H). by destruct (highlight cur links).
Qed.

Lemma orString_nonempty (a b : jsstring) : b ≠ [] -> orString a b ≠ [].
Proof. unfold orString. by destruct a. Qed.

Lemma Page_eta (p : Page) : set_world (world p) p = p.
Proof. by destruct p. Qed.

Lemma highlightNav_ok (p : Page) :
  Forall (fun l => is_Some (nav_href l)) (navLinks p) ->
  highlightNav p = (Return tt, set_navLinks (markIf (currentPageOf p) <$> navLinks p) p).
Proof. intros H. unfold highlightNav. by rewrite (highlight_ok _ _ H). Qed.

Lemma setupLoginButton_ok (p : Page) (ls : gmap jsstring jsstring) :
  localStorage (world p) = Some ls ->
  setupLoginButton p = (Return tt, buttonStage ls p).
Proof.
  intros Hls. unfold setupLoginButton, buttonStage.
  destruct (login_link p); [|done].
  unfold andThen, onWorld. rewrite (isLoggedIn_exec (world p) ls Hls), Page_eta.
  unfold stored. by destruct (ls !! auth.storageKey).
Qed.

Lemma setupGuard_ok (p : Page) : setupGuard p = (Return tt, guardStage p).
Proof. unfold setupGuard, guardStage. by destruct (postAQuest p). Qed.

Lemma world_stages (ls : gmap jsstring jsstring) (links : list NavLink) (p : Page) :
  world (guardStage (buttonStage ls (set_navLinks links p))) = world p.
Proof.
  unfold guardStage, buttonStage.
  destruct p as [w nl [l|] [] lf sf qf al hs]; cbn [login_link set_navLinks];
    by destruct (stored ls).
Qed.

(** The set-up of the page's chrome when nothing throws. *)
Lemma setupGlobalUI_ok (p : Page) (ls ss : gmap jsstring jsstring) :
  Forall (fun l => is_Some (nav_href l)) (navLinks p) ->
  localStorage (world p) = Some ls ->
  sessionStorage (world p) = Some ss ->
  setupGlobalUI p =
    (Return tt,
     set_world (exec auth.redirectToQuestOnce (world p))
       (guardStage (buttonStage ls
          (set_navLinks (markIf (currentPageOf p) <$> navLinks p) p)))).
Proof.
  intros Hnav Hls Hss. unfold setupGlobalUI, andThen.
  rewrite (highlightNav_ok p Hnav).
  rewrite (setupLoginButton_ok _ ls) by exact Hls.
  rewrite setupGuard_ok. unfold onWorld, exec. rewrite world_stages.
  by rewrite (redirectToQuestOnce_exec (world p) ls ss Hls Hss).
Qed.

Lemma handlers_stages (ls : gmap jsstring jsstring) (links : list NavLink) (p : Page) :
  handlers (guardStage (buttonStage ls (set_navLinks links p))) =
    handlers p
    ++ (match login_link p with
        | Some _ => if stored ls then [LogoutClick] else []
        | None => []
        end)
    ++ (if postAQuest p then [GuardClick] else []).
Proof.
  unfold guardStage, buttonStage.
  destruct p as [w nl [l|] [] lf sf qf al hs]; cbn [login_link set_navLinks];
    destruct (stored ls);
    cbn [handlers postAQuest set_handlers set_login_link];
    by rewrite ?app_nil_r, <- ?app_assoc.
Qed.

Lemma login_link_stages (ls : gmap jsstring jsstring) (links : list NavLink) (p : Page) :
  login_link (guardStage (buttonStage ls (set_navLinks links p))) =
    (fun _ => if stored ls then js "Logout" else js "Login") <$> login_link p.
Proof.
  unfold guardStage, buttonStage.
  destruct p as [w nl [l|] [] lf sf qf al hs]; cbn [login_link set_navLinks];
    by destruct (stored ls).
Qed.

Lemma navLinks_stages (ls : gmap jsstring jsstring) (links : list NavLink) (p : Page) :
  navLinks (guardStage (buttonStage ls (set_navLinks links p))) = links.
Proof.
  unfold guardStage, buttonStage.
  destruct p as [w nl [l|] [] lf sf qf al hs]; cbn [login_link set_navLinks];
    by destruct (stored ls).
Qed.

Lemma markIf_spec (cur : jsstring) (l : NavLink) :
  nav_href (markIf cur l) = nav_href l
  /\ ((exists h front, nav_href l = Some h /\ h = front ++ cur) ->
      aria_current (markIf cur l) = Some (js "page"))
  /\ (~ (exists h front, nav_href l = Some h /\ h = front ++ cur) ->
      aria_current (markIf cur l) = aria_current l).
Proof.
  unfold markIf. destruct (nav_href l) as [h|] eqn:Hh.
  - destruct (endsWith h cur) eqn:He.
    + split; [done|]. split; [done|]. intros Hno. exfalso. apply Hno.
      apply endsWith_spec in He as [front ->]. by exists (front ++ cur), front.
    + split; [done|]. split; [|done]. intros (h' & front & [= <-] & ->).
      assert (endsWith (front ++ cur) cur = true) by (apply endsWith_spec; by exists front).
      congruence.
  - split; [done|]. split; [|done]. by intros (h' & front & [=] & _).
Qed.

(** X10.  The navigation highlight.  When every navigation link has an
    [href], the load marks with [aria-current="page"] exactly the links
    whose [href] ends with the current page, leaves the mark of the others
    as it was, and changes nothing else of the links.  The current page is
    the file name of the path, or [/index.html] when the path ends in a
    slash; it is never empty, so the test is never true of every link. *)
Theorem nav_highlight (p : Page) :
  Forall (fun l => is_Some (nav_href l)) (navLinks p) ->
  let cur := currentPageOf p in
  let p' := snd (highlightNav p) in
  fst (highlightNav p) = Return tt
  /\ cur ≠ []
  /\ (lastSegment (pathname (world p)) ≠ [] -> cur = lastSegment (pathname (world p)))
  /\ (lastSegment (pathname (world p)) = [] -> cur = js "/index.html")
  /\ List.length (navLinks p') = List.length (navLinks p)
  /\ (forall i l, navLinks p !! i = Some l ->
        exists l', navLinks p' !! i = Some l'
          /\ nav_href l' = nav_href l
          /\ ((exists h front, nav_href l = Some h /\ h = front ++ cur) ->
              aria_current l' = Some (js "page"))
          /\ (~ (exists h front, nav_href l = Some h /\ h = front ++ cur) ->
              aria_current l' = aria_current l))
  /\ world p' = world p /\ handlers p' = handlers p /\ login_link p' = login_link p.
Proof.
  intros Hnav cur p'. subst p'. rewrite (highlightNav_ok p Hnav). cbn [fst snd].
  split; [done|]. split.
  { apply orString_nonempty. vm_compute. discriminate. }
  split.
  { intros H. subst cur. unfold currentPageOf, orString.
    apply truthy_nonempty in H. by rewrite H. }
  split.
  { intros H. subst cur. unfold currentPageOf. by rewrite H. }
  split; [cbn [navLinks set_navLinks]; apply length_fmap|].
  split; [|done].
  intros i l Hl. exists (markIf cur l). split.
  - cbn [navLinks set_navLinks]. by rewrite list_lookup_fmap, Hl.
  - apply markIf_spec.
Qed.

Lemma nav_highlight_witness :
  let p := examplePage (loginPage [] [] None) in
  fst (highlightNav p) = Return tt
  /\ List.length (navLinks (snd (highlightNav p))) = 3%nat.
Proof.
  intros p.
  destruct (nav_highlight p) as (H1 & _ & _ & _ & H5 & _).
  - repeat constructor; by eexists.
  - split; [exact H1 | exact H5].
Defined.

(** Storage refused: every operation of the session store throws at once. *)
Lemma unavailable_storage_propagates_aux (w : World) :
  localStorage w = None ->
  (forall u, auth.login u w = (Throw SecurityError, w))
  /\ auth.logout w = (Throw SecurityError, w)
  /\ auth.isLoggedIn w = (Throw SecurityError, w)
  /\ auth.redirectToQuestOnce w = (Throw SecurityError, w).
Proof. intros H. run. by rewrite H. Qed.

Lemma setupGlobalUI_missing_href (p : Page) :
  Exists (fun l => nav_href l = None) (navLinks p) ->
  exists links, setupGlobalUI p = (Throw TypeError, set_navLinks links p).
Proof.
  intros H. unfold setupGlobalUI, andThen, highlightNav.
  pose proof (highlight_missing (orString (lastSegment (pathname (world p))) routes.home)
                (navLinks p) H) as Hthrow.
  destruct (highlight _ (navLinks p)) as [r links]. cbn in Hthrow. subst r.
  by exists links.
Qed.

Lemma setupGlobalUI_no_storage (p : Page) :
  Forall (fun l => is_Some (nav_href l)) (navLinks p) ->
  localStorage (world p) = None ->
  setupGlobalUI p =
    (Throw SecurityError,
     match login_link p with
     | Some _ => set_navLinks (markIf (currentPageOf p) <$> navLinks p) p
     | None => guardStage (set_navLinks (markIf (currentPageOf p) <$> navLinks p) p)
     end).
Proof.
  intros Hnav Hls. unfold setupGlobalUI, andThen.
  rewrite (highlightNav_ok p Hnav).
  set (q := set_navLinks (markIf (currentPageOf p) <$> navLinks p) p).
  assert (Hq : localStorage (world q) = None) by exact Hls.
  assert (Hlink : login_link q = login_link p) by reflexivity.
  unfold setupLoginButton. rewrite Hlink. destruct (login_link p) as [l|].
  - unfold andThen, onWorld.
    destruct (unavailable_storage_propagates_aux (world q) Hq) as (_ & _ & -> & _).
    by rewrite Page_eta.
  - rewrite setupGuard_ok. unfold onWorld.
    assert (Hg : localStorage (world (guardStage q)) = None)
      by (unfold guardStage; by destruct (postAQuest q)).
    destruct (unavailable_storage_propagates_aux (world (guardStage q)) Hg)
      as (_ & _ & _ & ->).
    by rewrite Page_eta.
Qed.

Lemma setupPageSpecificFeatures_ok (p : Page) :
  setupPageSpecificFeatures p = (Return tt, set_handlers (handlers p ++ features p) p).
Proof.
  unfold setupPageSpecificFeatures, features, andThen, when, addEventListener,
    addToggleListeners, setupPasswordToggles.
  destruct p as [w nl ll pq [] [] [] [] hs]; cbn [loginForm signupForm questForm
    adminLogout world handlers set_handlers];
    destruct (toggles w) as [|t ts] eqn:Ht;
    cbn [List.length Nat.ltb Nat.leb addListeners fmap list_fmap handlers set_handlers world];
    rewrite ?Ht; cbn [addListeners fmap list_fmap];
    by rewrite ?app_nil_r, <- ?app_assoc.
Qed.

(** X11.  A page load that fails installs no form listener.  If a
    navigation link has no [href], the [DOMContentLoaded] listener throws a
    [TypeError] in the highlight: the session, the login button and the
    listeners are as before.  If the links are in order and local storage
    is refused, it throws the storage error: the session and the button's
    label are as before, and the only listener that may have been added is
    the guard on "Post a Quest" (on a page without a login button).  In
    both cases no form, toggle or admin-logout listener is added. *)
Theorem failed_load_installs_nothing (p : Page) :
  let p' := snd (onDOMContentLoaded p) in
  (Exists (fun l => nav_href l = None) (navLinks p) ->
   fst (onDOMContentLoaded p) = Throw TypeError
   /\ world p' = world p /\ login_link p' = login_link p
   /\ handlers p' = handlers p)
  /\ (Forall (fun l => is_Some (nav_href l)) (navLinks p) ->
      localStorage (world p) = None ->
      fst (onDOMContentLoaded p) = Throw SecurityError
      /\ world p' = world p /\ login_link p' = login_link p
      /\ handlers p' =
           handlers p ++ (match login_link p with
                          | Some _ => []
                          | None => if postAQuest p then [GuardClick] else []
                          end)
      /\ filter (fun h => isFeature h = true) (handlers p')
         = filter (fun h => isFeature h = true) (handlers p)).
Proof.
  intros p'. subst p'. unfold onDOMContentLoaded, andThen. split.
  - intros Hmiss. destruct (setupGlobalUI_missing_href p Hmiss) as [links ->].
    by cbn [fst snd].
  - intros Hnav Hls. rewrite (setupGlobalUI_no_storage p Hnav Hls). cbn [fst snd].
    split; [done|].
    destruct (login_link p) as [l|] eqn:Hl.
    + cbn [world login_link handlers set_navLinks].
      by rewrite Hl, app_nil_r.
    + unfold guardStage. cbn [postAQuest set_navLinks].
      destruct (postAQuest p);
        cbn [world login_link handlers set_navLinks set_handlers];
        rewrite ?Hl, ?app_nil_r; [|done].
      split; [done|]. split; [done|]. split; [done|].
      rewrite filter_app. cbn. by rewrite app_nil_r.
Qed.

Lemma failed_load_installs_nothing_witness :
  fst (onDOMContentLoaded (brokenNavPage emptyWorld)) = Throw TypeError
  /\ handlers (snd (onDOMContentLoaded (brokenNavPage emptyWorld))) = []
  /\ fst (onDOMContentLoaded (examplePage noStorage)) = Throw SecurityError
  /\ handlers (snd (onDOMContentLoaded (examplePage noStorage))) = [].
Proof.
  destruct (failed_load_installs_nothing (brokenNavPage emptyWorld)) as [H _].
  destruct H as (H1 & _ & _ & H2).
  { apply Exists_cons. right. apply Exists_cons. by left. }
  destruct (failed_load_installs_nothing (examplePage noStorage)) as [_ H].
  destruct H as (H3 & _ & _ & H4 & _).
  { repeat constructor; by eexists. }
  { reflexivity. }
  split; [exact H1|]. split; [exact H2|]. split; [exact H3 | exact H4].
Defined.

Lemma features_after_redirect (p q : Page) (ls ss : gmap jsstring jsstring) :
  localStorage (world p) = Some ls -> sessionStorage (world p) = Some ss ->
  loginForm q = loginForm p -> signupForm q = signupForm p ->
  questForm q = questForm p -> adminLogout q = adminLogout p ->
  features (set_world (exec auth.redirectToQuestOnce (world p)) q) = features p.
Proof.
  intros Hls Hss H1 H2 H3 H4. unfold features, setupPasswordToggles.
  cbn [loginForm signupForm questForm adminLogout world set_world].
  rewrite H1, H2, H3, H4.
  assert (Hw : inputs (exec auth.redirectToQuestOnce (world p)) = inputs (world p)
               /\ toggles (exec auth.redirectToQuestOnce (world p)) = toggles (world p)).
  { unfold exec. rewrite (redirectToQuestOnce_exec (world p) ls ss Hls Hss). cbn [snd].
    destruct (ls !! auth.storageKey); [|done]. by destruct (_ || _ || _). }
  destruct Hw as [Hi Ht]. rewrite Ht.
  assert (Hadd : forall ts i, addListeners (exec auth.redirectToQuestOnce (world p)) i ts
                              = addListeners (world p) i ts).
  { induction ts as [|t ts IH]; intros i; [done|]. cbn [addListeners].
    by rewrite Hi, IH. }
  by rewrite Hadd.
Qed.

Lemma flags_stages (ls : gmap jsstring jsstring) (links : list NavLink) (p : Page) :
  let q := guardStage (buttonStage ls (set_navLinks links p)) in
  loginForm q = loginForm p /\ signupForm q = signupForm p
  /\ questForm q = questForm p /\ adminLogout q = adminLogout p.
Proof.
  unfold guardStage, buttonStage.
  destruct p as [w nl [l|] [] lf sf qf al hs]; cbn [login_link set_navLinks];
    by destruct (stored ls).
Qed.

Lemma features_isFeature (p : Page) (h : Handler) :
  h ∈ features p -> isFeature h = true.
Proof.
  unfold features. rewrite !elem_of_app.
  intros [H|[H|[H|[H|H]]]].
  - destruct (loginForm p); [|by apply elem_of_nil in H].
    by apply list_elem_of_singleton in H as ->.
  - destruct (signupForm p); [|by apply elem_of_nil in H].
    by apply list_elem_of_singleton in H as ->.
  - destruct (questForm p); [|by apply elem_of_nil in H].
    by apply list_elem_of_singleton in H as ->.
  - by apply list_elem_of_fmap in H as (l & -> & _).
  - destruct (adminLogout p); [|by apply elem_of_nil in H].
    by apply list_elem_of_singleton in H as ->.
Qed.

(** The page a successful load leaves. *)
Lemma successful_load_aux (p : Page) (ls ss : gmap jsstring jsstring) :
  Forall (fun l => is_Some (nav_href l)) (navLinks p) ->
  localStorage (world p) = Some ls ->
  sessionStorage (world p) = Some ss ->
  onDOMContentLoaded p =
    (Return tt,
     set_handlers
       (handlers (guardStage (buttonStage ls
                    (set_navLinks (markIf (currentPageOf p) <$> navLinks p) p)))
        ++ features p)
       (set_world (exec auth.redirectToQuestOnce (world p))
          (guardStage (buttonStage ls
             (set_navLinks (markIf (currentPageOf p) <$> navLinks p) p)))))
  /\ handlers (snd (onDOMContentLoaded p)) =
       handlers p
       ++ (match login_link p with
           | Some _ => if stored ls then [LogoutClick] else []
           | None => []
           end)
       ++ (if postAQuest p then [GuardClick] else [])
       ++ features p.
Proof.
  intros Hnav Hls Hss. unfold onDOMContentLoaded, andThen.
  rewrite (setupGlobalUI_ok p ls ss Hnav Hls Hss), setupPageSpecificFeatures_ok.
  destruct (flags_stages ls (markIf (currentPageOf p) <$> navLinks p) p)
    as (H1 & H2 & H3 & H4).
  rewrite (features_after_redirect p _ ls ss Hls Hss H1 H2 H3 H4).
  cbn [handlers set_world]. split; [done|].
  cbn [snd handlers set_handlers]. rewrite handlers_stages. by rewrite <- !app_assoc.
Qed.

(** X12.  A page load that succeeds.  With every navigation link carrying
    an [href] and storage available, the [DOMContentLoaded] listener
    returns; it touches the session only through [redirectToQuestOnce] (so
    on a page just arrived at it is [pageLoad]); the login button reads
    "Logout" when a user is stored and "Login" otherwise; and the listeners
    added are, in order: the logout click when the button exists and a user
    is stored, the guard when the page has "Post a Quest", then the
    listeners of the forms and widgets the page has. *)
Theorem successful_load (p : Page) (ls ss : gmap jsstring jsstring) :
  Forall (fun l => is_Some (nav_href l)) (navLinks p) ->
  localStorage (world p) = Some ls ->
  sessionStorage (world p) = Some ss ->
  let p' := snd (onDOMContentLoaded p) in
  fst (onDOMContentLoaded p) = Return tt
  /\ world p' = exec auth.redirectToQuestOnce (world p)
  /\ (href (world p) = None ->
      world p' = exec (pageLoad (pathname (world p))) (world p))
  /\ login_link p' =
       (fun _ => if stored ls then js "Logout" else js "Login") <$> login_link p
  /\ handlers p' =
       handlers p
       ++ (match login_link p with
           | Some _ => if stored ls then [LogoutClick] else []
           | None => []
           end)
       ++ (if postAQuest p then [GuardClick] else [])
       ++ features p.
Proof.
  intros Hnav Hls Hss p'. subst p'.
  destruct (successful_load_aux p ls ss Hnav Hls Hss) as [Heq Hh].
  split; [by rewrite Heq|]. split; [by rewrite Heq|]. split.
  { intros Hhref. rewrite Heq. cbn [snd world set_world set_handlers].
    unfold pageLoad, exec, bind, modify. cbn [fst snd].
    assert (arrive (pathname (world p)) (world p) = world p) as ->; [|done].
    unfold arrive. rewrite <- Hhref. apply World_eta. }
  split; [|exact Hh].
  rewrite Heq. cbn [snd login_link set_world set_handlers]. apply login_link_stages.
Qed.

Lemma successful_load_witness :
  let p := examplePage loggedInWorld in
  fst (onDOMContentLoaded p) = Return tt
  /\ login_link (snd (onDOMContentLoaded p)) = Some (js "Logout")
  /\ handlers (snd (onDOMContentLoaded p)) = [LogoutClick; GuardClick; LoginSubmit]
  /\ href (world (snd (onDOMContentLoaded p))) = Some (js "questBoard.html").
Proof.
  intros p.
  destruct (successful_load p {[ auth.storageKey := user (js "bob") ]} ∅)
    as (H1 & H2 & _ & H4 & H5).
  - repeat constructor; by eexists.
  - reflexivity.
  - reflexivity.
  - split; [exact H1|]. split; [exact H4|]. split; [exact H5|].
    rewrite H2. reflexivity.
Defined.

(** ** Click listeners of the page *)

(** X13.  The guard on "Post a Quest" decides when the link is clicked.
    With no user stored it cancels the click and asks for the login page
    with [return] set to the post page; with a user stored it lets the
    click through and changes nothing.  When storage is refused it throws
    before cancelling, so the click goes through to the post page. *)
Theorem guard_click (w : World) :
  (forall ls, localStorage w = Some ls -> ls !! auth.storageKey = None ->
     guardClick w =
       {| defaultPrevented := true; completion := Return tt;
          after := set_href (Some guardTarget) w |})
  /\ (forall ls, localStorage w = Some ls -> is_Some (ls !! auth.storageKey) ->
        guardClick w =
          {| defaultPrevented := false; completion := Return tt; after := w |})
  /\ (localStorage w = None ->
      guardClick w =
        {| defaultPrevented := false; completion := Throw SecurityError; after := w |})
  /\ guardTarget = js "/pages/auth/login.html?return=/pages/questgiver/postquest.html".
Proof.
  split; [|split; [|split; [|reflexivity]]].
  - intros ls Hls Hu. unfold guardClick.
    rewrite (isLoggedIn_exec w ls Hls). by rewrite Hu.
  - intros ls Hls [u Hu]. unfold guardClick.
    rewrite (isLoggedIn_exec w ls Hls). by rewrite Hu.
  - intros Hls. unfold guardClick.
    by destruct (unavailable_storage_propagates_aux w Hls) as (_ & _ & -> & _).
Qed.

Lemma guard_click_witness :
  guardClick emptyWorld =
    {| defaultPrevented := true; completion := Return tt;
       after := set_href (Some guardTarget) emptyWorld |}
  /\ guardClick loggedInWorld =
       {| defaultPrevented := false; completion := Return tt; after := loggedInWorld |}
  /\ guardClick noStorage =
       {| defaultPrevented := false; completion := Throw SecurityError;
          after := noStorage |}.
Proof.
  destruct (guard_click emptyWorld) as (H1 & _).
  destruct (guard_click loggedInWorld) as (_ & H2 & _).
  destruct (guard_click noStorage) as (_ & _ & H3 & _).
  split; [apply (H1 ∅ eq_refl), lookup_empty|].
  split; [|apply H3; reflexivity].
  apply (H2 {[ auth.storageKey := user (js "bob") ]} eq_refl).
  rewrite lookup_singleton_eq. by eexists.
Defined.

Lemma pageLoad_logged_out (w : World) (ls : gmap jsstring jsstring) (path : jsstring) :
  localStorage w = Some ls -> ls !! auth.storageKey = None ->
  exec (pageLoad path) w = arrive path w.
Proof.
  intros Hls Hu. unfold pageLoad. run. rewrite Hls. simpl. by rewrite Hu.
Qed.

Lemma logout_then_home (w : World) (ls ss : gmap jsstring jsstring) :
  localStorage w = Some ls -> sessionStorage w = Some ss ->
  (auth.logout ;; modify (set_href (Some routes.home))) w
  = (Return tt, set_href (Some routes.home) (signedOut ls ss w)).
Proof.
  intros Hls Hss. unfold bind. by rewrite (logout_exec w ls ss Hls Hss).
Qed.

(** X14.  The logout button and the admin logout.  With storage available
    the "Logout" listener cancels the click, removes the user and the
    redirect flag and asks for [/index.html]; afterwards [isLoggedIn()] is
    false and no page load redirects.  The admin logout leaves the same
    world.  With storage refused the "Logout" listener still cancels the
    click and then throws: nothing is written and no navigation happens.
    After a successful load the button logs out exactly when a user was
    stored at load time; otherwise it has no listener. *)
Theorem logout_button :
  (forall (w : World) (ls ss : gmap jsstring jsstring),
      localStorage w = Some ls -> sessionStorage w = Some ss ->
      let w' := set_href (Some (js "/index.html")) (signedOut ls ss w) in
      logoutClick w = {| defaultPrevented := true; completion := Return tt; after := w' |}
      /\ adminLogoutClick w = (Return tt, w')
      /\ result auth.isLoggedIn w' = Return false
      /\ forall path, exec (pageLoad path) w' = arrive path w')
  /\ (forall w : World,
         localStorage w = None ->
         logoutClick w =
           {| defaultPrevented := true; completion := Throw SecurityError; after := w |})
  /\ (forall (p : Page) (ls ss : gmap jsstring jsstring) (label : jsstring),
         Forall (fun l => is_Some (nav_href l)) (navLinks p) ->
         localStorage (world p) = Some ls -> sessionStorage (world p) = Some ss ->
         login_link p = Some label -> LogoutClick ∉ handlers p ->
         let p' := snd (onDOMContentLoaded p) in
         clickLoginLink p' =
           if stored ls then logoutClick (world p') else noListener (world p')).
Proof.
  split; [|split].
  - intros w ls ss Hls Hss w'. split; [|split; [|split]].
    + unfold logoutClick. by rewrite (logout_then_home w ls ss Hls Hss).
    + unfold adminLogoutClick. by rewrite (logout_then_home w ls ss Hls Hss).
    + unfold result. erewrite isLoggedIn_exec by reflexivity. cbn [fst].
      by rewrite lookup_delete_eq.
    + intros path. apply (pageLoad_logged_out w' (delete auth.storageKey ls)); [done|].
      apply lookup_delete_eq.
  - intros w Hls. unfold logoutClick, bind.
    by destruct (unavailable_storage_propagates_aux w Hls) as (_ & -> & _).
  - intros p ls ss label Hnav Hls Hss Hlabel Hnot p'.
    destruct (successful_load_aux p ls ss Hnav Hls Hss) as [_ Hh].
    fold p' in Hh. unfold clickLoginLink. rewrite Hh, Hlabel.
    destruct (stored ls).
    + rewrite bool_decide_eq_true_2; [done|].
      apply elem_of_app. right. apply elem_of_app. left. by left.
    + rewrite bool_decide_eq_false_2; [done|].
      intros Hin. apply elem_of_app in Hin as [Hin|Hin]; [done|].
      apply elem_of_app in Hin as [Hin|Hin]; [by apply elem_of_nil in Hin|].
      apply elem_of_app in Hin as [Hin|Hin].
      * destruct (postAQuest p); [|by apply elem_of_nil in Hin].
        by apply list_elem_of_singleton in Hin.
      * by apply features_isFeature in Hin.
Qed.

Lemma logout_button_witness :
  logoutClick loggedInWorld =
    {| defaultPrevented := true; completion := Return tt;
       after := set_href (Some (js "/index.html"))
                  (signedOut {[ auth.storageKey := user (js "bob") ]} ∅ loggedInWorld) |}
  /\ logoutClick noStorage =
       {| defaultPrevented := true; completion := Throw SecurityError; after := noStorage |}
  /\ clickLoginLink (snd (onDOMContentLoaded (examplePage emptyWorld)))
     = noListener (world (snd (onDOMContentLoaded (examplePage emptyWorld)))).
Proof.
  destruct logout_button as (H1 & H2 & H3).
  destruct (H1 loggedInWorld {[ auth.storageKey := user (js "bob") ]} ∅ eq_refl eq_refl)
    as (Ha & _).
  split; [exact Ha|]. split; [apply H2; reflexivity|].
  refine (H3 (examplePage emptyWorld) ∅ ∅ (js "Login") _ eq_refl eq_refl eq_refl _).
  - repeat constructor; by eexists.
  - apply not_elem_of_nil.
Defined.

(** ** The forms, continued *)

Lemma count_by_class (ms1 ms2 : list Message) :
  msg_className <$> ms1 = msg_className <$> ms2 ->
  List.length (filter (fun m => isMessage m = true) ms1)
  = List.length (filter (fun m => isMessage m = true) ms2).
Proof.
  revert ms2. induction ms1 as [|m1 ms1 IH]; intros [|m2 ms2] H; try done.
  injection H as Hc Hrest. rewrite !filter_cons.
  assert (isMessage m1 = isMessage m2) as Hm by (unfold isMessage, hasClass; by rewrite Hc).
  rewrite Hm. destruct (decide (isMessage m2 = true)); cbn; by rewrite (IH ms2 Hrest).
Qed.

Lemma cleared_count (w : World) :
  List.length (filter (fun m => isMessage m = true) (cleared w)) = 0%nat.
Proof.
  unfold cleared. induction (messages w) as [|m ms IH]; [done|].
  rewrite filter_cons. destruct (decide (isMessage m = false)) as [E|E]; [|exact IH].
  rewrite filter_cons. destruct (decide (isMessage m = true)); [congruence|exact IH].
Qed.

Lemma count_snoc (w : World) (m : Message) :
  (List.length (filter (fun m => isMessage m = true) (cleared w ++ [m])) <= 1)%nat.
Proof.
  rewrite filter_app, length_app, cleared_count, filter_cons.
  destruct (decide (isMessage m = true)); cbn; lia.
Qed.

Lemma insertIntoSuccess_class (c : Checkmark) (ms : list Message) :
  msg_className <$> insertIntoSuccess c ms = msg_className <$> ms.
Proof.
  induction ms as [|m ms IH]; [done|]. cbn [insertIntoSuccess].
  destruct (hasClass _ m); [done|]. cbn. by rewrite IH.
Qed.

Lemma withChild_class (f : Message -> option Checkmark) (ms : list Message) :
  msg_className <$> ((fun m => withChild (f m) m) <$> ms) = msg_className <$> ms.
Proof. induction ms as [|m ms IH]; [done|]. cbn. by rewrite IH. Qed.

Lemma login_messages (w : World) :
  messages (exec setupLoginForm w) = cleared w
  \/ exists m, messages (exec setupLoginForm w) = cleared w ++ [m].
Proof.
  unfold setupLoginForm. run. fold (cleared w).
  destruct (inputs w !! js "username") as [cu|]; simpl; [|by left].
  destruct (inputs w !! js "password") as [cp|]; simpl; [|by left].
  destruct (negb (truthy (trim (value cu))) || negb (truthy (value cp))); simpl.
  { right. by eexists. }
  destruct (bool_decide (trim (value cu) = js "admin") && bool_decide (value cp = js "admin123")).
  - simpl. destruct (localStorage w); simpl; right; by eexists.
  - simpl. destruct (localStorage w); simpl; by left.
Qed.

Lemma signup_messages (w : World) :
  messages (exec setupSignupForm w) = cleared w
  \/ exists m, messages (exec setupSignupForm w) = cleared w ++ [m].
Proof.
  unfold setupSignupForm. run. fold (cleared w).
  destruct (inputs w !! js "fullname") as [cn|]; simpl; [|by left].
  destruct (inputs w !! js "email") as [ce|]; simpl; [|by left].
  destruct (inputs w !! js "password") as [cp|]; simpl; [|by left].
  destruct (inputs w !! js "confirm-password") as [cc|]; simpl; [|by left].
  destruct (_ || _ || _); simpl; [right; by eexists|].
  destruct (_ <? _)%nat; simpl; [right; by eexists|].
  destruct (negb _); simpl; right; by eexists.
Qed.

Lemma quest_messages (w : World) :
  msg_className <$> messages (exec setupQuestForm w) = msg_className <$> cleared w
  \/ exists m, msg_className <$> messages (exec setupQuestForm w)
               = msg_className <$> (cleared w ++ [m]).
Proof.
  unfold setupQuestForm. run. fold (cleared w).
  destruct (inputs w !! js "questTitle") as [ct|]; simpl; [|by left].
  destruct (inputs w !! js "questBudget") as [cb|]; simpl; [|by left].
  destruct (inputs w !! js "questDesc") as [cd|]; simpl; [|by left].
  destruct (_ || _ || _); simpl; [right; by eexists|].
  destruct (getCheckmark _) as [c|]; simpl; [|right; by eexists].
  right. exists questSuccess. unfold prependCheckmark.
  destruct (getCheckmark _) as [c'|]; simpl.
  - destruct (existsb _ _); simpl.
    + rewrite insertIntoSuccess_class.
      rewrite (withChild_class (fun _ => None)).
      rewrite !fmap_app. f_equal.
      apply (withChild_class (fun m => (fun _ => {| display := js "inline-block" |}) <$> msg_child m)).
    + rewrite !fmap_app. f_equal.
      apply (withChild_class (fun m => (fun _ => {| display := js "inline-block" |}) <$> msg_child m)).
  - rewrite !fmap_app. f_equal.
    apply (withChild_class (fun m => (fun _ => {| display := js "inline-block" |}) <$> msg_child m)).
Qed.

(** X15.  One message at a time.  Whatever the page holds, after a submit
    listener of the login, signup or quest form has run (also when it
    threw), the document holds at most one element that the selector
    [.error, .success] matches, that is, whose class list holds [error] or
    [success], alone or among other classes: every earlier one has been
    removed, wherever in the document it stood. *)
Theorem one_message_at_a_time (w : World) :
  (shownCount (exec setupLoginForm w) <= 1)%nat
  /\ (shownCount (exec setupSignupForm w) <= 1)%nat
  /\ (shownCount (exec setupQuestForm w) <= 1)%nat.
Proof.
  unfold shownCount. split; [|split].
  - destruct (login_messages w) as [->|[m ->]]; [rewrite cleared_count; lia|apply count_snoc].
  - destruct (signup_messages w) as [->|[m ->]]; [rewrite cleared_count; lia|apply count_snoc].
  - destruct (quest_messages w) as [H|[m H]]; rewrite (count_by_class _ _ H);
      [rewrite cleared_count; lia|apply count_snoc].
Qed.

Lemma snoc_neq {A} (l : list A) (x : A) : l ++ [x] ≠ l.
Proof.
  intros H. apply (f_equal List.length) in H. rewrite length_app in H. cbn in H. lia.
Qed.

(** X16.  Signup creates nothing.  Whatever the page holds, the signup
    listener writes neither store, assigns no location and changes no
    field; the only thing it may leave besides its message is one timer,
    the navigation to [login.html] after 1000 ms.  With the four fields
    present, that timer is set exactly when name and email are non-blank,
    the password has at least six code units and equals its
    confirmation. *)
Theorem signup_creates_nothing (w : World) :
  let w' := exec setupSignupForm w in
  localStorage w' = localStorage w
  /\ sessionStorage w' = sessionStorage w
  /\ href w' = href w
  /\ inputs w' = inputs w
  /\ (timers w' = timers w \/ timers w' = timers w ++ [(1000, js "login.html")])
  /\ (forall cn ce cp cc : Control,
         inputs w !! js "fullname" = Some cn ->
         inputs w !! js "email" = Some ce ->
         inputs w !! js "password" = Some cp ->
         inputs w !! js "confirm-password" = Some cc ->
         (timers w' = timers w ++ [(1000, js "login.html")]
          <-> trim (value cn) ≠ [] /\ trim (value ce) ≠ []
              /\ (6 <= List.length (value cp))%nat /\ value cp = value cc)).
Proof.
  intros w'.
  assert (Hframe : localStorage w' = localStorage w /\ sessionStorage w' = sessionStorage w
                   /\ href w' = href w /\ inputs w' = inputs w
                   /\ (timers w' = timers w \/ timers w' = timers w ++ [(1000, js "login.html")])).
  { subst w'. unfold setupSignupForm. run.
    assert (Hleft : forall (A B : Prop), A -> A \/ B) by (intros; by left).
    destruct (inputs w !! js "fullname") as [cn|]; simpl; [|by repeat split; auto].
    destruct (inputs w !! js "email") as [ce|]; simpl; [|by repeat split; auto].
    destruct (inputs w !! js "password") as [cp|]; simpl; [|by repeat split; auto].
    destruct (inputs w !! js "confirm-password") as [cc|]; simpl; [|by repeat split; auto].
    destruct (_ || _ || _); simpl; [by repeat split; auto|].
    destruct (_ <? _)%nat; simpl; [by repeat split; auto|].
    destruct (negb _); simpl; [by repeat split; auto|].
    repeat split. by right. }
  destruct Hframe as (H1 & H2 & H3 & H4 & H5).
  split; [done|]. split; [done|]. split; [done|]. split; [done|]. split; [done|].
  intros cn ce cp cc Hn He Hp Hc. subst w'. unfold exec.
  rewrite (signup_exec w cn ce cp cc Hn He Hp Hc). cbn [snd].
  destruct (truthy (trim (value cn))) eqn:E1; cbn [negb orb].
  2:{ cbn [timers set_messages]. split; [by intros ?%symmetry%snoc_neq|].
      intros (H & _). by apply truthy_nonempty in H; congruence. }
  destruct (truthy (trim (value ce))) eqn:E2; cbn [negb orb].
  2:{ cbn [timers set_messages]. split; [by intros ?%symmetry%snoc_neq|].
      intros (_ & H & _). by apply truthy_nonempty in H; congruence. }
  destruct (truthy (value cp)) eqn:E3; cbn [negb orb].
  2:{ cbn [timers set_messages]. split; [by intros ?%symmetry%snoc_neq|].
      intros (_ & _ & H & _). apply truthy_empty in E3. rewrite E3 in H. cbn in H. lia. }
  destruct (List.length (value cp) <? 6)%nat eqn:E4.
  { cbn [timers set_messages]. split; [by intros ?%symmetry%snoc_neq|].
    intros (_ & _ & H & _). apply Nat.ltb_lt in E4. lia. }
  apply Nat.ltb_ge in E4.
  destruct (bool_decide (value cp = value cc)) eqn:E5; cbn [negb].
  - apply bool_decide_eq_true in E5. cbn [timers set_timers set_messages].
    apply truthy_nonempty in E1, E2. by split.
  - apply bool_decide_eq_false in E5. cbn [timers set_messages].
    split; [by intros ?%symmetry%snoc_neq|]. by intros (_ & _ & _ & H).
Qed.

Lemma signup_creates_nothing_witness :
  let w := signupPage (js "Ann") (js "ann@example.org") (js "123456") (js "123456") in
  localStorage (exec setupSignupForm w) = localStorage w
  /\ href (exec setupSignupForm w) = None
  /\ timers (exec setupSignupForm w) = [(1000, js "login.html")].
Proof.
  intros w.
  destruct (signup_creates_nothing w) as (H1 & _ & H3 & _ & _ & H6).
  split; [exact H1|]. split; [exact H3|].
  apply (H6 _ _ _ _ eq_refl eq_refl eq_refl eq_refl).
  split; [vm_compute; discriminate|]. split; [vm_compute; discriminate|].
  split; [vm_compute; lia | reflexivity].
Defined.

(** X17.  The quest form does not look at the session.  Its listener
    gives the same result on the same page whatever the two stores hold
    (also when storage is refused), and it leaves the stores, the location
    and the timers as they were: the form can be submitted logged out. *)
Theorem quest_ignores_session (w : World)
    (s1 s2 : option (gmap jsstring jsstring)) :
  setupQuestForm (set_sessionStorage s2 (set_localStorage s1 w))
  = (fst (setupQuestForm w),
     set_sessionStorage s2 (set_localStorage s1 (snd (setupQuestForm w))))
  /\ localStorage (exec setupQuestForm w) = localStorage w
  /\ sessionStorage (exec setupQuestForm w) = sessionStorage w
  /\ href (exec setupQuestForm w) = href w
  /\ timers (exec setupQuestForm w) = timers w.
Proof.
  destruct w as [ls ss pn rp hr ins ms cm tm tg].
  unfold setupQuestForm. run.
  destruct (ins !! js "questTitle") as [ct|]; simpl; [|repeat split; reflexivity].
  destruct (ins !! js "questBudget") as [cb|]; simpl; [|repeat split; reflexivity].
  destruct (ins !! js "questDesc") as [cd|]; simpl; [|repeat split; reflexivity].
  destruct (_ || _ || _); simpl; [repeat split; reflexivity|].
  unfold prependCheckmark, setCheckmarkDisplay, getCheckmark, set_checkmark,
    set_inputs, set_messages, set_sessionStorage, set_localStorage.
  simpl.
  destruct cm as [c|]; simpl; rewrite ?existsb_app; simpl; rewrite ?orb_true_r;
    [repeat split; reflexivity|].
  destruct (head (omap msg_child (filter _ ms))) as [c|]; simpl;
    rewrite ?existsb_app; simpl; rewrite ?orb_true_r;
    [|repeat split; reflexivity].
  destruct (head (omap msg_child _)); repeat split; reflexivity.
Qed.

(** X18.  The login listener when something is missing.  Without the
    username or the password field it throws a [TypeError] after clearing
    the messages, and nothing else has changed.  With storage refused, a
    valid ordinary login throws the storage error with no message and no
    navigation; the admin pair shows "Admin login successful!
    Redirecting..." first and then throws, so the page announces a login
    that did not happen and stays where it is. *)
Theorem login_when_something_is_missing (w : World) :
  (inputs w !! js "username" = None \/
   (is_Some (inputs w !! js "username") /\ inputs w !! js "password" = None) ->
   setupLoginForm w = (Throw TypeError, set_messages (cleared w) w))
  /\ (forall cu cp : Control,
         inputs w !! js "username" = Some cu ->
         inputs w !! js "password" = Some cp ->
         localStorage w = None ->
         trim (value cu) ≠ [] -> value cp ≠ [] ->
         (isAdmin (trim (value cu)) (value cp) = false ->
          setupLoginForm w = (Throw SecurityError, set_messages (cleared w) w))
         /\ (isAdmin (trim (value cu)) (value cp) = true ->
             setupLoginForm w =
               (Throw SecurityError,
                set_messages
                  (cleared w ++ [newMessage (js "Admin login successful! Redirecting...")
                                   (js "success")]) w))).
Proof.
  split.
  - intros [Hu|[[cu Hu] Hp]]; unfold setupLoginForm; run; rewrite Hu; simpl; [done|].
    by rewrite Hp.
  - intros cu cp Hu Hp Hls Hname%truthy_nonempty Hpass%truthy_nonempty.
    unfold isAdmin. split; intros Hadmin; unfold setupLoginForm; run;
      rewrite Hu; simpl; rewrite Hp; simpl; rewrite Hname, Hpass, Hadmin; simpl;
      by rewrite Hls.
Qed.

Lemma login_when_something_is_missing_witness :
  setupLoginForm emptyWorld = (Throw TypeError, set_messages (cleared emptyWorld) emptyWorld)
  /\ setupLoginForm (set_localStorage None (loginPage (js "admin") (js "admin123") None))
     = (Throw SecurityError,
        set_messages
          [newMessage (js "Admin login successful! Redirecting...") (js "success")]
          (set_localStorage None (loginPage (js "admin") (js "admin123") None))).
Proof.
  destruct (login_when_something_is_missing emptyWorld) as [H1 _].
  destruct (login_when_something_is_missing
              (set_localStorage None (loginPage (js "admin") (js "admin123") None)))
    as [_ H2].
  split; [apply H1; by left|].
  destruct (H2 _ _ (loginPage_username _ _ _) (loginPage_password _ _ _) eq_refl)
    as [_ H3]; [vm_compute; discriminate..|].
  apply H3. reflexivity.
Defined.

(** ** Password toggles, continued *)

Lemma setType_setType (c : Control) (ty1 ty2 : jsstring) :
  setType ty2 (setType ty1 c) = setType ty2 c.
Proof. reflexivity. Qed.

(** A click on a page where the button's field and label were last set by
    the listener. *)
Lemma onClick_again (l : Listener) (w : World) (c : Control) (ty lab : jsstring) :
  onClick l
    (set_toggles (alter (setLabel lab) (btn l) (toggles w))
       (set_inputs (<[passwordInput l := setType ty c]> (inputs w)) w))
  = set_toggles (alter (setLabel (newLabel (setType ty c))) (btn l) (toggles w))
      (set_inputs (<[passwordInput l := setType (newType (setType ty c)) c]> (inputs w)) w).
Proof.
  rewrite (onClick_bound l _ (setType ty c)) by apply lookup_insert_eq.
  unfold set_toggles, set_inputs.
  cbn [localStorage sessionStorage pathname returnParam href inputs messages
       checkmark timers toggles].
  rewrite insert_insert_eq, list_alter_alter_eq, setType_setType.
  reflexivity.
Qed.

(** X19.  The toggle falls into a cycle of two states.  For a toggle whose
    target exists, whatever the field's type and the label were, a third
    click leaves the page as the first did.  A field whose type is anything
    but [password] counts as revealed: the first click makes it a password
    field labelled "Show", the second a text field labelled "Hide", so the
    original type of, say, an email field does not come back. *)
Theorem toggle_cycle (w : World) (i : nat) (t : Toggle) (c : Control) :
  toggles w !! i = Some t ->
  inputs w !! inputId t = Some c ->
  let f := click (setupPasswordToggles w) i in
  f (f (f w)) = f w
  /\ (type c ≠ js "password" ->
      inputs (f w) !! inputId t = Some (setType (js "password") c)
      /\ toggles (f w) !! i = Some (setLabel (js "Show") t)
      /\ inputs (f (f w)) !! inputId t = Some (setType (js "text") c)
      /\ toggles (f (f w)) !! i = Some (setLabel (js "Hide") t)).
Proof.
  intros Ht Hc f.
  set (l := {| btn := i; passwordInput := inputId t |}).
  assert (Hf : forall w', f w' = onClick l w')
    by (intros w'; apply (click_setup w i t c w' Ht Hc)).
  assert (H1 : f w = set_toggles (alter (setLabel (newLabel c)) i (toggles w))
                       (set_inputs (<[inputId t := setType (newType c) c]> (inputs w)) w)).
  { rewrite Hf. apply (onClick_bound l w c Hc). }
  assert (H2 : f (f w) =
               set_toggles (alter (setLabel (newLabel (setType (newType c) c))) i (toggles w))
                 (set_inputs (<[inputId t := setType (newType (setType (newType c) c)) c]>
                                (inputs w)) w)).
  { rewrite H1, Hf. apply (onClick_again l w c). }
  split.
  - rewrite H2, Hf, (onClick_again l w c), H1.
    unfold newType, newLabel. cbn [type setType].
    destruct (bool_decide (type c = js "password")); reflexivity.
  - intros Hty. rewrite H2, H1. unfold newType, newLabel. cbn [type setType].
    rewrite (bool_decide_eq_false_2 _ Hty).
    cbn [inputs toggles set_toggles set_inputs].
    rewrite !lookup_insert_eq, !list_lookup_alter_eq, Ht. repeat split; reflexivity.
Qed.

Lemma toggle_cycle_witness :
  let f := click (setupPasswordToggles togglePage) 1 in
  f (f (f togglePage)) = f togglePage.
Proof.
  intros f.
  destruct (toggle_cycle togglePage 1
              {| data_for := Some (js "confirm-password"); btn_textContent := js "Show" |}
              {| value := js "hunter2"; defaultValue := []; type := js "password" |}
              eq_refl eq_refl) as [H _].
  exact H.
Defined.

(** X20.  Two toggles on one field get out of step.  When two buttons
    name the same masked field, a click on the first and then on the second
    leaves the field masked, the second button labelled "Show" and the
    first still labelled "Hide". *)
Theorem toggles_sharing_a_field (w : World) (i j : nat) (ti tj : Toggle) (c : Control) :
  i ≠ j ->
  toggles w !! i = Some ti -> toggles w !! j = Some tj ->
  inputId tj = inputId ti ->
  inputs w !! inputId ti = Some c ->
  type c = js "password" ->
  let ls := setupPasswordToggles w in
  let w2 := click ls j (click ls i w) in
  inputs w2 !! inputId ti = Some c
  /\ toggles w2 !! i = Some (setLabel (js "Hide") ti)
  /\ toggles w2 !! j = Some (setLabel (js "Show") tj).
Proof.
  intros Hij Hti Htj Hid Hc Hty ls w2. subst w2 ls.
  assert (Hcj : inputs w !! inputId tj = Some c) by (by rewrite Hid).
  rewrite (click_setup w i ti c _ Hti Hc), (click_setup w j tj c _ Htj Hcj).
  rewrite (onClick_bound {| btn := i; passwordInput := inputId ti |} w c Hc).
  cbn [btn passwordInput]. rewrite Hid.
  rewrite (onClick_bound {| btn := j; passwordInput := inputId ti |} _
             (setType (newType c) c))
    by apply lookup_insert_eq.
  cbn [btn passwordInput inputs toggles set_toggles set_inputs].
  unfold newType, newLabel. cbn [type setType]. rewrite (bool_decide_eq_true_2 _ Hty).
  rewrite (bool_decide_eq_false_2 (js "text" = js "password")) by (vm_compute; discriminate).
  rewrite lookup_insert_eq. split.
  { f_equal. rewrite <- Hty. apply setType_back. }
  split.
  - rewrite list_lookup_alter_ne by done. by rewrite list_lookup_alter_eq, Hti.
  - rewrite list_lookup_alter_eq, list_lookup_alter_ne by done. by rewrite Htj.
Qed.

(** One password field with two buttons. *)
Lemma toggles_sharing_a_field_witness :
  let w := set_toggles
             [ {| data_for := Some (js "password"); btn_textContent := js "Show" |};
               {| data_for := Some (js "password"); btn_textContent := js "Show" |} ]
             togglePage in
  let ls := setupPasswordToggles w in
  toggles (click ls 1 (click ls 0 w)) !! 0%nat
  = Some {| data_for := Some (js "password"); btn_textContent := js "Hide" |}.
Proof.
  intros w ls.
  destruct (toggles_sharing_a_field w 0 1
              {| data_for := Some (js "password"); btn_textContent := js "Show" |}
              {| data_for := Some (js "password"); btn_textContent := js "Show" |}
              {| value := js "hunter2"; defaultValue := []; type := js "password" |}
              ltac:(lia) eq_refl eq_refl eq_refl eq_refl eq_refl)
    as (_ & H & _).
  exact H.
Defined.

(** ** The profile menu *)

Lemma setupQuestViewCTA_handlers (p0 : ProfilePage) :
  profileBtn p0 = true -> profileMenu p0 = true -> profileHandlers p0 = [] ->
  profileHandlers (setupQuestViewCTA p0) =
    [TriggerClick; DocumentClick]
    ++ (if accountBtn p0 then [AccountClick] else [])
    ++ (if settingsBtn p0 then [SettingsClick] else [])
    ++ (if signoutBtn p0 then [SignoutClick] else [])
  /\ setupQuestViewCTA p0 =
       set_profileHandlers (profileHandlers (setupQuestViewCTA p0)) p0.
Proof.
  intros Hb Hm Hh. unfold setupQuestViewCTA. rewrite Hb, Hm, Hh. by cbn.
Qed.

Lemma set_up_has_trigger (p0 : ProfilePage) (open : bool) :
  profileBtn p0 = true -> profileMenu p0 = true -> profileHandlers p0 = [] ->
  TriggerClick ∈ profileHandlers (set_menuOpen open (setupQuestViewCTA p0))
  /\ DocumentClick ∈ profileHandlers (set_menuOpen open (setupQuestViewCTA p0)).
Proof.
  intros Hb Hm Hh. destruct (setupQuestViewCTA_handlers p0 Hb Hm Hh) as [H _].
  cbn [profileHandlers set_menuOpen]. rewrite H. split.
  - by left.
  - right. by left.
Qed.

(** X21.  The profile menu opens and closes.  On a page that has the
    profile button and the menu, after [setupQuestViewCTA]: a click on the
    button flips the menu and two clicks leave the page as it was; a click
    outside the menu closes it, and a second one changes nothing more; a
    click inside the menu, on none of the items, changes nothing.  None of
    these touches storage or the location. *)
Theorem profile_menu_opens_and_closes (p0 : ProfilePage) :
  profileBtn p0 = true -> profileMenu p0 = true -> profileHandlers p0 = [] ->
  let p := setupQuestViewCTA p0 in
  profileClick OnTrigger p = (Return tt, set_menuOpen (negb (menuOpen p)) p)
  /\ snd (profileClick OnTrigger (snd (profileClick OnTrigger p))) = p
  /\ profileClick Elsewhere p = (Return tt, set_menuOpen false p)
  /\ profileClick Elsewhere (snd (profileClick Elsewhere p))
     = (Return tt, set_menuOpen false p)
  /\ profileClick InsideMenu p = (Return tt, p)
  /\ (forall t, t = OnTrigger \/ t = Elsewhere \/ t = InsideMenu ->
        pp_world (snd (profileClick t p)) = pp_world p).
Proof.
  intros Hb Hm Hh p.
  destruct (set_up_has_trigger p0 (menuOpen p) Hb Hm Hh) as [Ht Hd].
  assert (Hp : set_menuOpen (menuOpen p) p = p) by (by destruct p).
  fold p in Ht, Hd. rewrite Hp in Ht, Hd.
  assert (H1 : profileClick OnTrigger p = (Return tt, set_menuOpen (negb (menuOpen p)) p)).
  { unfold profileClick. by rewrite (bool_decide_eq_true_2 _ Ht). }
  assert (H3 : profileClick Elsewhere p = (Return tt, set_menuOpen false p)).
  { unfold profileClick, thenDocument. by rewrite (bool_decide_eq_true_2 _ Hd). }
  assert (H5 : profileClick InsideMenu p = (Return tt, p)).
  { unfold profileClick, thenDocument. by rewrite (bool_decide_eq_true_2 _ Hd). }
  split; [done|]. split.
  { rewrite H1. cbn [snd]. unfold profileClick.
    cbn [profileHandlers set_menuOpen]. rewrite (bool_decide_eq_true_2 _ Ht).
    cbn [snd]. unfold onTrigger. cbn [menuOpen set_menuOpen].
    rewrite negb_involutive. by destruct p. }
  split; [done|]. split.
  { rewrite H3. cbn [snd]. unfold profileClick, thenDocument.
    cbn [profileHandlers set_menuOpen]. by rewrite (bool_decide_eq_true_2 _ Hd). }
  split; [done|].
  intros t [-> | [-> | ->]]; by rewrite ?H1, ?H3, ?H5.
Qed.

Lemma profile_menu_opens_and_closes_witness :
  let p := setupQuestViewCTA (profileExample emptyWorld false) in
  menuOpen (snd (profileClick OnTrigger p)) = true
  /\ snd (profileClick OnTrigger (snd (profileClick OnTrigger p))) = p
  /\ menuOpen (snd (profileClick Elsewhere (snd (profileClick OnTrigger p)))) = false.
Proof.
  intros p.
  destruct (profile_menu_opens_and_closes (profileExample emptyWorld false)
              eq_refl eq_refl eq_refl) as (H1 & H2 & _).
  split; [|split; [exact H2|reflexivity]].
  fold p in H1. by rewrite H1.
Defined.

(** X22.  The items of the profile menu.  On a page set up with the button,
    the menu and the three items, with storage available: "account" and
    "settings" close the menu and ask for their page, leaving both stores
    alone; "sign out" closes the menu, removes the user and the redirect
    flag and asks for the home page, and [isLoggedIn()] is false
    afterwards.  With storage refused, "sign out" closes the menu and
    throws: no navigation follows. *)
Theorem profile_menu_items (p0 : ProfilePage) :
  profileBtn p0 = true -> profileMenu p0 = true -> profileHandlers p0 = [] ->
  accountBtn p0 = true -> settingsBtn p0 = true -> signoutBtn p0 = true ->
  let p := setupQuestViewCTA p0 in
  let w := pp_world p0 in
  profileClick OnAccount p =
    (Return tt, set_pp_world (set_href (Some (accountPath (pathname w))) w)
                  (set_menuOpen false p))
  /\ profileClick OnSettings p =
       (Return tt, set_pp_world (set_href (Some (settingsPath (pathname w))) w)
                     (set_menuOpen false p))
  /\ (forall ls ss : gmap jsstring jsstring,
         localStorage w = Some ls -> sessionStorage w = Some ss ->
         profileClick OnSignout p =
           (Return tt,
            set_pp_world (set_href (Some (indexPath (pathname w))) (signedOut ls ss w))
              (set_menuOpen false p))
         /\ result auth.isLoggedIn (pp_world (snd (profileClick OnSignout p)))
            = Return false)
  /\ (localStorage w = None ->
      profileClick OnSignout p = (Throw SecurityError, set_menuOpen false p)).
Proof.
  intros Hb Hm Hh Ha Hs Ho p w.
  destruct (setupQuestViewCTA_handlers p0 Hb Hm Hh) as [Hh' Hp]. fold p in Hh', Hp.
  rewrite Ha, Hs, Ho in Hh'. cbn [app] in Hh'.
  assert (Hw : pp_world p = w) by (subst p w; by rewrite Hp).
  assert (Hdoc : forall (o : outcome unit) (q : ProfilePage),
             profileHandlers q = profileHandlers p -> menuOpen q = false ->
             thenDocument (itemsInMenu p) (o, q) = (o, q)).
  { intros o q Hq Hclosed. unfold thenDocument, onDocument, closeMenu.
    destruct (bool_decide _); [|done]. destruct (negb (itemsInMenu p)); [|done].
    destruct q; cbn in Hclosed; by subst. }
  split; [|split; [|split]].
  - unfold profileClick, runItem. rewrite Hh'.
    rewrite bool_decide_eq_true_2 by (do 2 right; by left).
    unfold onAccount, navigateTo, closeMenu. cbn [pp_world set_menuOpen]. rewrite Hw.
    by apply Hdoc.
  - unfold profileClick, runItem. rewrite Hh'.
    rewrite bool_decide_eq_true_2 by (do 3 right; by left).
    unfold onSettings, navigateTo, closeMenu. cbn [pp_world set_menuOpen]. rewrite Hw.
    by apply Hdoc.
  - intros ls ss Hls Hss.
    assert (Hclick : profileClick OnSignout p =
              (Return tt,
               set_pp_world (set_href (Some (indexPath (pathname w))) (signedOut ls ss w))
                 (set_menuOpen false p))).
    { unfold profileClick, runItem. rewrite Hh'.
      rewrite bool_decide_eq_true_2 by (do 4 right; by left).
      unfold onSignout, navigateTo, closeMenu. cbn [pp_world set_menuOpen]. rewrite Hw.
      rewrite (logout_exec w ls ss Hls Hss). fold (signedOut ls ss w).
      cbn [pp_world set_pp_world]. by apply Hdoc. }
    split; [done|]. rewrite Hclick. cbn [snd pp_world set_pp_world].
    unfold result. erewrite isLoggedIn_exec by reflexivity. cbn [fst].
    by rewrite lookup_delete_eq.
  - intros Hls. unfold profileClick, runItem. rewrite Hh'.
    rewrite bool_decide_eq_true_2 by (do 4 right; by left).
    unfold onSignout, closeMenu. cbn [pp_world set_menuOpen]. rewrite Hw.
    destruct (unavailable_storage_propagates_aux w Hls) as (_ & -> & _).
    assert (set_pp_world w (set_menuOpen false p) = set_menuOpen false p) as ->.
    { rewrite <- Hw. by destruct p. }
    by apply Hdoc.
Qed.

Lemma profile_menu_items_witness :
  let p := setupQuestViewCTA (profileExample loggedInWorld true) in
  result auth.isLoggedIn (pp_world (snd (profileClick OnSignout p))) = Return false
  /\ href (pp_world (snd (profileClick OnSignout p))) = Some (js "/index.html")
  /\ menuOpen (snd (profileClick OnSignout p)) = false.
Proof.
  intros p.
  destruct (profile_menu_items (profileExample loggedInWorld true)
              eq_refl eq_refl eq_refl eq_refl eq_refl eq_refl) as (_ & _ & H & _).
  destruct (H {[ auth.storageKey := user (js "bob") ]} ∅ eq_refl eq_refl) as [H1 H2].
  split; [exact H2|]. fold p in H1. rewrite H1. split; reflexivity.
Defined.

(** X23.  A profile menu that is not all there is dead.  If the page has
    no profile button or no menu when the script runs, no listener is
    added: no click opens anything, and the sign-out item, though present,
    does nothing, so the session stays. *)
Theorem profile_menu_dead (p0 : ProfilePage) :
  profileBtn p0 = false \/ profileMenu p0 = false ->
  profileHandlers p0 = [] ->
  setupQuestViewCTA p0 = p0
  /\ forall t, profileClick t (setupQuestViewCTA p0) = (Return tt, p0).
Proof.
  intros Hmiss Hh.
  assert (Hp : setupQuestViewCTA p0 = p0).
  { unfold setupQuestViewCTA. by destruct Hmiss as [-> | ->]; rewrite ?orb_true_r. }
  split; [done|]. rewrite Hp. intros t.
  destruct p0 as [w b m a s o im mo hs]. cbn in Hh. subst hs.
  destruct t; reflexivity.
Qed.

Lemma profile_menu_dead_witness :
  profileClick OnSignout (setupQuestViewCTA (profileWithoutMenu loggedInWorld))
  = (Return tt, profileWithoutMenu loggedInWorld).
Proof.
  destruct (profile_menu_dead (profileWithoutMenu loggedInWorld)) as [_ H].
  - by right.
  - reflexivity.
  - apply H.
Defined.

(** ** The settings helper *)

Lemma applySetting_branch (type : jsstring) (s : SettingsPage) :
  applySetting type s =
    match settingOf type with
    | Some (inputId, notifId, message) => applyBranch inputId notifId message s
    | None => (Return tt, s)
    end.
Proof.
  unfold applySetting, settingOf, andThen.
  destruct (bool_decide (type = js "password")) eqn:E1.
  - apply bool_decide_eq_true in E1. subst type.
    rewrite (bool_decide_eq_false_2 (js "password" = js "email"))
      by (vm_compute; discriminate).
    by destruct (applyBranch _ _ _ s) as [[[]|e] s'].
  - by destruct (bool_decide (type = js "email")).
Qed.

Lemma applyBranch_cases (i n m : jsstring) (s : SettingsPage) :
  (applyBranch i n m s = (Return tt, s)
   /\ exists c, fields s !! i = Some c /\ trim (value c) = [])
  \/ (applyBranch i n m s = (Throw TypeError, s)
      /\ (fields s !! i = None
          \/ exists c, fields s !! i = Some c /\ trim (value c) ≠ []
                       /\ notifications s !! n = None))
  \/ (exists c n0, fields s !! i = Some c /\ trim (value c) ≠ []
        /\ notifications s !! n = Some n0
        /\ applyBranch i n m s = (Return tt, applied i n m c s)).
Proof.
  unfold applyBranch. destruct (fields s !! i) as [c|]; [|right; left; by auto].
  destruct (bool_decide (trim (value c) = [])) eqn:E.
  - apply bool_decide_eq_true in E. left. split; [done|]. by exists c.
  - apply bool_decide_eq_false in E.
    destruct (notifications s !! n) as [n0|].
    + right; right. by exists c, n0.
    + right; left. split; [done|]. right. by exists c.
Qed.

(** X24.  What [applySetting] does.  For the kind "password" or "email",
    with the input and the notification on the page: when the input is
    blank nothing changes; otherwise the notification gets the kind's
    message and is displayed as a block, the input is emptied, and every
    other input and notification is as before.  Nothing is kept of the
    value that was typed. *)
Theorem applySetting_effect (type inputId notifId message : jsstring)
    (s : SettingsPage) (c : Control) (n : Notification) :
  settingOf type = Some (inputId, notifId, message) ->
  fields s !! inputId = Some c ->
  notifications s !! notifId = Some n ->
  (trim (value c) = [] -> applySetting type s = (Return tt, s))
  /\ (trim (value c) ≠ [] ->
      let s' := snd (applySetting type s) in
      fst (applySetting type s) = Return tt
      /\ fields s' !! inputId = Some (setValue [] c)
      /\ notifications s' !! notifId
         = Some {| notif_textContent := message; notif_display := js "block" |}
      /\ (forall id, id ≠ inputId -> fields s' !! id = fields s !! id)
      /\ (forall id, id ≠ notifId -> notifications s' !! id = notifications s !! id)).
Proof.
  intros Hkind Hc Hn. rewrite applySetting_branch, Hkind. unfold applyBranch.
  rewrite Hc, Hn. split.
  - intros Hblank. by rewrite (bool_decide_eq_true_2 _ Hblank).
  - intros Hfull. rewrite (bool_decide_eq_false_2 _ Hfull). cbn [fst snd fields notifications].
    split; [done|]. split; [apply lookup_insert_eq|]. split; [apply lookup_insert_eq|].
    split; intros id Hid; by rewrite lookup_insert_ne.
Qed.

Lemma applySetting_effect_witness :
  let s := settingsExample (js "hunter2") [] in
  fields (snd (applySetting (js "password") s)) !! js "new-password"
  = Some {| value := []; defaultValue := []; type := js "password" |}
  /\ notifications (snd (applySetting (js "password") s)) !! js "password-notification"
     = Some {| notif_textContent := js "Password changed successfully!";
               notif_display := js "block" |}.
Proof.
  intros s.
  destruct (applySetting_effect (js "password") _ _ _ s _ _ eq_refl eq_refl eq_refl)
    as [_ H].
  destruct H as (_ & H2 & H3 & _); [vm_compute; discriminate|].
  split; [exact H2 | exact H3].
Defined.

(** X25.  [applySetting] is safe to repeat and fails without effect.  For
    every kind and page: a kind other than "password" and "email" does
    nothing; a call that throws (the input is missing, or the input is
    filled and the notification is missing) leaves the page as it was, so
    the input is not emptied; applying a setting a second time changes
    nothing more; and a notification is never hidden or removed. *)
Theorem applySetting_safe (type : jsstring) (s : SettingsPage) :
  let s' := snd (applySetting type s) in
  (settingOf type = None -> applySetting type s = (Return tt, s))
  /\ (fst (applySetting type s) ≠ Return tt ->
      fst (applySetting type s) = Throw TypeError /\ s' = s)
  /\ (forall inputId notifId message,
         settingOf type = Some (inputId, notifId, message) ->
         fields s !! inputId = None ->
         applySetting type s = (Throw TypeError, s))
  /\ (forall inputId notifId message c,
         settingOf type = Some (inputId, notifId, message) ->
         fields s !! inputId = Some c -> trim (value c) ≠ [] ->
         notifications s !! notifId = None ->
         applySetting type s = (Throw TypeError, s))
  /\ snd (applySetting type s') = s'
  /\ (forall id n, notifications s !! id = Some n ->
        exists n', notifications s' !! id = Some n'
                   /\ (n' = n \/ notif_display n' = js "block")).
Proof.
  intros s'. subst s'. rewrite !applySetting_branch.
  destruct (settingOf type) as [[[i nid] m]|] eqn:Hkind.
  2:{ repeat split; try done. intros id n Hn. exists n. by auto. }
  split; [done|].
  destruct (applyBranch_cases i nid m s)
    as [[Heq (c & Hc & Hblank)]|[[Heq Hmiss]|(c & n0 & Hc & Hfull & Hn & Heq)]].
  - rewrite !Heq. cbn [fst snd]. rewrite ?Heq.
    split; [done|]. split; [intros ? ? ? [= <- <- <-] ?; congruence|].
    split; [intros ? ? ? ? [= <- <- <-] ? ? ?; congruence|].
    split; [done|]. intros id n Hidn. exists n. by auto.
  - rewrite !Heq. cbn [fst snd]. rewrite ?Heq.
    split; [done|]. split; [done|]. split; [done|].
    split; [done|]. intros id n Hidn. exists n. by auto.
  - rewrite Heq. cbn [fst snd]. split; [done|].
    split; [intros ? ? ? [= <- <- <-] ?; congruence|].
    split; [intros ? ? ? ? [= <- <- <-] ? ? ?; congruence|].
    split.
    + unfold applyBranch, applied.
      cbn [fields notifications]. rewrite lookup_insert_eq.
      cbn [value setValue]. by rewrite bool_decide_eq_true_2.
    + intros id n Hidn. unfold applied. cbn [notifications].
      destruct (decide (nid = id)) as [->|Hne].
      * rewrite lookup_insert_eq. eexists. split; [done|]. by right.
      * rewrite lookup_insert_ne by done. exists n. by auto.
Qed.

Lemma applySetting_safe_witness :
  applySetting (js "password")
    {| fields := {[ js "new-password" :=
                      {| value := js "hunter2"; defaultValue := []; type := js "password" |} ]};
       notifications := ∅ |}
  = (Throw TypeError,
     {| fields := {[ js "new-password" :=
                       {| value := js "hunter2"; defaultValue := []; type := js "password" |} ]};
        notifications := ∅ |}).
Proof.
  destruct (applySetting_safe (js "password")
              {| fields := {[ js "new-password" :=
                                {| value := js "hunter2"; defaultValue := [];
                                   type := js "password" |} ]};
                 notifications := ∅ |}) as (_ & _ & _ & H & _).
  apply (H _ _ _ _ eq_refl eq_refl); [vm_compute; discriminate|reflexivity].
Defined.

(** ** The test button *)

(** X26.  The test button keeps [aria-pressed] in step with its colour.
    After a click, [aria-pressed] is "true" exactly when the class list
    holds [red] and "false" exactly when it does not; the click flips the
    presence of [red] and touches no other class; two clicks give back the
    same set of classes; and a class list without repetitions stays so. *)
Theorem testBtn_in_step (b : TestButton) :
  let b' := testBtnClick b in
  (aria_pressed b' = Some (js "true") <-> js "red" ∈ classList b')
  /\ (aria_pressed b' = Some (js "false") <-> js "red" ∉ classList b')
  /\ (js "red" ∈ classList b' <-> js "red" ∉ classList b)
  /\ (forall tok, tok ≠ js "red" -> (tok ∈ classList b' <-> tok ∈ classList b))
  /\ (forall tok, tok ∈ classList (testBtnClick b') <-> tok ∈ classList b)
  /\ (NoDup (classList b) -> NoDup (classList b')).
Proof.
  intros b'.
  assert (Hred : js "red" ∈ classList b' <-> js "red" ∉ classList b).
  { subst b'. unfold testBtnClick, classList_toggle.
    destruct (bool_decide (js "red" ∈ classList b)) eqn:E; cbn [classList].
    - apply bool_decide_eq_true in E. rewrite list_elem_of_filter. tauto.
    - apply bool_decide_eq_false in E. rewrite elem_of_app, list_elem_of_singleton. tauto. }
  assert (Hother : forall b0 tok, tok ≠ js "red" ->
             (tok ∈ classList (testBtnClick b0) <-> tok ∈ classList b0)).
  { intros b0 tok Htok. unfold testBtnClick, classList_toggle.
    destruct (bool_decide (js "red" ∈ classList b0)); cbn [classList].
    - rewrite list_elem_of_filter. tauto.
    - rewrite elem_of_app, list_elem_of_singleton. tauto. }
  assert (Hflip : forall b0, js "red" ∈ classList (testBtnClick b0) <-> js "red" ∉ classList b0).
  { intros b0. unfold testBtnClick, classList_toggle.
    destruct (bool_decide (js "red" ∈ classList b0)) eqn:E; cbn [classList].
    - apply bool_decide_eq_true in E. rewrite list_elem_of_filter. tauto.
    - apply bool_decide_eq_false in E. rewrite elem_of_app, list_elem_of_singleton. tauto. }
  assert (Hpressed : aria_pressed b' = Some (String_of_bool (bool_decide (js "red" ∉ classList b)))).
  { subst b'. unfold testBtnClick, classList_toggle.
    destruct (bool_decide (js "red" ∈ classList b)) eqn:E; cbn [aria_pressed].
    - apply bool_decide_eq_true in E. by rewrite bool_decide_eq_false_2 by tauto.
    - apply bool_decide_eq_false in E. by rewrite bool_decide_eq_true_2. }
  split; [|split; [|split; [exact Hred|split; [apply Hother|split]]]].
  - rewrite Hpressed, Hred.
    destruct (decide (js "red" ∉ classList b)) as [H|H].
    + rewrite (bool_decide_eq_true_2 _ H). tauto.
    + rewrite (bool_decide_eq_false_2 _ H). split; [|done].
      intros E. vm_compute in E. discriminate E.
  - rewrite Hpressed, Hred.
    destruct (decide (js "red" ∉ classList b)) as [H|H].
    + rewrite (bool_decide_eq_true_2 _ H). split; [|tauto].
      intros E. vm_compute in E. discriminate E.
    + rewrite (bool_decide_eq_false_2 _ H). tauto.
  - intros tok. destruct (decide (tok = js "red")) as [->|Htok].
    + rewrite Hflip. fold b'. rewrite Hred.
      destruct (decide (js "red" ∈ classList b)); tauto.
    + rewrite (Hother b' tok Htok). apply (Hother b tok Htok).
  - intros Hnd. subst b'. unfold testBtnClick, classList_toggle.
    destruct (bool_decide (js "red" ∈ classList b)) eqn:E; cbn [classList].
    + by apply NoDup_filter.
    + apply bool_decide_eq_false in E. apply NoDup_app. split; [done|].
      split; [|apply NoDup_singleton].
      intros x Hx Hx'. apply list_elem_of_singleton in Hx'. by subst.
Qed.

(** ** Where the targets lead *)

Lemma joinPath_app (a b : list jsstring) :
  joinPath (a ++ b) = joinPath a ++ joinPath b.
Proof.
  induction a as [|s a IH]; [done|].
  cbn [app joinPath]. rewrite IH. cbn [app]. by rewrite app_assoc.
Qed.

Lemma split_join (seg : jsstring) (rest : list jsstring) :
  plain seg -> Forall plain rest -> split 0x2F (seg ++ joinPath rest) = seg :: rest.
Proof.
  revert seg. induction rest as [|s rest IH]; intros seg Hseg Hrest.
  - cbn [joinPath]. rewrite app_nil_r. by apply split_no_sep.
  - cbn [joinPath]. rewrite split_app_sep, (split_no_sep _ _ Hseg).
    apply Forall_cons in Hrest as [Hs Hrest]. by rewrite (IH s Hs Hrest).
Qed.

Lemma segments_joinPath (segs : list jsstring) :
  Forall plain segs -> segments (joinPath segs) = segs.
Proof.
  destruct segs as [|seg rest]; [done|]. intros [Hs Hr]%Forall_cons.
  unfold segments. cbn [joinPath split]. rewrite bool_decide_eq_true_2 by done.
  cbn [tail]. by apply split_join.
Qed.

Lemma lastSegment_joinPath (dirs : list jsstring) (file : jsstring) :
  plain file -> lastSegment (joinPath (dirs ++ [file])) = file.
Proof.
  intros H. rewrite joinPath_app. cbn [joinPath]. rewrite app_nil_r.
  by apply lastSegment_file.
Qed.

Lemma resolve_relative (dirs : list jsstring) (file ref : jsstring)
    (out : list jsstring) :
  Forall plain (dirs ++ [file]) -> head ref ≠ Some 0x2F -> ref ≠ [] ->
  removeDotSegments (reverse dirs) (split 0x2F ref) = out ->
  resolvePath (joinPath (dirs ++ [file])) ref = joinPath out.
Proof.
  intros Hp Hh Hne <-. destruct ref as [|c ref']; [done|]. unfold resolvePath.
  rewrite bool_decide_eq_false_2 by (intros ->; by apply Hh).
  by rewrite (segments_joinPath _ Hp), removelast_last.
Qed.

Lemma resolve_absolute (base ref : jsstring) :
  head ref = Some 0x2F -> resolvePath base ref = resolvePath [] ref.
Proof.
  destruct ref as [|c ref']; [done|]. intros [= ->]. unfold resolvePath.
  by rewrite bool_decide_eq_true_2.
Qed.

Lemma includes_pages (prefix : list jsstring) (seg : jsstring) (rest : list jsstring) :
  includes (joinPath (prefix ++ js "pages" :: seg :: rest)) (js "/pages/") = true.
Proof.
  apply includes_spec. exists (joinPath prefix), (seg ++ joinPath rest).
  rewrite joinPath_app. reflexivity.
Qed.

Lemma includes_pages_auth (prefix : list jsstring) (seg : jsstring)
    (rest : list jsstring) :
  includes (joinPath (prefix ++ js "pages" :: js "auth" :: seg :: rest))
    (js "/pages/auth/") = true.
Proof.
  apply includes_spec. exists (joinPath prefix), (seg ++ joinPath rest).
  rewrite joinPath_app. reflexivity.
Qed.

Lemma plain_literal (seg : jsstring) : bool_decide (plain seg) = true -> plain seg.
Proof. apply bool_decide_eq_true. Qed.

Ltac walk t :=
  transitivity t;
  [reflexivity | by rewrite !reverse_cons, ?reverse_involutive, <- ?app_assoc].

Ltac literal := first [discriminate | by apply plain_literal | by vm_compute].

(** X27.  Where the once-per-session redirect leads.  The listener assigns
    the bare file name [questBoard.html], so from a page in directory [dirs]
    a logged-in visitor without the flag is sent to [questBoard.html] in
    that same directory: this is the quest board of [routes] exactly when
    the page lies in [/pages/quests/].  Loading the page reached asks for no
    further navigation. *)
Theorem redirect_destination (w : World) (ls ss : gmap jsstring jsstring)
    (dirs : list jsstring) (file : jsstring) :
  Forall plain (dirs ++ [file]) ->
  localStorage w = Some ls -> sessionStorage w = Some ss ->
  is_Some (ls !! auth.storageKey) ->
  ss !! auth.redirectKey ≠ Some (js "1") ->
  ~ excludedPage file ->
  let w' := exec (pageLoad (joinPath (dirs ++ [file]))) w in
  destination w' = Some (joinPath (dirs ++ [js "questBoard.html"]))
  /\ (destination w' = Some routes.questview <-> dirs = [js "pages"; js "quests"])
  /\ destination (exec (pageLoad (joinPath (dirs ++ [js "questBoard.html"]))) w') = None.
Proof.
  intros Hp Hls Hss Hu Hflag Hfile w'.
  apply Forall_app in Hp as Hp'. destruct Hp' as [Hdirs Hf].
  rewrite Forall_singleton in Hf.
  assert (Hq : Forall plain (dirs ++ [js "questBoard.html"])).
  { apply Forall_app. split; [done|]. apply Forall_singleton. literal. }
  assert (Hw' : w' = set_href (Some (js "questBoard.html"))
                   (set_sessionStorage (Some (<[auth.redirectKey := js "1"]> ss))
                      (arrive (joinPath (dirs ++ [file])) w))).
  { subst w'. apply (pageLoad_fires w ls ss); try done.
    by rewrite (lastSegment_joinPath dirs file Hf). }
  assert (Hd : destination w' = Some (joinPath (dirs ++ [js "questBoard.html"]))).
  { rewrite Hw'. unfold destination, set_href, set_sessionStorage, arrive.
    cbn [href pathname]. f_equal.
    apply resolve_relative; [done|literal|literal|].
    walk (reverse (js "questBoard.html" :: reverse dirs)). }
  split; [done|]. split.
  - rewrite Hd. split.
    + intros [= H]. apply (f_equal segments) in H.
      rewrite (segments_joinPath _ Hq) in H.
      change (segments routes.questview)
        with ([js "pages"; js "quests"] ++ [js "questBoard.html"]) in H.
      by apply app_inj_tail in H as [H _].
    + intros ->. reflexivity.
  - rewrite pageLoad_excluded.
    + reflexivity.
    + rewrite lastSegment_joinPath by literal. by left.
Qed.

Lemma redirect_destination_witness :
  destination (exec (pageLoad (js "/index.html")) loggedInWorld)
  = Some (js "/questBoard.html")
  /\ js "/questBoard.html" ≠ routes.questview.
Proof.
  split; [|discriminate].
  refine (proj1 (redirect_destination loggedInWorld
                   {[ auth.storageKey := user (js "bob") ]} ∅ [] (js "index.html")
                   _ eq_refl eq_refl _ _ _)).
  - apply Forall_singleton. literal.
  - by eexists.
  - discriminate.
  - intros [H|H]; discriminate H.
Defined.

(** X28.  Where a login leads.  An accepted login without a return
    parameter, made from a page [.../pages/auth/<file>], leads to
    [.../pages/quests/questBoard.html], or to [.../admin/admin.html] for the
    administrator, under the same prefix as the login page; made from a page
    whose path does not contain [/pages/auth/] it leads to the same two
    pages at the root of the site. *)
Theorem login_destination (w : World) (cu cp : Control)
    (ls : gmap jsstring jsstring) :
  inputs w !! js "username" = Some cu ->
  inputs w !! js "password" = Some cp ->
  localStorage w = Some ls ->
  trim (value cu) ≠ [] -> value cp ≠ [] ->
  returnParam w = None ->
  (forall (prefix : list jsstring) (file : jsstring),
      Forall plain prefix -> plain file ->
      pathname w = joinPath (prefix ++ [js "pages"; js "auth"; file]) ->
      destination (exec setupLoginForm w)
      = Some (joinPath (prefix ++ (if isAdmin (trim (value cu)) (value cp)
                                   then [js "admin"; js "admin.html"]
                                   else [js "pages"; js "quests"; js "questBoard.html"]))))
  /\ (includes (pathname w) (js "/pages/auth/") = false ->
      destination (exec setupLoginForm w)
      = Some (if isAdmin (trim (value cu)) (value cp)
              then js "/admin/admin.html" else routes.questview)).
Proof.
  intros Hu Hp Hls Hname Hpass Hret.
  destruct (login_world_after w cu cp ls Hu Hp Hls Hname Hpass) as [ms ->].
  unfold destination, set_href, set_localStorage, set_messages.
  cbn [href pathname]. rewrite Hret. cbn [orElse]. split.
  - intros prefix file Hprefix Hfile Hpath. rewrite Hpath.
    unfold adminPath, questBoardPath. rewrite includes_pages_auth.
    assert (Hall : Forall plain ((prefix ++ [js "pages"; js "auth"]) ++ [file])).
    { repeat (apply Forall_app; split); try done.
      - repeat (apply Forall_cons; split); [literal|literal|done].
      - by apply Forall_singleton. }
    replace (prefix ++ [js "pages"; js "auth"; file])
      with ((prefix ++ [js "pages"; js "auth"]) ++ [file])
      by (by rewrite <- app_assoc).
    f_equal. destruct (isAdmin _ _).
    + apply resolve_relative; [done|literal|literal|]. rewrite reverse_app.
      walk (reverse (js "admin.html" :: js "admin" :: reverse prefix)).
    + apply resolve_relative; [done|literal|literal|]. rewrite reverse_app.
      walk (reverse (js "questBoard.html" :: js "quests" :: js "pages" :: reverse prefix)).
  - intros Hpath. unfold adminPath, questBoardPath. rewrite Hpath. f_equal.
    destruct (isAdmin _ _); by rewrite resolve_absolute.
Qed.

Lemma login_destination_witness :
  destination (exec setupLoginForm (loginPage (js "bob") (js "secret") None))
  = Some routes.questview.
Proof.
  refine (proj1 (login_destination (loginPage (js "bob") (js "secret") None) _ _ _
                   (loginPage_username _ _ _) (loginPage_password _ _ _) eq_refl
                   _ _ eq_refl) [] (js "login.html") _ _ eq_refl).
  - discriminate.
  - discriminate.
  - constructor.
  - literal.
Defined.

(** X29.  Where the profile menu leads.  From a page
    [.../pages/<dir>/<file>] the three items lead to
    [.../pages/dashboard/accountSummary.html],
    [.../pages/dashboard/settings.html] and [.../index.html] under the same
    prefix, and from a page whose path does not contain [/pages/] to the
    same pages at the root.  From a page directly in [.../pages/] the
    account item leads outside [pages], to
    [.../dashboard/accountSummary.html]. *)
Theorem profile_destinations (p : ProfilePage) (ls ss : gmap jsstring jsstring) :
  localStorage (pp_world p) = Some ls -> sessionStorage (pp_world p) = Some ss ->
  let after (body : ProfilePage -> outcome unit * ProfilePage) :=
    destination (pp_world (snd (body p))) in
  (forall (prefix : list jsstring) (dir file : jsstring),
      Forall plain prefix -> plain dir -> plain file ->
      pathname (pp_world p) = joinPath (prefix ++ [js "pages"; dir; file]) ->
      after onAccount
      = Some (joinPath (prefix ++ [js "pages"; js "dashboard"; js "accountSummary.html"]))
      /\ after onSettings
         = Some (joinPath (prefix ++ [js "pages"; js "dashboard"; js "settings.html"]))
      /\ after onSignout = Some (joinPath (prefix ++ [js "index.html"])))
  /\ (forall (prefix : list jsstring) (file : jsstring),
        Forall plain prefix -> plain file ->
        pathname (pp_world p) = joinPath (prefix ++ [js "pages"; file]) ->
        after onAccount
        = Some (joinPath (prefix ++ [js "dashboard"; js "accountSummary.html"])))
  /\ (includes (pathname (pp_world p)) (js "/pages/") = false ->
      after onAccount = Some (js "/pages/dashboard/accountSummary.html")
      /\ after onSettings = Some (js "/pages/dashboard/settings.html")
      /\ after onSignout = Some (js "/index.html")).
Proof.
  intros Hls Hss after.
  assert (Ha : after onAccount
               = Some (resolvePath (pathname (pp_world p))
                         (accountPath (pathname (pp_world p))))).
  { subst after. by destruct p. }
  assert (Hs : after onSettings
               = Some (resolvePath (pathname (pp_world p))
                         (settingsPath (pathname (pp_world p))))).
  { subst after. by destruct p. }
  assert (Ho : after onSignout
               = Some (resolvePath (pathname (pp_world p))
                         (indexPath (pathname (pp_world p))))).
  { subst after. unfold onSignout, closeMenu.
    assert (Hw : pp_world (set_menuOpen false p) = pp_world p) by (by destruct p).
    rewrite Hw, (logout_exec (pp_world p) ls ss Hls Hss). reflexivity. }
  rewrite Ha, Hs, Ho. clear Ha Hs Ho after.
  split; [|split].
  - intros prefix dir file Hprefix Hdir Hfile Hpath. rewrite Hpath.
    unfold accountPath, settingsPath, indexPath. rewrite includes_pages.
    assert (Hall : Forall plain ((prefix ++ [js "pages"; dir]) ++ [file])).
    { repeat (apply Forall_app; split); try done.
      - repeat (apply Forall_cons; split); [literal|done|done].
      - by apply Forall_singleton. }
    replace (prefix ++ [js "pages"; dir; file])
      with ((prefix ++ [js "pages"; dir]) ++ [file])
      by (by rewrite <- app_assoc).
    split; [|split]; f_equal.
    + apply resolve_relative; [done|literal|literal|]. rewrite reverse_app.
      walk (reverse (js "accountSummary.html" :: js "dashboard" :: js "pages"
                       :: reverse prefix)).
    + apply resolve_relative; [done|literal|literal|]. rewrite reverse_app.
      walk (reverse (js "settings.html" :: js "dashboard" :: js "pages"
                       :: reverse prefix)).
    + apply resolve_relative; [done|literal|literal|]. rewrite reverse_app.
      walk (reverse (js "index.html" :: reverse prefix)).
  - intros prefix file Hprefix Hfile Hpath. rewrite Hpath.
    unfold accountPath. rewrite includes_pages.
    assert (Hall : Forall plain ((prefix ++ [js "pages"]) ++ [file])).
    { repeat (apply Forall_app; split); try done.
      - apply Forall_singleton. literal.
      - by apply Forall_singleton. }
    replace (prefix ++ [js "pages"; file])
      with ((prefix ++ [js "pages"]) ++ [file])
      by (by rewrite <- app_assoc).
    f_equal. apply resolve_relative; [done|literal|literal|]. rewrite reverse_app.
    walk (reverse (js "accountSummary.html" :: js "dashboard" :: reverse prefix)).
  - intros Hpath. unfold accountPath, settingsPath, indexPath. rewrite Hpath.
    by rewrite !resolve_absolute.
Qed.

Lemma profile_destinations_witness :
  destination (pp_world (snd (onAccount (profileExample
     (arrive (js "/pages/quests/questBoard.html") emptyWorld) true))))
  = Some (js "/pages/dashboard/accountSummary.html")
  /\ destination (pp_world (snd (onAccount (profileExample
       (arrive (js "/pages/about.html") emptyWorld) true))))
     = Some (js "/dashboard/accountSummary.html").
Proof.
  split.
  - refine (proj1 (proj1 (profile_destinations
        (profileExample (arrive (js "/pages/quests/questBoard.html") emptyWorld) true)
        ∅ ∅ eq_refl eq_refl) [] (js "quests") (js "questBoard.html") _ _ _ eq_refl)).
    + constructor.
    + literal.
    + literal.
  - refine (proj1 (proj2 (profile_destinations
        (profileExample (arrive (js "/pages/about.html") emptyWorld) true)
        ∅ ∅ eq_refl eq_refl)) [] (js "about.html") _ _ eq_refl).
    + constructor.
    + literal.
Defined.
